(** * HRD employee-management front end: geofence locations, assignments,
      registration and routing

    A shallow embedding of the TypeScript sources
    - the map view with the search bar (component [GeofenceMapView], its
      effect that filters the locations and its reaction to Enter),
    - the table of locations (component [GeofenceLocationTable]),
    - the location dialog of the locations page (component
      [GeofenceLocationDialog], with its zod [formSchema], its employee
      selector and the effect that loads the selection),
    - [src/pages/LocationsPage.tsx] (list / save / delete workflow),
    - [src/components/employee/EmployeeLocationAssignmentDialog.tsx],
    - [src/lib/supabaseClient.ts] ([uploadFile], [signUp]),
    - [src/App.tsx] ([ProtectedRoute], [AppRoutes]) and the registration
      form (component [RegisterForm], its schema and [onSubmit]),
    and of the table constraints declared in the SQL migrations.

    A string is held as the bytes of its UTF-8 encoding: [trim] removes the
    white space of ECMAScript, [stringLength] counts UTF-16 code units, and
    [toLowerCase], the case mapping of Unicode, is a parameter of the
    definitions that call it.  JavaScript numbers are modelled by their
    real value (a rational), NaN and the two infinities. *)

From Stdlib Require Import QArith ZArith String Ascii List.
From stdpp Require Import base gmap strings list sorting.

(** ** JavaScript strings *)

Module Js.

(** A string is held as the bytes of its UTF-8 encoding; the strings of
    the program are texts (no surrogate without its partner), so that one
    text occurs in another as bytes exactly when it does as UTF-16 code
    units. *)
Definition code (c : ascii) : N := N_of_ascii c.

Definition isByte (k : N) (c : ascii) : bool := (code c =? k)%N.

Definition inRange (lo hi : N) (c : ascii) : bool :=
  ((lo <=? code c) && (code c <=? hi))%N.

(** *** Letters of ASCII

    [asciiLower] maps A-Z to a-z and leaves every other byte, so every
    character outside ASCII, as it is.  It is what [toLowerCase] does on a
    string of ASCII characters, and the folding of the [i] flag of a regular
    expression on the ASCII characters of its pattern (without the [u] flag
    a character outside ASCII never folds to one inside). *)
Definition isUpper (c : ascii) : bool := inRange 65 90 c.

Definition lower_char (c : ascii) : ascii :=
  if isUpper c then ascii_of_N (code c + 32) else c.

Fixpoint asciiLower (s : string) : string :=
  match s with
  | EmptyString => EmptyString
  | String c s' => String (lower_char c) (asciiLower s')
  end.

Fixpoint isAscii (s : string) : bool :=
  match s with
  | EmptyString => true
  | String c s' => (code c <? 128)%N && isAscii s'
  end.

(** [String.prototype.toLowerCase] follows the case mappings of Unicode.
    The development takes it as a parameter [toLowerCase : string → string];
    the examples on ASCII text use of it only that it is [asciiLower]
    there. *)
Definition lowersAscii (toLowerCase : string → string) : Prop :=
  ∀ s, isAscii s = true → toLowerCase s = asciiLower s.

(** *** Length

    The [length] of a string counts UTF-16 code units: one for a character
    of the basic plane (one to three bytes), two for any other (four
    bytes).  [codeUnits] gives the count to the first byte of a
    character. *)
Definition codeUnits (c : ascii) : nat :=
  if (code c <? 128)%N then 1          (* one byte *)
  else if (code c <? 192)%N then 0     (* continuation byte *)
  else if (code c <? 240)%N then 1     (* first of two or three bytes *)
  else 2.                              (* first of four bytes *)

Fixpoint stringLength (s : string) : nat :=
  match s with
  | EmptyString => 0
  | String c s' => codeUnits c + stringLength s'
  end.

(** *** White space

    The characters that [trim] removes are the white space and the line
    terminators of ECMAScript:
    - U+0009 to U+000D and U+0020, one byte each;
    - U+00A0, the bytes C2 A0;
    - U+1680 (E1 9A 80), U+2000 to U+200A (E2 80 80 to E2 80 8A),
      U+2028 and U+2029 (E2 80 A8, E2 80 A9), U+202F (E2 80 AF),
      U+205F (E2 81 9F), U+3000 (E3 80 80) and U+FEFF (EF BB BF). *)
Definition isWhiteSpace1 (a : ascii) : bool := isByte 32 a || inRange 9 13 a.

Definition isWhiteSpace2 (a b : ascii) : bool := isByte 0xC2 a && isByte 0xA0 b.

Definition isWhiteSpace3 (a b c : ascii) : bool :=
  (isByte 0xE1 a && isByte 0x9A b && isByte 0x80 c)
  || (isByte 0xE2 a && isByte 0x80 b
      && (inRange 0x80 0x8A c || isByte 0xA8 c || isByte 0xA9 c || isByte 0xAF c))
  || (isByte 0xE2 a && isByte 0x81 b && isByte 0x9F c)
  || (isByte 0xE3 a && isByte 0x80 b && isByte 0x80 c)
  || (isByte 0xEF a && isByte 0xBB b && isByte 0xBF c).

(** [String.prototype.trimStart] *)
Fixpoint trimStart (s : string) : string :=
  match s with
  | EmptyString => EmptyString
  | String a s1 =>
      if isWhiteSpace1 a then trimStart s1
      else
        match s1 with
        | EmptyString => s
        | String b s2 =>
            if isWhiteSpace2 a b then trimStart s2
            else
              match s2 with
              | EmptyString => s
              | String c s3 => if isWhiteSpace3 a b c then trimStart s3 else s
              end
        end
  end.

(** Truthiness of a string: only the empty string is falsy. *)
Definition truthy (s : string) : bool :=
  match s with EmptyString => false | String _ _ => true end.

(** [String.prototype.trimEnd]: the string is cut where what is left of it
    is white space only. *)
Fixpoint trimEnd (s : string) : string :=
  match s with
  | EmptyString => EmptyString
  | String c s' =>
      if truthy (trimStart s) then String c (trimEnd s') else EmptyString
  end.

(** [String.prototype.trim] *)
Definition trim (s : string) : string := trimEnd (trimStart s).

(** The line terminators, which the dot of a regular expression does not
    match: U+000A, U+000D, U+2028 and U+2029. *)
Fixpoint noLineTerminator (s : string) : bool :=
  match s with
  | EmptyString => true
  | String a s1 =>
      negb (isByte 10 a || isByte 13 a)
      && negb match s1 with
              | String b (String c _) =>
                  isByte 0xE2 a && isByte 0x80 b && (isByte 0xA8 c || isByte 0xA9 c)
              | _ => false
              end
      && noLineTerminator s1
  end.

(** [String.prototype.startsWith] *)
Fixpoint startsWith (s p : string) {struct p} : bool :=
  match p, s with
  | EmptyString, _ => true
  | String a p', String b s' => Ascii.eqb a b && startsWith s' p'
  | String _ _, EmptyString => false
  end.

(** [String.prototype.includes]: the search string occurs at some offset. *)
Fixpoint includes (s q : string) : bool :=
  startsWith s q ||
  match s with
  | EmptyString => false
  | String _ s' => includes s' q
  end.

(** [s.split(sep)] for a one-character separator. *)
Fixpoint split (sep : ascii) (s : string) : list string :=
  match s with
  | EmptyString => [EmptyString]
  | String c s' =>
      if Ascii.eqb c sep then EmptyString :: split sep s'
      else match split sep s' with
           | [] => [String c EmptyString]
           | w :: ws => String c w :: ws
           end
  end.

(** [Array.prototype.join] *)
Fixpoint join (sep : string) (l : list string) : string :=
  match l with
  | [] => EmptyString
  | [s] => s
  | s :: l' => s +:+ sep +:+ join sep l'
  end.

(** [Array.prototype.pop] as used on the result of [split]: the last
    element, [None] on the empty array. *)
Definition pop {A} (l : list A) : option A := last l.

(** *** Percent escapes

    [decodeURIComponent] replaces every escape, a percent sign and two
    hexadecimal digits, by the byte it names; the bytes of consecutive
    escapes have to form the UTF-8 encoding of one character.  [None] is the
    [URIError] for an escape that is cut short or not hexadecimal, and for
    bytes that are no such encoding. *)
Definition hexDigit (c : ascii) : option N :=
  if inRange 48 57 c then Some (code c - 48)%N
  else if inRange 65 70 c then Some (code c - 55)%N
  else if inRange 97 102 c then Some (code c - 87)%N
  else None.

Inductive Token : Type :=
| Literal (c : ascii)
| Escape (octet : N).

(** The string cut into escapes and other characters; a percent sign
    always begins an escape. *)
Fixpoint tokens (s : string) : option (list Token) :=
  match s with
  | EmptyString => Some []
  | String c s1 =>
      if isByte 37 c then
        match s1 with
        | String x (String y rest) =>
            match hexDigit x, hexDigit y, tokens rest with
            | Some h, Some l, Some ts => Some (Escape (16 * h + l) :: ts)
            | _, _, _ => None
            end
        | _ => None
        end
      else
        match tokens s1 with
        | Some ts => Some (Literal c :: ts)
        | None => None
        end
  end.

Definition continuation (b : N) : bool := ((0x80 <=? b) && (b <=? 0xBF))%N.

(** The well-formed encodings of two, three and four bytes: no overlong
    form, no surrogate, nothing above U+10FFFF. *)
Definition wellFormed2 (a b : N) : bool :=
  ((0xC2 <=? a) && (a <=? 0xDF))%N && continuation b.

Definition wellFormed3 (a b c : N) : bool :=
  (((a =? 0xE0) && (0xA0 <=? b) && (b <=? 0xBF))
   || ((0xE1 <=? a) && (a <=? 0xEC) && continuation b)
   || ((a =? 0xED) && (0x80 <=? b) && (b <=? 0x9F))
   || ((0xEE <=? a) && (a <=? 0xEF) && continuation b))%N
  && continuation c.

Definition wellFormed4 (a b c d : N) : bool :=
  (((a =? 0xF0) && (0x90 <=? b) && (b <=? 0xBF))
   || ((0xF1 <=? a) && (a <=? 0xF3) && continuation b)
   || ((a =? 0xF4) && (0x80 <=? b) && (b <=? 0x8F)))%N
  && continuation c && continuation d.

Definition bytes (l : list N) : string :=
  fold_right (λ b s, String (ascii_of_N b) s) EmptyString l.

(** The text of a list of tokens.  The first byte of a character tells
    how many bytes it has: below 80 one, C0 to DF two, E0 to EF three, F0 to
    F7 four; no character begins with another byte. *)
Fixpoint decodeTokens (ts : list Token) : option string :=
  match ts with
  | [] => Some EmptyString
  | Literal c :: ts' =>
      match decodeTokens ts' with
      | Some s => Some (String c s)
      | None => None
      end
  | Escape a :: ts' =>
      if (a <? 0x80)%N then
        match decodeTokens ts' with
        | Some s => Some (bytes [a] +:+ s)
        | None => None
        end
      else if (a <? 0xC0)%N then None
      else if (a <? 0xE0)%N then
        match ts' with
        | Escape b :: ts2 =>
            match decodeTokens ts2 with
            | Some s => if wellFormed2 a b then Some (bytes [a; b] +:+ s) else None
            | None => None
            end
        | _ => None
        end
      else if (a <? 0xF0)%N then
        match ts' with
        | Escape b :: Escape c :: ts3 =>
            match decodeTokens ts3 with
            | Some s =>
                if wellFormed3 a b c then Some (bytes [a; b; c] +:+ s) else None
            | None => None
            end
        | _ => None
        end
      else if (a <? 0xF8)%N then
        match ts' with
        | Escape b :: Escape c :: Escape d :: ts4 =>
            match decodeTokens ts4 with
            | Some s =>
                if wellFormed4 a b c d then Some (bytes [a; b; c; d] +:+ s)
                else None
            | None => None
            end
        | _ => None
        end
      else None
  end.

Definition decodeURIComponent (s : string) : option string :=
  match tokens s with
  | Some ts => decodeTokens ts
  | None => None
  end.

(** [encodeURI]: letters, digits and the characters of [uriMarks] stay;
    every other byte of the encoding of the text becomes an escape, with
    capital hexadecimal digits. *)
Definition uriMarks : string := ";/?:@&=+$,#-_.!~*'()".

Definition uriUnescaped (c : ascii) : bool :=
  inRange 48 57 c || inRange 65 90 c || inRange 97 122 c
  || includes uriMarks (String c EmptyString).

Definition hexChar (n : N) : ascii :=
  ascii_of_N (if (n <? 10)%N then 48 + n else 55 + n).

Fixpoint encodeURI (s : string) : string :=
  match s with
  | EmptyString => EmptyString
  | String c s' =>
      if uriUnescaped c then String c (encodeURI s')
      else String "%" (String (hexChar (code c / 16))
                         (String (hexChar (code c mod 16)) (encodeURI s')))
  end.

(** *** JavaScript numbers

    A number is NaN, an infinity, or a finite value given by its real
    value.  Comparisons follow IEEE 754: every comparison with NaN is
    false. *)
Inductive JsNumber : Type :=
| NaN
| PosInf
| NegInf
| Num (q : Q).

(** [a <= b] *)
Definition num_le (a b : JsNumber) : bool :=
  match a, b with
  | NaN, _ | _, NaN => false
  | NegInf, _ => true
  | _, PosInf => true
  | PosInf, _ => false
  | _, NegInf => false
  | Num x, Num y => Qle_bool x y
  end.

(** [a < b] *)
Definition num_lt (a b : JsNumber) : bool :=
  match a, b with
  | NaN, _ | _, NaN => false
  | _, NegInf => false
  | PosInf, _ => false
  | NegInf, _ => true
  | _, PosInf => true
  | Num x, Num y => negb (Qle_bool y x)
  end.

(** [a >= b] and [a > b] *)
Definition num_ge (a b : JsNumber) : bool := num_le b a.
Definition num_gt (a b : JsNumber) : bool := num_lt b a.

(** Substring, in the words of the specification. *)
Definition contains (s q : string) : Prop :=
  ∃ pre post, s = pre +:+ q +:+ post.

(** Case-insensitive substring, for the letters of ASCII: some substring of
    [s] equals [q] up to the case of its letters A-Z. *)
Definition ciContains (s q : string) : Prop :=
  ∃ pre w post, s = pre +:+ w +:+ post ∧ asciiLower w = asciiLower q.

End Js.

(** ** Client-side data (the table component's [interface GeofenceLocation]) *)

(** Instants ([created_at], [updated_at]): the point in time, as the
    database orders it. *)
Definition Timestamp := Z.

(** The joined [employees(name, employee_id)] object of an assignment. *)
Record EmployeeRef := {
  ref_name : string;
  ref_employee_id : string;
}.

(** [interface GeofenceLocation], with the [employee_details] property that
    [fetchLocations] adds next to the optional [assigned_employees]. *)
Record GeofenceLocation := {
  loc_id : string;
  loc_name : string;
  loc_address : string;
  loc_latitude : Js.JsNumber;
  loc_longitude : Js.JsNumber;
  loc_radius : Js.JsNumber;
  loc_created_at : Timestamp;
  loc_updated_at : Timestamp;
  assigned_employees : option (list string);
  employee_details : option (list (option EmployeeRef));
}.

(** A location row as the examples below use it: [name], [address] and
    fixed coordinates (latitude -6.2, longitude 106.8, radius 100). *)
Definition sample (name address : string) : GeofenceLocation :=
  {| loc_id := name; loc_name := name; loc_address := address;
     loc_latitude := Js.Num (-31 # 5); loc_longitude := Js.Num (534 # 5);
     loc_radius := Js.Num 100; loc_created_at := 0%Z; loc_updated_at := 0%Z;
     assigned_employees := None; employee_details := None |}.

(** ** Map view with search (component [GeofenceMapView]) *)

Module GeofenceMapView.

Section Search.

(** [String.prototype.toLowerCase] *)
Variable toLowerCase : string → string.

(** The effect "Filter locations based on search query": the value it
    stores in [filteredLocations] for a given [searchQuery] and
    [locations]. *)
Definition filteredLocations (searchQuery : string)
    (locations : list GeofenceLocation) : list GeofenceLocation :=
  if negb (Js.truthy (Js.trim searchQuery)) then locations
  else
    let query := Js.trim (toLowerCase searchQuery) in
    List.filter (fun location =>
      let nameMatch :=
        if Js.truthy (loc_name location)
        then Js.includes (toLowerCase (loc_name location)) query
        else false in
      let addressMatch :=
        if Js.truthy (loc_address location)
        then Js.includes (toLowerCase (loc_address location)) query
        else false in
      nameMatch || addressMatch) locations.

(** A text field of a location matches a query: the field is not empty
    and, in lower case, contains the query, in lower case and without the
    white space around it. *)
Definition fieldMatches (searchQuery field : string) : Prop :=
  field ≠ "" ∧
  Js.contains (toLowerCase field) (Js.trim (toLowerCase searchQuery)).

(** A location matches a query by its name or by its address. *)
Definition matches (searchQuery : string) (location : GeofenceLocation) : Prop :=
  fieldMatches searchQuery (loc_name location) ∨
  fieldMatches searchQuery (loc_address location).

End Search.

(** [panToFirstFilteredLocation]: the location the map pans to (and
    selects) when Enter is pressed in the search bar. *)
Definition panToFirstFilteredLocation
    (filtered : list GeofenceLocation) : option GeofenceLocation :=
  head filtered.

End GeofenceMapView.

(** ** The table of locations (component [GeofenceLocationTable], as the
       locations page uses it) *)

Module GeofenceLocationTable.

(** The cell "Assigned Employees" of a row: a count, or the word None. *)
Inductive AssignedCell : Type :=
| EmployeesCount (n : nat)        (* "n employees" *)
| NoneCell.                       (* "None" *)

(** An array is truthy, also the empty one. *)
Definition assignedCell (location : GeofenceLocation) : AssignedCell :=
  match assigned_employees location with
  | Some ids => EmployeesCount (length ids)
  | None => NoneCell
  end.

(** What the component renders: one of two messages, or the rows; of a
    row, the name, the address and the cell of the assigned employees. *)
Inductive Table : Type :=
| LoadingLocations                (* "Loading locations..." *)
| NoLocationsFound                (* "No geofence locations found" *)
| Rows (rows : list (string * string * AssignedCell)).

Definition render (locations : list GeofenceLocation) (isLoading : bool) : Table :=
  if isLoading then LoadingLocations
  else match locations with
       | [] => NoLocationsFound
       | _ :: _ =>
           Rows (map (λ location,
                   (loc_name location, loc_address location, assignedCell location))
                   locations)
       end.

End GeofenceLocationTable.

(** ** Routing and the authentication guard ([App.tsx]) *)

Module App.

(** The authenticated user of the identity layer. *)
Record User := {
  user_id : string;
  user_email : string;
}.

(** What [useAuth()] hands to [ProtectedRoute].  The context provider is not
    part of the inspected sources, so both fields are arbitrary. *)
Record AuthContext := {
  user : option User;
  isLoading : bool;
}.

Inductive Page : Type :=
| LoginPage | RegisterForm | Home | EmployeesPage | ShiftsPage | LeavesPage
| ReportsPage | SettingsPage | FreelancePage | LocationsPage.

(** The element a route renders. *)
Inductive Element : Type :=
| Render (p : Page)
| Navigate (to : string)          (* <Navigate to=... replace /> *)
| LoadingAuthentication           (* <p>Loading authentication...</p> *)
| NoElement.                      (* a <Route> without element *)

Definition ProtectedRoute (auth : AuthContext) (children : Element) : Element :=
  if isLoading auth then LoadingAuthentication
  else match user auth with
       | None => Navigate "/login"
       | Some _ => children
       end.

(** The [path] attribute of a [<Route>]; the router turns it into a regular
    expression with the flag [i]:
    - [Root], the path "/": one or more slashes;
    - [Static seg], the path "/seg": "/seg", then any number of slashes;
    - [Under seg], the path "/seg" followed by a splat: "/seg", then either
      a slash and one or more characters matched by the dot, or any number of
      slashes;
    - [Splat], the path made of a star: a slash, then any number of
      characters matched by the dot. *)
Inductive PathPattern : Type :=
| Root
| Static (seg : string)
| Under (seg : string)
| Splat.

Fixpoint trimTrailingSlashes (s : string) : string :=
  match s with
  | EmptyString => EmptyString
  | String c s' =>
      match trimTrailingSlashes s' with
      | EmptyString => if Ascii.eqb c "/" then EmptyString else String c EmptyString
      | t => String c t
      end
  end.

Fixpoint stripPrefix (p s : string) {struct p} : option string :=
  match p, s with
  | EmptyString, _ => Some s
  | String a p', String b s' => if Ascii.eqb a b then stripPrefix p' s' else None
  | String _ _, EmptyString => None
  end.

(** [v.replace(/\//g, "%2F")] *)
Fixpoint replaceSlashes (v : string) : string :=
  match v with
  | EmptyString => EmptyString
  | String c v' =>
      if Ascii.eqb c "/" then "%2F" +:+ replaceSlashes v'
      else String c (replaceSlashes v')
  end.

Fixpoint decodeSegments (segments : list string) : option (list string) :=
  match segments with
  | [] => Some []
  | v :: vs =>
      match Js.decodeURIComponent v, decodeSegments vs with
      | Some d, Some ds => Some (replaceSlashes d :: ds)
      | _, _ => None
      end
  end.

(** The router matches the decoded pathname: [decodePath] decodes it
    segment by segment and escapes again a slash that came out of an escape;
    a pathname with a segment that cannot be decoded is matched as it is.
    (The releases of the router that decode the whole pathname with
    [decodeURI] keep some more characters escaped, none of which occurs in
    the patterns below.) *)
Definition decodePath (value : string) : string :=
  match decodeSegments (Js.split "/" value) with
  | Some segments => Js.join "/" segments
  | None => value
  end.

(** The test of a pattern on [location.pathname || "/"]. *)
Definition matchPath (pattern : PathPattern) (pathname : string) : bool :=
  let decoded := decodePath (if Js.truthy pathname then pathname else "/") in
  let lower := Js.asciiLower decoded in
  match pattern with
  | Root =>
      String.eqb (trimTrailingSlashes lower) "" && Js.startsWith decoded "/"
  | Static seg =>
      String.eqb (trimTrailingSlashes lower) (Js.asciiLower ("/" +:+ seg))
  | Under seg =>
      match stripPrefix (Js.asciiLower ("/" +:+ seg)) lower with
      | Some rest =>
          String.eqb (trimTrailingSlashes rest) ""
          || match rest with
             | String "/" (String c rest') =>
                 Js.noLineTerminator (String c rest')
             | _ => false
             end
      | None => false
      end
  | Splat =>
      match decoded with
      | String "/" rest => Js.noLineTerminator rest
      | _ => false
      end
  end.

(** The children of [<Routes>], in the order of the source.  [tempo] is
    [import.meta.env.VITE_TEMPO === "true"]. *)
Definition routes (tempo : bool) (auth : AuthContext)
  : list (PathPattern * Element) :=
  [ (Static "login", Render LoginPage);
    (Static "register", Render RegisterForm);
    (Root, ProtectedRoute auth (Render Home));
    (Static "employees", ProtectedRoute auth (Render EmployeesPage));
    (Static "shifts", ProtectedRoute auth (Render ShiftsPage));
    (Static "leaves", ProtectedRoute auth (Render LeavesPage));
    (Static "reports", ProtectedRoute auth (Render ReportsPage));
    (Static "settings", ProtectedRoute auth (Render SettingsPage));
    (Static "freelance", ProtectedRoute auth (Render FreelancePage));
    (Static "locations", ProtectedRoute auth (Render LocationsPage)) ]
  ++ (if tempo then [(Under "tempobook", NoElement)] else [])
  ++ [ (Splat, Navigate "/") ].

(** [<Routes>] renders the element of the matching route; React Router
    ranks literal segments above a splat, which for this table is the order
    of declaration.  Nothing is rendered when no route matches, which is the
    case of a pathname with a line terminator after decoding.  With the
    Tempo flag set the component also renders [useRoutes(routes)], the
    routes of the Tempo tool, next to [<Routes>]; they come from outside the
    sources and are left out. *)
Definition AppRoutes (tempo : bool) (auth : AuthContext) (pathname : string)
  : Element :=
  match List.find (fun r => matchPath (fst r) pathname) (routes tempo auth) with
  | Some r => snd r
  | None => NoElement
  end.

(** The pages behind the guard, with the path of each. *)
Definition protectedPages : list (PathPattern * Page) :=
  [ (Root, Home); (Static "employees", EmployeesPage);
    (Static "shifts", ShiftsPage); (Static "leaves", LeavesPage);
    (Static "reports", ReportsPage); (Static "settings", SettingsPage);
    (Static "freelance", FreelancePage); (Static "locations", LocationsPage) ].

(** The paths a route is declared for; with the Tempo flag set, also
    everything under [/tempobook]. *)
Definition declared (tempo : bool) (pathname : string) : bool :=
  existsb (fun p => matchPath p pathname)
    ([Static "login"; Static "register"] ++ map fst protectedPages
     ++ (if tempo then [Under "tempobook"] else [])).

(** [<Navigate to=... replace />] replaces the location and the routes
    are matched again: the element on the screen after at most [n]
    redirects. *)
Fixpoint follow (n : nat) (tempo : bool) (auth : AuthContext)
    (pathname : string) : Element :=
  match AppRoutes tempo auth pathname, n with
  | Navigate to, S n' => follow n' tempo auth to
  | e, _ => e
  end.

End App.

(** ** The hosted backend, as the client library presents it

    Tables and constraints follow the SQL migrations
    ([employee_location_assignments]: [UNIQUE(employee_id, location_id)] and
    both foreign keys [ON DELETE CASCADE]).  Every call of the client
    library resolves to a [{ data, error }] object; errors that the model
    does not derive from a constraint (transport, policy, column types) are
    decided by the environment. *)

Module Supabase.

Record Error := { message : string }.

(** [{ data, error }] *)
Record Response (A : Type) := {
  data : option A;
  error : option Error;
}.
Arguments data {A} _.
Arguments error {A} _.

Definition ok {A} (a : A) : Response A := {| data := Some a; error := None |}.
Definition failed {A} (e : Error) : Response A := {| data := None; error := Some e |}.

(** *** Rows *)

(** [employees]: the columns the client reads. *)
Record EmployeeRow := {
  emp_id : string;
  emp_name : string;
  emp_employee_id : string;
}.

(** [geofence_locations] *)
Record LocationRow := {
  row_id : string;
  row_name : string;
  row_address : string;
  row_latitude : Js.JsNumber;
  row_longitude : Js.JsNumber;
  row_radius : Js.JsNumber;
  row_created_at : Timestamp;
  row_updated_at : Timestamp;
}.

(** [employee_location_assignments] *)
Record AssignmentRow := {
  asg_id : string;
  asg_employee_id : string;
  asg_location_id : string;
  asg_created_at : Timestamp;
}.

(** [profiles] *)
Record ProfileRow := {
  prof_id : string;
  first_name : string;
  last_name : string;
  alias : option string;
  fuel_name : option string;
  place_of_birth : string;
  date_of_birth : string;
  religion : string;
  address : string;
  phone_number : string;
  relative_phone_number : string;
  selfie_url : option string;
  ktp_url : option string;
  kk_url : option string;
  cv_url : option string;
  prof_created_at : Timestamp;
  prof_updated_at : Timestamp;
}.

(** A [File] of the browser. *)
Record File := {
  file_name : string;
  file_type : string;
  file_content : string;
}.

Record Db := {
  employees : list EmployeeRow;
  geofence_locations : list LocationRow;
  employee_location_assignments : list AssignmentRow;
  profiles : gmap string ProfileRow;
  uuid_count : nat;
}.

(** The payload of an insert or update on [geofence_locations]:
    [...locationData], [updated_at] and, on insert, [created_at]. *)
Record LocationData := {
  pl_name : string;
  pl_address : string;
  pl_latitude : Js.JsNumber;
  pl_longitude : Js.JsNumber;
  pl_radius : Js.JsNumber;
  pl_updated_at : Timestamp;
  pl_created_at : option Timestamp;
}.

(** [options.data] of [auth.signUp]. *)
Record AuthMetadata := {
  am_firstName : string;
  am_lastName : string;
  am_alias : option string;
  am_placeOfBirth : string;
  am_dateOfBirth : string;
  am_religion : string;
  am_address : string;
  am_phoneNumber : string;
  am_relativePhoneNumber : string;
  am_fuel_name : option string;
  am_full_name : string;
}.

(** [data] of the response of [auth.signUp]. *)
Record AuthData := {
  auth_user : option App.User;
  auth_session : option string;
}.

(** The calls the client issues. *)
Inductive Request : Type :=
| SelectLocations
| SelectAssignmentsOfLocation (location_id : string)
| SelectAssignmentsOfEmployee (employee_id : string)
| DeleteLocation (id : string)
| UpdateLocation (id : string) (payload : LocationData)
| InsertLocation (payload : LocationData)
| DeleteAssignmentsOfLocation (location_id : string)
| DeleteAssignmentsOfEmployee (employee_id : string)
| InsertAssignments (rows : list (string * string))
| AuthSignUp (email password : string) (metadata : option AuthMetadata)
| StorageUpload (path : string) (file : File)
| UpsertProfile (row : ProfileRow).

(** What the handlers take from their surroundings. *)
Record Env := {
  backend_error : Request → option Error;
  auth_response : string → string → option AuthMetadata → Response AuthData;
  confirm : string → bool;              (* window.confirm *)
  now : Timestamp;                      (* new Date() *)
  db_now : Timestamp;                   (* NOW() *)
  uuid_generate_v4 : nat → string;
  supabaseUrl : string;
}.

(** *** Statements *)

Definition pair_of (a : AssignmentRow) : string * string :=
  (asg_employee_id a, asg_location_id a).

Definition assignment_pairs (d : Db) : list (string * string) :=
  map pair_of (employee_location_assignments d).

Definition set_locations (rows : list LocationRow) (d : Db) : Db :=
  {| employees := employees d; geofence_locations := rows;
     employee_location_assignments := employee_location_assignments d;
     profiles := profiles d; uuid_count := uuid_count d |}.

Definition set_assignments (rows : list AssignmentRow) (d : Db) : Db :=
  {| employees := employees d; geofence_locations := geofence_locations d;
     employee_location_assignments := rows;
     profiles := profiles d; uuid_count := uuid_count d |}.

Definition set_profiles (p : gmap string ProfileRow) (d : Db) : Db :=
  {| employees := employees d; geofence_locations := geofence_locations d;
     employee_location_assignments := employee_location_assignments d;
     profiles := p; uuid_count := uuid_count d |}.

Definition set_uuid_count (n : nat) (d : Db) : Db :=
  {| employees := employees d; geofence_locations := geofence_locations d;
     employee_location_assignments := employee_location_assignments d;
     profiles := profiles d; uuid_count := n |}.

(** [ORDER BY created_at DESC]: [a] may precede [b]. *)
Definition newer_first (a b : LocationRow) : Prop :=
  (row_created_at b ≤ row_created_at a)%Z.

Global Instance newer_first_dec : RelDecision newer_first :=
  λ a b, decide (row_created_at b ≤ row_created_at a)%Z.

(** [select("*").order("created_at", { ascending: false })] *)
Definition select_locations (d : Db) : list LocationRow :=
  merge_sort newer_first (geofence_locations d).

(** One row of
    [select("employee_id, employees(name, employee_id)")]. *)
Record AssignmentJoin := {
  j_employee_id : string;
  j_employees : option EmployeeRef;
}.

Definition find_employee (d : Db) (id : string) : option EmployeeRef :=
  match List.find (fun e => String.eqb (emp_id e) id) (employees d) with
  | Some e => Some {| ref_name := emp_name e; ref_employee_id := emp_employee_id e |}
  | None => None
  end.

(** [... .eq("location_id", id)].  The query asks for no order; the rows
    are given in the order of the table, and the theorems on what the
    components show of the answer are stated up to that order. *)
Definition select_assignments_of_location (id : string) (d : Db)
  : list AssignmentJoin :=
  map (fun a => {| j_employee_id := asg_employee_id a;
                   j_employees := find_employee d (asg_employee_id a) |})
      (List.filter (fun a => String.eqb (asg_location_id a) id)
         (employee_location_assignments d)).

(** [select("location_id").eq("employee_id", id)], in the order of the
    table as well. *)
Definition select_assignments_of_employee (id : string) (d : Db)
  : list string :=
  map asg_location_id
      (List.filter (fun a => String.eqb (asg_employee_id a) id)
         (employee_location_assignments d)).

(** [delete().eq("location_id", id)] *)
Definition delete_assignments_of_location (id : string) (d : Db) : Db :=
  set_assignments
    (List.filter (fun a => negb (String.eqb (asg_location_id a) id))
       (employee_location_assignments d)) d.

(** [delete().eq("employee_id", id)] *)
Definition delete_assignments_of_employee (id : string) (d : Db) : Db :=
  set_assignments
    (List.filter (fun a => negb (String.eqb (asg_employee_id a) id))
       (employee_location_assignments d)) d.

(** [delete().eq("id", id)] on [geofence_locations]; the assignment rows
    that reference a deleted row go with it ([ON DELETE CASCADE]). *)
Definition delete_location (id : string) (d : Db) : Db :=
  let deleted :=
    List.filter (fun r => String.eqb (row_id r) id) (geofence_locations d) in
  let kept :=
    List.filter (fun r => negb (String.eqb (row_id r) id)) (geofence_locations d) in
  let cascade (a : AssignmentRow) :=
    existsb (fun r => String.eqb (row_id r) (asg_location_id a)) deleted in
  set_assignments
    (List.filter (fun a => negb (cascade a)) (employee_location_assignments d))
    (set_locations kept d).

Definition apply_update (p : LocationData) (r : LocationRow) : LocationRow :=
  {| row_id := row_id r; row_name := pl_name p; row_address := pl_address p;
     row_latitude := pl_latitude p; row_longitude := pl_longitude p;
     row_radius := pl_radius p;
     row_created_at := default (row_created_at r) (pl_created_at p);
     row_updated_at := pl_updated_at p |}.

(** [update(payload).eq("id", id).select()]: the updated rows. *)
Definition update_location (id : string) (p : LocationData) (d : Db)
  : list LocationRow * Db :=
  let rows :=
    map (fun r => if String.eqb (row_id r) id then apply_update p r else r)
        (geofence_locations d) in
  (List.filter (fun r => String.eqb (row_id r) id) rows, set_locations rows d).

(** [insert(payload).select().single()]: the id comes from the column
    default [uuid_generate_v4()], a missing [created_at] from [NOW()]. *)
Definition insert_location (env : Env) (p : LocationData) (d : Db)
  : LocationRow * Db :=
  let r := {| row_id := uuid_generate_v4 env (uuid_count d);
              row_name := pl_name p; row_address := pl_address p;
              row_latitude := pl_latitude p; row_longitude := pl_longitude p;
              row_radius := pl_radius p;
              row_created_at := default (db_now env) (pl_created_at p);
              row_updated_at := pl_updated_at p |} in
  (r, set_uuid_count (S (uuid_count d))
        (set_locations (geofence_locations d ++ [r]) d)).

Definition employee_exists (d : Db) (id : string) : bool :=
  existsb (fun e => String.eqb (emp_id e) id) (employees d).

Definition location_exists (d : Db) (id : string) : bool :=
  existsb (fun r => String.eqb (row_id r) id) (geofence_locations d).

(** The checks of a bulk insert into [employee_location_assignments]:
    both foreign keys, and the unique pair over old and new rows. *)
Definition insert_allowed (rows : list (string * string)) (d : Db) : bool :=
  forallb (fun r => employee_exists d (fst r) && location_exists d (snd r)) rows
  && bool_decide (NoDup (assignment_pairs d ++ rows)).

Fixpoint new_assignments (env : Env) (n : nat) (rows : list (string * string))
  : list AssignmentRow :=
  match rows with
  | [] => []
  | r :: rows' =>
      {| asg_id := uuid_generate_v4 env n; asg_employee_id := fst r;
         asg_location_id := snd r; asg_created_at := db_now env |}
      :: new_assignments env (S n) rows'
  end.

(** [insert(rows)]: one statement, all rows or none. *)
Definition insert_assignments (env : Env) (rows : list (string * string)) (d : Db)
  : option Error * Db :=
  if insert_allowed rows d then
    (None,
     set_uuid_count (uuid_count d + length rows)
       (set_assignments
          (employee_location_assignments d
           ++ new_assignments env (uuid_count d) rows) d))
  else
    (Some {| message := "insert or update on table violates a constraint" |}, d).

(** [upsert(row)] on [profiles], keyed by the primary key [id]. *)
Definition upsert_profile (row : ProfileRow) (d : Db) : Db :=
  set_profiles (<[prof_id row := row]> (profiles d)) d.

(** *** Integrity constraints of the assignment table *)

Definition unique_pairs (d : Db) : Prop := NoDup (assignment_pairs d).

Definition references_locations (d : Db) : Prop :=
  ∀ a, a ∈ employee_location_assignments d →
       location_exists d (asg_location_id a) = true.

Definition references_employees (d : Db) : Prop :=
  ∀ a, a ∈ employee_location_assignments d →
       employee_exists d (asg_employee_id a) = true.

End Supabase.

(** ** Effects of the handlers

    A handler runs against the backend, the console and the toasts; it may
    throw.  [M A] is the state-and-exception monad of such computations. *)

Module Client.
Import Supabase.

Inductive Level : Type := LogLevel | ErrorLevel.

Record ConsoleEntry := { level : Level; text : string }.

(** [toast({ title, description, variant })] *)
Record Toast := {
  title : string;
  description : string;
  variant : option string;
}.

Record World := {
  db : Db;
  storage : gmap string File;            (* bucket "user-documents" *)
  requests : list Request;               (* the calls issued so far *)
  console : list ConsoleEntry;
  toasts : list Toast;
  callbacks : list string;               (* props called by a component *)
}.

Inductive Outcome (A : Type) : Type :=
| Returned (a : A)
| Thrown (e : Error).
Arguments Returned {A} _.
Arguments Thrown {A} _.

Definition M (A : Type) : Type := World → Outcome A * World.

Global Instance M_ret : MRet M := λ A a w, (Returned a, w).

Global Instance M_bind : MBind M := λ A B f m w,
  match m w with
  | (Returned a, w') => f a w'
  | (Thrown e, w') => (Thrown e, w')
  end.

Definition throw {A} (e : Error) : M A := λ w, (Thrown e, w).

(** [try { body } catch (error) { handler }] *)
Definition try_catch {A} (body : M A) (handler : Error → M A) : M A := λ w,
  match body w with
  | (Returned a, w') => (Returned a, w')
  | (Thrown e, w') => handler e w'
  end.

Definition modify (f : World → World) : M unit := λ w, (Returned tt, f w).

Definition set_db (d : Db) (w : World) : World :=
  {| db := d; storage := storage w; requests := requests w;
     console := console w; toasts := toasts w; callbacks := callbacks w |}.

Definition set_storage (s : gmap string File) (w : World) : World :=
  {| db := db w; storage := s; requests := requests w;
     console := console w; toasts := toasts w; callbacks := callbacks w |}.

Definition add_request (r : Request) (w : World) : World :=
  {| db := db w; storage := storage w; requests := requests w ++ [r];
     console := console w; toasts := toasts w; callbacks := callbacks w |}.

Definition add_console (e : ConsoleEntry) (w : World) : World :=
  {| db := db w; storage := storage w; requests := requests w;
     console := console w ++ [e]; toasts := toasts w; callbacks := callbacks w |}.

Definition add_toast (t : Toast) (w : World) : World :=
  {| db := db w; storage := storage w; requests := requests w;
     console := console w; toasts := toasts w ++ [t]; callbacks := callbacks w |}.

Definition add_callback (c : string) (w : World) : World :=
  {| db := db w; storage := storage w; requests := requests w;
     console := console w; toasts := toasts w; callbacks := callbacks w ++ [c] |}.

Definition console_log (s : string) : M unit :=
  modify (add_console {| level := LogLevel; text := s |}).

Definition console_error (s : string) : M unit :=
  modify (add_console {| level := ErrorLevel; text := s |}).

Definition toast (t : Toast) : M unit := modify (add_toast t).

Definition callback (c : string) : M unit := modify (add_callback c).

(** A query on the database: the request is recorded; the environment may
    answer with an error, otherwise the statement runs. *)
Definition query {A} (env : Env) (r : Request) (run : Db → Response A * Db)
  : M (Response A) := λ w,
  let w := add_request r w in
  match backend_error env r with
  | Some e => (Returned (failed e), w)
  | None => let '(resp, d) := run (db w) in (Returned resp, set_db d w)
  end.

(** [supabase.auth.signUp]: the identity layer answers as the environment
    says. *)
Definition auth_signUp (env : Env) (email password : string)
    (metadata : option AuthMetadata) : M (Response AuthData) := λ w,
  (Returned (auth_response env email password metadata),
   add_request (AuthSignUp email password metadata) w).

(** [storage.from("user-documents").upload(path, file, { upsert: true })] *)
Definition storage_upload (env : Env) (path : string) (file : File)
  : M (Response string) := λ w,
  let w := add_request (StorageUpload path file) w in
  match backend_error env (StorageUpload path file) with
  | Some e => (Returned (failed e), w)
  | None => (Returned (ok path), set_storage (<[path := file]> (storage w)) w)
  end.

(** [storage.from("user-documents").getPublicUrl(path).data.publicUrl]: the
    client library returns the address passed through [encodeURI]. *)
Definition getPublicUrl (env : Env) (path : string) : string :=
  Js.encodeURI
    (supabaseUrl env +:+ "/storage/v1/object/public/user-documents/" +:+ path).

(** The queries of the sources. *)

Definition from_geofence_locations_select (env : Env)
  : M (Response (list LocationRow)) :=
  query env SelectLocations (λ d, (ok (select_locations d), d)).

Definition from_assignments_select_eq_location (env : Env) (id : string)
  : M (Response (list AssignmentJoin)) :=
  query env (SelectAssignmentsOfLocation id)
    (λ d, (ok (select_assignments_of_location id d), d)).

Definition from_assignments_select_eq_employee (env : Env) (id : string)
  : M (Response (list string)) :=
  query env (SelectAssignmentsOfEmployee id)
    (λ d, (ok (select_assignments_of_employee id d), d)).

Definition from_geofence_locations_delete (env : Env) (id : string)
  : M (Response unit) :=
  query env (DeleteLocation id) (λ d, (ok tt, delete_location id d)).

Definition from_geofence_locations_update (env : Env) (id : string)
    (p : LocationData) : M (Response (list LocationRow)) :=
  query env (UpdateLocation id p)
    (λ d, let '(rows, d') := update_location id p d in (ok rows, d')).

Definition from_geofence_locations_insert (env : Env) (p : LocationData)
  : M (Response LocationRow) :=
  query env (InsertLocation p)
    (λ d, let '(row, d') := insert_location env p d in (ok row, d')).

Definition from_assignments_delete_eq_location (env : Env) (id : string)
  : M (Response unit) :=
  query env (DeleteAssignmentsOfLocation id)
    (λ d, (ok tt, delete_assignments_of_location id d)).

Definition from_assignments_delete_eq_employee (env : Env) (id : string)
  : M (Response unit) :=
  query env (DeleteAssignmentsOfEmployee id)
    (λ d, (ok tt, delete_assignments_of_employee id d)).

Definition from_assignments_insert (env : Env) (rows : list (string * string))
  : M (Response unit) :=
  query env (InsertAssignments rows)
    (λ d, match insert_assignments env rows d with
          | (None, d') => (ok tt, d')
          | (Some e, d') => (failed e, d')
          end).

Definition from_profiles_upsert (env : Env) (row : ProfileRow)
  : M (Response unit) :=
  query env (UpsertProfile row) (λ d, (ok tt, upsert_profile row d)).

(** [if (error) throw error] *)
Definition throw_if_error {A} (r : Response A) : M unit :=
  match error r with
  | Some e => throw e
  | None => mret tt
  end.

(** [await Promise.all(xs.map(f))], the calls taken in the order of the
    array. *)
Fixpoint promise_all_map {A B} (f : A → M B) (xs : list A) : M (list B) :=
  match xs with
  | [] => mret []
  | x :: xs' => y ← f x; ys ← promise_all_map f xs'; mret (y :: ys)
  end.

(** A computation leaves the component [f] of the world as it found it. *)
Definition preserves {X A} (f : World → X) (m : M A) : Prop :=
  ∀ w, f (m w).2 = f w.

(** The computation returns (it does not throw) and its result and final
    world satisfy [P]. *)
Definition returns {A} (m : M A) (w : World) (P : A → World → Prop) : Prop :=
  ∃ a w', m w = (Returned a, w') ∧ P a w'.

(** The computation throws, and the error and final world satisfy [Q]. *)
Definition throws {A} (m : M A) (w : World) (Q : Error → World → Prop) : Prop :=
  ∃ e w', m w = (Thrown e, w') ∧ Q e w'.

(** A computation changes the database only along the relation [R]. *)
Definition maintains {A} (R : Db → Db → Prop) (m : M A) : Prop :=
  ∀ w, R (db w) (db (m w).2).

(** The environment reports no error of its own. *)
Definition fault_free (env : Env) : Prop :=
  ∀ r, backend_error env r = None.

End Client.

(** ** The locations page ([pages/LocationsPage.tsx]) *)

Module LocationsPage.
Import Supabase Client.

(** The [useState] cells of the component. *)
Record State := {
  locations : list GeofenceLocation;
  isLoading : bool;
  selectedLocation : option GeofenceLocation;
  isDialogOpen : bool;
  activeTab : string;
  searchQuery : string;
}.

Definition setLocations (l : list GeofenceLocation) (st : State) : State :=
  {| locations := l; isLoading := isLoading st;
     selectedLocation := selectedLocation st; isDialogOpen := isDialogOpen st;
     activeTab := activeTab st; searchQuery := searchQuery st |}.

Definition setIsLoading (b : bool) (st : State) : State :=
  {| locations := locations st; isLoading := b;
     selectedLocation := selectedLocation st; isDialogOpen := isDialogOpen st;
     activeTab := activeTab st; searchQuery := searchQuery st |}.

Definition setSelectedLocation (l : option GeofenceLocation) (st : State) : State :=
  {| locations := locations st; isLoading := isLoading st;
     selectedLocation := l; isDialogOpen := isDialogOpen st;
     activeTab := activeTab st; searchQuery := searchQuery st |}.

Definition setIsDialogOpen (b : bool) (st : State) : State :=
  {| locations := locations st; isLoading := isLoading st;
     selectedLocation := selectedLocation st; isDialogOpen := b;
     activeTab := activeTab st; searchQuery := searchQuery st |}.

(** A row of [select("*")] as a client object: the two optional properties
    are absent. *)
Definition of_row (r : LocationRow) : GeofenceLocation :=
  {| loc_id := row_id r; loc_name := row_name r; loc_address := row_address r;
     loc_latitude := row_latitude r; loc_longitude := row_longitude r;
     loc_radius := row_radius r; loc_created_at := row_created_at r;
     loc_updated_at := row_updated_at r;
     assigned_employees := None; employee_details := None |}.

(** [{ ...location, assigned_employees: ..., employee_details: ... }] *)
Definition with_assignments (location : GeofenceLocation)
    (assignmentsData : list AssignmentJoin) : GeofenceLocation :=
  {| loc_id := loc_id location; loc_name := loc_name location;
     loc_address := loc_address location;
     loc_latitude := loc_latitude location;
     loc_longitude := loc_longitude location;
     loc_radius := loc_radius location;
     loc_created_at := loc_created_at location;
     loc_updated_at := loc_updated_at location;
     assigned_employees := Some (map j_employee_id assignmentsData);
     employee_details := Some (map j_employees assignmentsData) |}.

Definition load_failed_toast : Toast :=
  {| title := "Error"; description := "Failed to load geofence locations";
     variant := Some "destructive" |}.

(** The callback given to [map] inside [fetchLocations]. *)
Definition attach_employees (env : Env) (location : GeofenceLocation)
  : M GeofenceLocation :=
  r ← from_assignments_select_eq_location env (loc_id location);
  match error r with
  | Some _ =>
      console_error "Error fetching assignments:";;
      mret location
  | None =>
      match data r with
      | Some assignmentsData => mret (with_assignments location assignmentsData)
      | None => throw {| message := "Cannot read properties of null (reading 'map')" |}
      end
  end.

Definition fetchLocations (env : Env) (st : State) : M State :=
  let st := setIsLoading true st in
  st ← try_catch
         (r ← from_geofence_locations_select env;
          throw_if_error r;;
          locationsWithEmployees ←
            promise_all_map (attach_employees env)
              (map of_row (default [] (data r)));
          mret (setLocations locationsWithEmployees st))
         (λ error,
            console_error ("Error fetching locations: " +:+ message error);;
            toast load_failed_toast;;
            mret st);
  mret (setIsLoading false st).

(** [handleEditLocation] and [handleAddLocation] *)
Definition handleEditLocation (location : GeofenceLocation) (st : State) : State :=
  setIsDialogOpen true (setSelectedLocation (Some location) st).

Definition handleAddLocation (st : State) : State :=
  setIsDialogOpen true (setSelectedLocation None st).

Definition handleDeleteLocation (env : Env) (st : State) (locationId : string)
  : M State :=
  if negb (confirm env "Are you sure you want to delete this location?")
  then mret st
  else
    try_catch
      (r ← from_geofence_locations_delete env locationId;
       throw_if_error r;;
       toast {| title := "Success";
                description := "Location deleted successfully";
                variant := None |};;
       fetchLocations env st)
      (λ error,
         console_error ("Error deleting location: " +:+ message error);;
         toast {| title := "Error"; description := "Failed to delete location";
                  variant := Some "destructive" |};;
         mret st).

(** The object the dialog submits. *)
Record FormData := {
  fd_name : string;
  fd_address : string;
  fd_latitude : Js.JsNumber;
  fd_longitude : Js.JsNumber;
  fd_radius : Js.JsNumber;
  fd_assignedEmployees : option (list string);
}.

(** [a || b] on strings *)
Definition or_else (a b : string) : string := if Js.truthy a then a else b.

(** [assignedEmployees && assignedEmployees.length > 0] *)
Definition has_selection (assignedEmployees : option (list string)) : bool :=
  match assignedEmployees with
  | Some (_ :: _) => true
  | _ => false
  end.

(** [assignedEmployees.map((employeeId) => ({ employee_id: employeeId,
    location_id }))] *)
Definition assignments_for (location_id : string)
    (assignedEmployees : option (list string)) : list (string * string) :=
  map (λ employeeId, (employeeId, location_id)) (default [] assignedEmployees).

(** [{ ...locationData, updated_at: new Date().toISOString() }], with the
    address and, on insert, [created_at] set later in the handler. *)
Definition dataWithTimestamp (env : Env) (formData : FormData)
    (address : string) (created : option Timestamp) : LocationData :=
  {| pl_name := fd_name formData; pl_address := address;
     pl_latitude := fd_latitude formData;
     pl_longitude := fd_longitude formData;
     pl_radius := fd_radius formData;
     pl_updated_at := now env; pl_created_at := created |}.

(** The payload of the update branch. *)
Definition updateData (env : Env) (selected : GeofenceLocation)
    (formData : FormData) : LocationData :=
  dataWithTimestamp env formData
    (or_else (fd_address formData) (or_else (loc_address selected) "")) None.

Definition updated_toast : Toast :=
  {| title := "Success"; description := "Location updated successfully";
     variant := None |}.

Definition handleSubmitLocation (env : Env) (st : State) (formData : FormData)
  : M State :=
  console_log "Form data received:";;
  try_catch
    (let assignedEmployees := fd_assignedEmployees formData in
     match selectedLocation st with
     | Some selected =>
         console_log "Updating location with ID:";;
         console_log "Update data:";;
         console_log "Final update data with address:";;
         r ← from_geofence_locations_update env (loc_id selected)
               (updateData env selected formData);
         console_log "Update response:";;
         throw_if_error r;;
         r ← from_assignments_delete_eq_location env (loc_id selected);
         throw_if_error r;;
         (if has_selection assignedEmployees then
            r ← from_assignments_insert env
                  (assignments_for (loc_id selected) assignedEmployees);
            throw_if_error r
          else mret tt);;
         toast updated_toast
     | None =>
         r ← from_geofence_locations_insert env
               (dataWithTimestamp env formData (fd_address formData)
                  (Some (now env)));
         throw_if_error r;;
         match data r with
         | Some newLocation =>
             if has_selection assignedEmployees then
               r ← from_assignments_insert env
                     (assignments_for (row_id newLocation) assignedEmployees);
               throw_if_error r
             else mret tt
         | None => mret tt
         end;;
         toast {| title := "Success";
                  description := "Location added successfully";
                  variant := None |}
     end;;
     fetchLocations env (setIsDialogOpen false st))
    (λ error,
       console_error ("Error saving location: " +:+ message error);;
       toast {| title := "Error";
                description := "Failed to save location: " +:+ message error;
                variant := Some "destructive" |};;
       mret st).

(** The entry the list is expected to show for a row: the row with the
    employee ids of its assignment rows attached, or the bare row when the
    fetch of its assignments fails. *)
Definition listed (env : Env) (d : Db) (r : LocationRow) : GeofenceLocation :=
  match backend_error env (SelectAssignmentsOfLocation (row_id r)) with
  | Some _ => of_row r
  | None =>
      with_assignments (of_row r) (select_assignments_of_location (row_id r) d)
  end.

(** The writes of the update branch, in the order the handler issues them:
    the update of the row, the delete of its assignments and, for a
    non-empty selection, the bulk insert. *)
Definition saveRequests (env : Env) (selected : GeofenceLocation)
    (formData : FormData) : list Request :=
  [ UpdateLocation (loc_id selected) (updateData env selected formData);
    DeleteAssignmentsOfLocation (loc_id selected) ]
  ++ (if has_selection (fd_assignedEmployees formData)
      then [InsertAssignments
              (assignments_for (loc_id selected) (fd_assignedEmployees formData))]
      else []).

(** The requests of one listing: the location query, then one assignment
    query per location. *)
Definition fetchRequests (d : Db) : list Request :=
  SelectLocations
  :: map (λ r, SelectAssignmentsOfLocation (row_id r)) (select_locations d).


Definition save_failed_toast (error : Error) : Toast :=
  {| title := "Error";
     description := "Failed to save location: " +:+ message error;
     variant := Some "destructive" |}.

Definition deleted_toast : Toast :=
  {| title := "Success"; description := "Location deleted successfully";
     variant := None |}.

Definition delete_failed_toast : Toast :=
  {| title := "Error"; description := "Failed to delete location";
     variant := Some "destructive" |}.



(** The list the page holds after a listing that the backend answers. *)
Definition listing (env : Env) (d : Db) : list GeofenceLocation :=
  map (listed env d) (select_locations d).

(** The employee ids assigned to a location, read off the table. *)
Definition employees_assigned_to (d : Db) (location_id : string) : list string :=
  map asg_employee_id
    (List.filter (λ a, String.eqb (asg_location_id a) location_id)
       (employee_location_assignments d)).

End LocationsPage.

(** ** The employee-side assignment dialog
       ([components/employee/EmployeeLocationAssignmentDialog.tsx]) *)

Module EmployeeLocationAssignmentDialog.
Import Supabase Client.

(** The props; for the three callbacks, whether the parent passed one. *)
Record Props := {
  employee : option EmployeeRow;
  employeeId : option string;
  employeeName : option string;
  onSuccess : bool;
  onOpenChange : bool;
  onClose : bool;
}.

Record State := {
  locations : list GeofenceLocation;
  selectedLocations : list string;
  isLoading : bool;
}.

Definition setSelectedLocations (l : list string) (st : State) : State :=
  {| locations := locations st; selectedLocations := l; isLoading := isLoading st |}.

Definition setIsLoading (b : bool) (st : State) : State :=
  {| locations := locations st; selectedLocations := selectedLocations st;
     isLoading := b |}.

(** [employee?.id || employeeId]; [None] is [undefined]. *)
Definition empId (p : Props) : option string :=
  match employee p with
  | Some e => if Js.truthy (emp_id e) then Some (emp_id e) else employeeId p
  | None => employeeId p
  end.

(** [prev.includes(locationId)] *)
Definition array_includes (l : list string) (x : string) : bool :=
  existsb (String.eqb x) l.

Definition handleToggleLocation (locationId : string) (st : State) : State :=
  let prev := selectedLocations st in
  setSelectedLocations
    (if array_includes prev locationId
     then List.filter (λ id, negb (String.eqb id locationId)) prev
     else prev ++ [locationId]) st.

(** The effect "Fetch assigned locations for this employee", run when the
    dialog opens. *)
Definition fetchAssignedLocations (env : Env) (p : Props) (st : State) : M State :=
  match empId p with
  | Some id =>
      if Js.truthy id then
        try_catch
          (r ← from_assignments_select_eq_employee env id;
           throw_if_error r;;
           match data r with
           | Some locationIds => mret (setSelectedLocations locationIds st)
           | None => throw {| message := "Cannot read properties of null (reading 'map')" |}
           end)
          (λ error,
             console_error ("Error fetching assigned locations: " +:+ message error);;
             toast {| title := "Error";
                      description := "Failed to load assigned locations";
                      variant := Some "destructive" |};;
             mret st)
      else mret st
  | None => mret st
  end.

Definition assignments_of (empId : string) (selected : list string)
  : list (string * string) :=
  map (λ locationId, (empId, locationId)) selected.

Definition when (b : bool) (m : M unit) : M unit := if b then m else mret tt.

(** [handleSave]; the [finally] clause clears the loading flag on every
    path. *)
Definition handleSave (env : Env) (p : Props) (st : State) : M State :=
  try_catch
    (match empId p with
     | Some id =>
         if Js.truthy id then
           r ← from_assignments_delete_eq_employee env id;
           throw_if_error r;;
           match selectedLocations st with
           | _ :: _ =>
               r ← from_assignments_insert env
                     (assignments_of id (selectedLocations st));
               throw_if_error r
           | [] => mret tt
           end;;
           toast {| title := "Success";
                    description := "Location assignments updated successfully";
                    variant := None |};;
           when (onSuccess p) (callback "onSuccess()");;
           when (onOpenChange p) (callback "onOpenChange(false)");;
           when (onClose p) (callback "onClose()")
         else
           toast {| title := "Error"; description := "Employee ID is missing";
                    variant := Some "destructive" |}
     | None =>
         toast {| title := "Error"; description := "Employee ID is missing";
                  variant := Some "destructive" |}
     end)
    (λ error,
       console_error ("Error saving location assignments: " +:+ message error);;
       toast {| title := "Error";
                description := "Failed to update location assignments";
                variant := Some "destructive" |});;
  mret (setIsLoading false st).

(** The writes of a save, in the order [handleSave] issues them: the
    delete of all rows of the employee and, for a non-empty selection, the
    bulk insert. *)
Definition saveRequests (id : string) (selected : list string) : list Request :=
  DeleteAssignmentsOfEmployee id
  :: match selected with
     | [] => []
     | _ :: _ => [InsertAssignments (assignments_of id selected)]
     end.

(** The toasts of the dialog. *)
Definition saved_toast : Toast :=
  {| title := "Success";
     description := "Location assignments updated successfully";
     variant := None |}.

Definition save_failed_toast : Toast :=
  {| title := "Error";
     description := "Failed to update location assignments";
     variant := Some "destructive" |}.

Definition missing_id_toast : Toast :=
  {| title := "Error"; description := "Employee ID is missing";
     variant := Some "destructive" |}.

Definition load_failed_toast : Toast :=
  {| title := "Error"; description := "Failed to load assigned locations";
     variant := Some "destructive" |}.

(** The callbacks of a successful save, in the order of the calls: those
    the parent passed. *)
Definition callbacksOnSuccess (p : Props) : list string :=
  (if onSuccess p then ["onSuccess()"] else [])
  ++ (if onOpenChange p then ["onOpenChange(false)"] else [])
  ++ (if onClose p then ["onClose()"] else []).

(** The backend accepts the statements of a save: the delete, and for a
    non-empty selection the bulk insert, which the database checks against
    the table as the delete leaves it. *)
Definition saveAccepted (env : Env) (id : string) (selected : list string)
    (d : Db) : bool :=
  match backend_error env (DeleteAssignmentsOfEmployee id) with
  | Some _ => false
  | None =>
      match selected with
      | [] => true
      | _ :: _ =>
          match backend_error env (InsertAssignments (assignments_of id selected)) with
          | Some _ => false
          | None =>
              insert_allowed (assignments_of id selected)
                (delete_assignments_of_employee id d)
          end
      end
  end.

End EmployeeLocationAssignmentDialog.

(** ** The location dialog with its form schema
       (component [GeofenceLocationDialog], as the locations page uses it) *)

Module GeofenceLocationDialog.
Import Supabase Client.

(** The raw value of a numeric field: a number, or a string. *)
Inductive NumberInput : Type :=
| NumberValue (n : Js.JsNumber)
| StringValue (s : string).

(** The values handed to the resolver. *)
Record FormInput := {
  in_name : string;
  in_address : string;
  in_latitude : NumberInput;
  in_longitude : NumberInput;
  in_radius : NumberInput;
  in_assignedEmployees : option (list string);
}.

(** [type FormValues = z.infer<typeof formSchema>] *)
Record FormValues := {
  name : string;
  address : string;
  latitude : Js.JsNumber;
  longitude : Js.JsNumber;
  radius : Js.JsNumber;
  assignedEmployees : option (list string);
}.

Record ZodIssue := {
  path : string;
  issue : string;
}.

Definition isDigit (c : ascii) : bool :=
  let n := N_of_ascii c in ((48 <=? n) && (n <=? 57))%N.

Fixpoint allDigits (s : string) : bool :=
  match s with
  | EmptyString => true
  | String c s' => isDigit c && allDigits s'
  end.

(** One or more digits. *)
Definition digits1 (s : string) : bool := Js.truthy s && allDigits s.

(** The regular expression for one or more digits, optionally followed by a
    dot and one or more digits, anchored at both ends. *)
Definition unsignedDecimal (s : string) : bool :=
  match Js.split "." s with
  | [a] => digits1 a
  | [a; b] => digits1 a && digits1 b
  | _ => false
  end.

(** The same with an optional leading minus sign. *)
Definition signedDecimal (s : string) : bool :=
  match s with
  | String "-" s' => unsignedDecimal s'
  | _ => unsignedDecimal s
  end.

Section Schema.

(** [Number(s)] on the strings that pass the regular expression: the
    conversion of a decimal literal to a number. *)
Variable Number : string → Js.JsNumber.

(** [z.number().or(z.string().regex(re).transform(Number))]: the value, or
    [None] when neither alternative accepts the input.  [z.number()] rejects
    NaN. *)
Definition numberOrNumericString (re : string → bool) (v : NumberInput)
  : option Js.JsNumber :=
  match v with
  | NumberValue Js.NaN => None
  | NumberValue n => Some n
  | StringValue s => if re s then Some (Number s) else None
  end.

(** [... .refine(check, { message })] on one field. *)
Definition refinedNumber (field : string) (re : string → bool)
    (check : Js.JsNumber → bool) (msg : string) (v : NumberInput)
  : Js.JsNumber + list ZodIssue :=
  match numberOrNumericString re v with
  | None => inr [ {| path := field; issue := "Invalid input" |} ]
  | Some val =>
      if check val then inl val
      else inr [ {| path := field; issue := msg |} ]
  end.

(** [z.string().min(1, msg)]: a string has a byte exactly when it has a
    code unit. *)
Definition nonEmptyString (field msg : string) (v : string)
  : string + list ZodIssue :=
  if (1 <=? String.length v)%nat then inl v
  else inr [ {| path := field; issue := msg |} ].

Definition issues_of {A} (r : A + list ZodIssue) : list ZodIssue :=
  match r with inl _ => [] | inr l => l end.

(** The value passed the checks. *)
Definition accepted {A} (r : A + list ZodIssue) : bool :=
  match r with inl _ => true | inr _ => false end.

Definition checkLatitude (val : Js.JsNumber) : bool :=
  Js.num_ge val (Js.Num (-90)) && Js.num_le val (Js.Num 90).

Definition checkLongitude (val : Js.JsNumber) : bool :=
  Js.num_ge val (Js.Num (-180)) && Js.num_le val (Js.Num 180).

Definition checkRadius (val : Js.JsNumber) : bool :=
  Js.num_gt val (Js.Num 0).

(** [formSchema.safeParse(input)]: the parsed values, or the issues of all
    fields. *)
Definition formSchema (input : FormInput) : FormValues + list ZodIssue :=
  let n := nonEmptyString "name" "Name is required" (in_name input) in
  let a := nonEmptyString "address" "Address is required" (in_address input) in
  let lat := refinedNumber "latitude" signedDecimal checkLatitude
               "Latitude must be between -90 and 90" (in_latitude input) in
  let lng := refinedNumber "longitude" signedDecimal checkLongitude
               "Longitude must be between -180 and 180" (in_longitude input) in
  let rad := refinedNumber "radius" unsignedDecimal checkRadius
               "Radius must be greater than 0" (in_radius input) in
  match n, a, lat, lng, rad with
  | inl n, inl a, inl lat, inl lng, inl rad =>
      inl {| name := n; address := a; latitude := lat; longitude := lng;
             radius := rad; assignedEmployees := in_assignedEmployees input |}
  | _, _, _, _, _ =>
      inr (issues_of n ++ issues_of a ++ issues_of lat ++ issues_of lng
           ++ issues_of rad)
  end.

(** The component's [handleSubmit]: the data passed to [onSubmit].
    [location] is the prop of the dialog. *)
Definition handleSubmit (location : option GeofenceLocation) (data : FormValues)
  : LocationsPage.FormData :=
  {| LocationsPage.fd_name := name data;
     LocationsPage.fd_address :=
       LocationsPage.or_else (address data)
         (LocationsPage.or_else
            (match location with Some l => loc_address l | None => "" end) "");
     LocationsPage.fd_latitude := latitude data;
     LocationsPage.fd_longitude := longitude data;
     LocationsPage.fd_radius := radius data;
     LocationsPage.fd_assignedEmployees :=
       Some (default [] (assignedEmployees data)) |}.

(** [form.handleSubmit(handleSubmit)] with the page's
    [handleSubmitLocation] as [onSubmit]: the resolver runs first; with
    issues the form shows them and calls nothing. *)
Definition submit (env : Env) (st : LocationsPage.State) (input : FormInput)
  : M (LocationsPage.State * list ZodIssue) :=
  match formSchema input with
  | inr issues => mret (st, issues)
  | inl data =>
      st' ← LocationsPage.handleSubmitLocation env st
              (handleSubmit (LocationsPage.selectedLocation st) data);
      mret (st', [])
  end.

End Schema.

(** The [onSelect] handler of an employee item: the list [newValues] that
    it computes from the current value of the field and hands to
    [field.onChange] and to [setSelectedEmployees]. *)
Definition toggleEmployee (employeeId : string) (currentValues : list string)
  : list string :=
  if EmployeeLocationAssignmentDialog.array_includes currentValues employeeId
  then List.filter (λ id, negb (String.eqb id employeeId)) currentValues
  else currentValues ++ [employeeId].

Section Selector.

(** [String.prototype.toLowerCase] *)
Variable toLowerCase : string → string.

(** [filteredEmployees]: the employees listed under the search box of the
    selector.  [employees] is [null] before the first fetch. *)
Definition filteredEmployees (employees : option (list EmployeeRow))
    (searchValue : string) : list EmployeeRow :=
  match employees with
  | None => []
  | Some employees =>
      if negb (Js.truthy searchValue) then employees
      else
        List.filter (λ employee,
          Js.includes (toLowerCase (emp_name employee))
            (toLowerCase searchValue)
          || Js.includes (toLowerCase (emp_employee_id employee))
               (toLowerCase searchValue)) employees
  end.

End Selector.

(** [fetchAssignedEmployees]: the value it passes to [setSelectedEmployees]
    and to [form.setValue("assignedEmployees", ...)]; without a location id
    it returns at once and the selection stays.  The query differs from the
    one of the page's listing in its columns only and is recorded as the
    same request. *)
Definition fetchAssignedEmployees (env : Env) (location : option GeofenceLocation)
    (selectedEmployees : list string) : M (list string) :=
  match location with
  | Some l =>
      if Js.truthy (loc_id l) then
        try_catch
          (r ← from_assignments_select_eq_location env (loc_id l);
           throw_if_error r;;
           match data r with
           | Some rows => mret (map j_employee_id rows)
           | None => throw {| message := "Cannot read properties of null (reading 'map')" |}
           end)
          (λ _,
             console_error "Error fetching assigned employees:";;
             mret [])
      else mret selectedEmployees
  | None => mret selectedEmployees
  end.

(** The effect around it, run when the dialog opens: an edit fetches the
    assignments, a new location starts from the empty selection. *)
Definition loadSelection (env : Env) (open : bool)
    (location : option GeofenceLocation) (selectedEmployees : list string)
  : M (list string) :=
  if open then
    match location with
    | Some _ => fetchAssignedEmployees env location selectedEmployees
    | None => mret []
    end
  else mret selectedEmployees.

(** [form.setValue("assignedEmployees", ids)] *)
Definition setAssignedEmployees (input : FormInput) (selectedEmployees : list string)
  : FormInput :=
  {| in_name := in_name input; in_address := in_address input;
     in_latitude := in_latitude input; in_longitude := in_longitude input;
     in_radius := in_radius input;
     in_assignedEmployees := Some selectedEmployees |}.

(** *** A click in the employee selector

    The values of the form and the [useState] cell [selectedEmployees]. *)
Record Selector := {
  formValues : FormInput;
  selectedEmployees : list string;
}.

(** [Array.isArray(field.value) ? field.value : []] *)
Definition fieldValue (st : Selector) : list string :=
  default [] (in_assignedEmployees (formValues st)).

(** The [onSelect] handler of an employee item: [field.onChange(newValues)]
    and [setSelectedEmployees(newValues)].  Nothing in its [try] block
    throws. *)
Definition onSelect (employeeId : string) (st : Selector) : Selector :=
  let newValues := toggleEmployee employeeId (fieldValue st) in
  {| formValues := setAssignedEmployees (formValues st) newValues;
     selectedEmployees := newValues |}.

(** The effect that resets the form.  The cell [selectedEmployees] is
    among its dependencies: it runs when the dialog opens and again after
    every [setSelectedEmployees] with a new array. *)
Definition resetForm (open : bool) (location : option GeofenceLocation)
    (st : Selector) : M Selector :=
  if open then
    match location with
    | Some l =>
        console_log "Resetting form with location:";;
        mret {| formValues :=
                  {| in_name := loc_name l; in_address := loc_address l;
                     in_latitude := NumberValue (loc_latitude l);
                     in_longitude := NumberValue (loc_longitude l);
                     in_radius := NumberValue (loc_radius l);
                     in_assignedEmployees := Some (selectedEmployees st) |};
                selectedEmployees := selectedEmployees st |}
    | None =>
        console_log "Resetting form for new location";;
        mret {| formValues :=
                  {| in_name := ""; in_address := "";
                     in_latitude := NumberValue (Js.Num 0);
                     in_longitude := NumberValue (Js.Num 0);
                     in_radius := NumberValue (Js.Num 100);
                     in_assignedEmployees := Some [] |};
                selectedEmployees := selectedEmployees st |}
    end
  else mret st.

(** A click on an employee item of the open dialog: the handler, then the
    effect that the new [selectedEmployees] sets off. *)
Definition click (location : option GeofenceLocation) (employeeId : string)
    (st : Selector) : M Selector :=
  resetForm true location (onSelect employeeId st).

(** *** The conditions of the specification *)

(** A decimal literal: digits, optionally a dot and digits; with [signed],
    optionally a minus sign in front. *)
Definition Digits (s : string) : Prop := s ≠ "" ∧ allDigits s = true.

Inductive DecimalLiteral : bool → string → Prop :=
| dl_int signed ds : Digits ds → DecimalLiteral signed ds
| dl_frac signed ds fs :
    Digits ds → Digits fs → DecimalLiteral signed (ds +:+ "." +:+ fs)
| dl_neg s : DecimalLiteral false s → DecimalLiteral true ("-" +:+ s).

(** The number a raw field value stands for. *)
Inductive Denotes (Number : string → Js.JsNumber) (signed : bool)
  : NumberInput → Js.JsNumber → Prop :=
| denotes_number n : n ≠ Js.NaN → Denotes Number signed (NumberValue n) n
| denotes_string s :
    DecimalLiteral signed s → Denotes Number signed (StringValue s) (Number s).

(** [lo <= x <= hi] and [0 < x] on the real value of a number. *)
Definition between (lo hi : Q) (x : Js.JsNumber) : Prop :=
  ∃ q, x = Js.Num q ∧ (lo <= q)%Q ∧ (q <= hi)%Q.

Definition positive (x : Js.JsNumber) : Prop :=
  x = Js.PosInf ∨ ∃ q, x = Js.Num q ∧ (0 < q)%Q.

Definition acceptable (Number : string → Js.JsNumber) (input : FormInput) : Prop :=
  in_name input ≠ "" ∧ in_address input ≠ "" ∧
  (∃ lat, Denotes Number true (in_latitude input) lat ∧ between (-90) 90 lat) ∧
  (∃ lng, Denotes Number true (in_longitude input) lng ∧ between (-180) 180 lng) ∧
  (∃ r, Denotes Number false (in_radius input) r ∧ positive r).

(** The exact value of a decimal literal, for examples. *)
Fixpoint digitsValue (acc : Z) (s : string) : Z :=
  match s with
  | EmptyString => acc
  | String c s' => digitsValue (10 * acc + Z.of_N (N_of_ascii c - 48)) s'
  end.

Definition decimalValue (s : string) : Js.JsNumber :=
  let neg := Js.startsWith s "-" in
  let body := match s with String "-" s' => s' | _ => s end in
  let q :=
    match Js.split "." body with
    | [a; b] =>
        (inject_Z (digitsValue 0 a)
         + inject_Z (digitsValue 0 b) / inject_Z (10 ^ Z.of_nat (String.length b)))%Q
    | _ => inject_Z (digitsValue 0 body)
    end in
  Js.Num (Qred (if neg then - q else q)%Q).

End GeofenceLocationDialog.

(** ** Registration ([lib/supabaseClient.ts]) *)

Module SupabaseClient.
Import Supabase Client.

(** [interface UserMetadata] *)
Record UserMetadata := {
  firstName : string;
  lastName : string;
  md_alias : option string;
  placeOfBirth : string;
  dateOfBirth : string;
  md_religion : string;
  md_address : string;
  phoneNumber : string;
  relativePhoneNumber : string;
}.

(** [interface FileUploads]: each field a [FileList], [null] or absent. *)
Record FileUploads := {
  selfie : option (list File);
  ktp : option (list File);
  kk : option (list File);
  cv : option (list File);
}.

(** [file.name.split(".").pop()] inside a template literal. *)
Definition fileExt (file : File) : string :=
  default "undefined" (Js.pop (Js.split "." (file_name file))).

Definition filePath (file : File) (userId fileType : string) : string :=
  "documents/" +:+ (userId +:+ "/" +:+ fileType +:+ "." +:+ fileExt file).

(** [x || null] on a string *)
Definition or_null (s : string) : option string :=
  if Js.truthy s then Some s else None.

Definition uploadFile (env : Env) (file : File) (userId fileType : string)
  : M (option string) :=
  let path := filePath file userId fileType in
  r ← storage_upload env path file;
  match error r with
  | Some _ =>
      console_error ("Error uploading " +:+ fileType +:+ ":");;
      mret None
  | None => mret (or_null (getPublicUrl env path))
  end.

(** [if (list && list.length > 0) url = await uploadFile(list[0], ...)] *)
Definition uploadIfProvided (env : Env) (list : option (list File))
    (userId fileType : string) : M (option string) :=
  match list with
  | Some (file :: _) => uploadFile env file userId fileType
  | _ => mret None
  end.

Definition authMetadata (m : UserMetadata) : AuthMetadata :=
  {| am_firstName := firstName m; am_lastName := lastName m;
     am_alias := md_alias m; am_placeOfBirth := placeOfBirth m;
     am_dateOfBirth := dateOfBirth m; am_religion := md_religion m;
     am_address := md_address m; am_phoneNumber := phoneNumber m;
     am_relativePhoneNumber := relativePhoneNumber m;
     am_fuel_name := md_alias m;
     am_full_name := firstName m +:+ " " +:+ lastName m |}.

Definition profileRow (env : Env) (userId : string) (m : UserMetadata)
    (selfieUrl ktpUrl kkUrl cvUrl : option string) : ProfileRow :=
  {| prof_id := userId; first_name := firstName m; last_name := lastName m;
     alias := md_alias m; fuel_name := md_alias m;
     place_of_birth := placeOfBirth m; date_of_birth := dateOfBirth m;
     religion := md_religion m; address := md_address m;
     phone_number := phoneNumber m;
     relative_phone_number := relativePhoneNumber m;
     selfie_url := selfieUrl; ktp_url := ktpUrl; kk_url := kkUrl;
     cv_url := cvUrl;
     prof_created_at := now env; prof_updated_at := now env |}.

(** [data?.user] *)
Definition user_of (data : option AuthData) : option App.User :=
  match data with
  | Some d => auth_user d
  | None => None
  end.

(** [signUp]: the [{ data, error }] it returns.  The [catch] clause turns an
    exception into [{ data: null, error: e }]; the calls of the client
    library report their failures in [error] and do not throw, so nothing in
    the body reaches it. *)
Definition signUp (env : Env) (email password : string)
    (metadata : option UserMetadata) (files : option FileUploads)
  : M (Response AuthData) :=
  try_catch
    (r ← auth_signUp env email password (authMetadata <$> metadata);
     console_log "Sign up response:";;
     match user_of (data r), metadata with
     | Some user, Some metadata =>
         urls ←
           match files with
           | Some files =>
               selfieUrl ← uploadIfProvided env (selfie files) (App.user_id user) "selfie";
               ktpUrl ← uploadIfProvided env (ktp files) (App.user_id user) "ktp";
               kkUrl ← uploadIfProvided env (kk files) (App.user_id user) "kk";
               cvUrl ← uploadIfProvided env (cv files) (App.user_id user) "cv";
               mret (selfieUrl, ktpUrl, kkUrl, cvUrl)
           | None => mret (None, None, None, None)
           end;
         let '(selfieUrl, ktpUrl, kkUrl, cvUrl) := urls in
         p ← from_profiles_upsert env
               (profileRow env (App.user_id user) metadata
                  selfieUrl ktpUrl kkUrl cvUrl);
         match error p with
         | Some _ => console_error "Error storing user profile:"
             (* "We don't return this error as the auth signup was
                successful" *)
         | None => mret tt
         end
     | _, _ => mret tt
     end;;
     mret r)
    (λ e,
       console_error "Sign up error:";;
       mret {| data := None; error := Some e |}).

(** *** What the specification expects of [signUp] *)

(** The file of a list "with content". *)
Definition firstFile (l : option (list File)) : option File :=
  match l with
  | Some (file :: _) => Some file
  | _ => None
  end.

(** The upload issued for one document type: one request for a list with
    content, none otherwise. *)
Definition uploadRequests (userId fileType : string) (l : option (list File))
  : list Request :=
  match firstFile l with
  | Some file => [StorageUpload (filePath file userId fileType) file]
  | None => []
  end.

(** The uploads of a sign-up, in the order selfie, KTP, KK, CV. *)
Definition expectedUploads (userId : string) (files : option FileUploads)
  : list Request :=
  match files with
  | None => []
  | Some f =>
      uploadRequests userId "selfie" (selfie f)
      ++ uploadRequests userId "ktp" (ktp f)
      ++ uploadRequests userId "kk" (kk f)
      ++ uploadRequests userId "cv" (cv f)
  end.

(** The public URL stored for one document type: that of the uploaded
    file, nothing without a file or when the upload fails. *)
Definition uploadedUrl (env : Env) (userId fileType : string)
    (l : option (list File)) : option string :=
  match firstFile l with
  | Some file =>
      match backend_error env (StorageUpload (filePath file userId fileType) file) with
      | Some _ => None
      | None => or_null (getPublicUrl env (filePath file userId fileType))
      end
  | None => None
  end.

(** The bucket after the upload for one document type. *)
Definition storedBy (env : Env) (userId fileType : string)
    (l : option (list File)) (s : gmap string File) : gmap string File :=
  match firstFile l with
  | Some file =>
      match backend_error env (StorageUpload (filePath file userId fileType) file) with
      | Some _ => s
      | None => <[filePath file userId fileType := file]> s
      end
  | None => s
  end.

Definition documentsOf {A} (files : option FileUploads)
    (field : FileUploads → option A) : option A :=
  match files with
  | Some f => field f
  | None => None
  end.

(** The profile row written for a user. *)
Definition expectedRow (env : Env) (userId : string) (m : UserMetadata)
    (files : option FileUploads) : ProfileRow :=
  profileRow env userId m
    (uploadedUrl env userId "selfie" (documentsOf files selfie))
    (uploadedUrl env userId "ktp" (documentsOf files ktp))
    (uploadedUrl env userId "kk" (documentsOf files kk))
    (uploadedUrl env userId "cv" (documentsOf files cv)).

Definition profile_error_logged : ConsoleEntry :=
  {| level := ErrorLevel; text := "Error storing user profile:" |}.

End SupabaseClient.

(** ** The registration form (component [RegisterForm]) *)

Module RegisterForm.
Import Supabase Client.

(** The values of the form: the text fields are strings, the four document
    fields a [FileList] or [null]. *)
Record FormValues := {
  firstName : string;
  lastName : string;
  alias : option string;
  placeOfBirth : string;
  dateOfBirth : string;
  religion : string;
  address : string;
  phoneNumber : string;
  relativePhoneNumber : string;
  email : string;
  password : string;
  confirmPassword : string;
  selfie : option (list File);
  ktp : option (list File);
  kk : option (list File);
  cv : option (list File);
}.

(** [z.string().min(n, msg)] on one field: its issues.  The check compares
    [n] with the [length] of the value. *)
Definition minLength (n : nat) (field msg v : string)
  : list GeofenceLocationDialog.ZodIssue :=
  if (n <=? Js.stringLength v)%nat then []
  else [ {| GeofenceLocationDialog.path := field;
            GeofenceLocationDialog.issue := msg |} ].

Section Schema.

(** The pattern of [z.string().email()]. *)
Variable isEmail : string → bool.

(** The issues of the fields of [z.object({ ... })], in the order of the
    keys.  The optional fields accept every value of their type. *)
Definition fieldIssues (input : FormValues)
  : list GeofenceLocationDialog.ZodIssue :=
  minLength 1 "firstName" "First name is required" (firstName input)
  ++ minLength 1 "lastName" "Last name is required" (lastName input)
  ++ minLength 1 "placeOfBirth" "Place of birth is required" (placeOfBirth input)
  ++ minLength 1 "dateOfBirth" "Date of birth is required" (dateOfBirth input)
  ++ minLength 1 "religion" "Religion is required" (religion input)
  ++ minLength 1 "address" "Address is required" (address input)
  ++ minLength 1 "phoneNumber" "Phone number is required" (phoneNumber input)
  ++ minLength 1 "relativePhoneNumber" "Relative's phone number is required"
       (relativePhoneNumber input)
  ++ (if isEmail (email input) then []
      else [ {| GeofenceLocationDialog.path := "email";
                GeofenceLocationDialog.issue := "Invalid email address" |} ])
  ++ minLength 6 "password" "Password must be at least 6 characters"
       (password input)
  ++ minLength 6 "confirmPassword" "Password must be at least 6 characters"
       (confirmPassword input).

(** [.refine((data) => data.password === data.confirmPassword, ...)] *)
Definition passwordsMatch (input : FormValues)
  : list GeofenceLocationDialog.ZodIssue :=
  if String.eqb (password input) (confirmPassword input) then []
  else [ {| GeofenceLocationDialog.path := "confirmPassword";
            GeofenceLocationDialog.issue := "Passwords do not match" |} ].

(** [formSchema.safeParse(input)]: the refinement runs on values of the
    right types, also when a field has an issue. *)
Definition formSchema (input : FormValues)
  : FormValues + list GeofenceLocationDialog.ZodIssue :=
  match fieldIssues input ++ passwordsMatch input with
  | [] => inl input
  | issues => inr issues
  end.

(** A required field is filled in: it has a code unit. *)
Definition filled (v : string) : Prop := (1 ≤ Js.stringLength v)%nat.

(** The inputs the form is meant to accept: the required fields filled
    in, a well-formed e-mail address, a password of six code units or more,
    and the same password in the confirmation. *)
Definition acceptable (input : FormValues) : Prop :=
  filled (firstName input) ∧ filled (lastName input) ∧
  filled (placeOfBirth input) ∧ filled (dateOfBirth input) ∧
  filled (religion input) ∧ filled (address input) ∧
  filled (phoneNumber input) ∧ filled (relativePhoneNumber input) ∧
  isEmail (email input) = true ∧
  (6 ≤ Js.stringLength (password input))%nat ∧
  confirmPassword input = password input.

End Schema.

(** The [useState] cells of the component that [onSubmit] writes. *)
Record State := {
  isLoading : bool;
  error : option string;
  success : option string;
}.

Definition metadataOf (data : FormValues) : SupabaseClient.UserMetadata :=
  {| SupabaseClient.firstName := firstName data;
     SupabaseClient.lastName := lastName data;
     SupabaseClient.md_alias := alias data;
     SupabaseClient.placeOfBirth := placeOfBirth data;
     SupabaseClient.dateOfBirth := dateOfBirth data;
     SupabaseClient.md_religion := religion data;
     SupabaseClient.md_address := address data;
     SupabaseClient.phoneNumber := phoneNumber data;
     SupabaseClient.relativePhoneNumber := relativePhoneNumber data |}.

Definition filesOf (data : FormValues) : SupabaseClient.FileUploads :=
  {| SupabaseClient.selfie := selfie data; SupabaseClient.ktp := ktp data;
     SupabaseClient.kk := kk data; SupabaseClient.cv := cv data |}.

Definition registered : string :=
  "Registration successful! Please check your email to confirm your account.".

(** The timer that [onSubmit] starts after a successful registration. *)
Definition redirectToLogin : string := "setTimeout(() => navigate('/login'), 3000)".

(** [onSubmit]; the [finally] clause clears the loading flag on every
    path. *)
Definition onSubmit (env : Env) (data : FormValues) (st : State) : M State :=
  let st := {| isLoading := true; error := None; success := None |} in
  st ← try_catch
         (r ← SupabaseClient.signUp env (email data) (password data)
                (Some (metadataOf data)) (Some (filesOf data));
          match Supabase.error r with
          | Some authError =>
              mret {| isLoading := isLoading st;
                      error := Some (message authError);
                      success := success st |}
          | None =>
              match Supabase.data r with
              | Some _ =>
                  callback redirectToLogin;;
                  mret {| isLoading := isLoading st; error := error st;
                          success := Some registered |}
              | None => mret st
              end
          end)
         (λ err,
            console_error (message err);;
            mret {| isLoading := isLoading st;
                    error := Some "An unexpected error occurred. Please try again.";
                    success := success st |});
  mret {| isLoading := false; error := error st; success := success st |}.

End RegisterForm.

(** ** A small installation, for the examples *)

Module Scenario.
Import Supabase Client.

Definition ani : EmployeeRow :=
  {| emp_id := "E1"; emp_name := "Ani"; emp_employee_id := "EMP-001" |}.
Definition budi : EmployeeRow :=
  {| emp_id := "E2"; emp_name := "Budi"; emp_employee_id := "EMP-002" |}.
Definition citra : EmployeeRow :=
  {| emp_id := "E3"; emp_name := "Citra"; emp_employee_id := "EMP-003" |}.

Definition hq : LocationRow :=
  {| row_id := "L1"; row_name := "HQ"; row_address := "1 Main St";
     row_latitude := Js.Num (-31 # 5); row_longitude := Js.Num (534 # 5);
     row_radius := Js.Num 100; row_created_at := 10%Z; row_updated_at := 10%Z |}.

Definition depot : LocationRow :=
  {| row_id := "L2"; row_name := "Depot"; row_address := "Harbour Road";
     row_latitude := Js.Num (-6); row_longitude := Js.Num 107;
     row_radius := Js.Num 250; row_created_at := 20%Z; row_updated_at := 20%Z |}.

Definition assignment (id employee location : string) : AssignmentRow :=
  {| asg_id := id; asg_employee_id := employee; asg_location_id := location;
     asg_created_at := 30%Z |}.

(** Ani and Budi may check in at HQ, Citra at the depot. *)
Definition db0 : Db :=
  {| employees := [ani; budi; citra];
     geofence_locations := [hq; depot];
     employee_location_assignments :=
       [assignment "A1" "E1" "L1"; assignment "A2" "E2" "L1";
        assignment "A3" "E3" "L2"];
     profiles := ∅;
     uuid_count := 0 |}.

Definition w0 : World :=
  {| db := db0; storage := ∅; requests := []; console := []; toasts := [];
     callbacks := [] |}.

Definition user1 : App.User :=
  {| App.user_id := "U1"; App.user_email := "ani@example.com" |}.

Fixpoint tally (n : nat) : string :=
  match n with
  | O => EmptyString
  | S n' => String "i" (tally n')
  end.

(** A backend that accepts everything; the identity layer creates
    [user1]. *)
Definition env0 : Env :=
  {| backend_error := λ _, None;
     auth_response := λ _ _ _,
       ok {| auth_user := Some user1; auth_session := None |};
     confirm := λ _, true;
     now := 1000%Z;
     db_now := 1000%Z;
     uuid_generate_v4 := λ n, "uuid-" +:+ tally n;
     supabaseUrl := "https://hrd.example" |}.

(** The same, but every write to [profiles] fails. *)
Definition envProfileFails : Env :=
  {| backend_error := λ r,
       match r with
       | UpsertProfile _ => Some {| message := "row-level security" |}
       | _ => None
       end;
     auth_response := auth_response env0;
     confirm := confirm env0; now := now env0; db_now := db_now env0;
     uuid_generate_v4 := uuid_generate_v4 env0;
     supabaseUrl := supabaseUrl env0 |}.

(** The same, but the identity layer refuses the sign-up. *)
Definition envNoUser : Env :=
  {| backend_error := backend_error env0;
     auth_response := λ _ _ _,
       {| data := Some {| auth_user := None; auth_session := None |};
          error := Some {| message := "User already registered" |} |};
     confirm := confirm env0; now := now env0; db_now := db_now env0;
     uuid_generate_v4 := uuid_generate_v4 env0;
     supabaseUrl := supabaseUrl env0 |}.

(** The same, but the assignments of the depot cannot be fetched. *)
Definition envDepotFetchFails : Env :=
  {| backend_error := λ r,
       match r with
       | SelectAssignmentsOfLocation "L2" => Some {| message := "timeout" |}
       | _ => None
       end;
     auth_response := auth_response env0;
     confirm := confirm env0; now := now env0; db_now := db_now env0;
     uuid_generate_v4 := uuid_generate_v4 env0;
     supabaseUrl := supabaseUrl env0 |}.

(** The page with HQ selected for editing. *)
Definition page0 : LocationsPage.State :=
  {| LocationsPage.locations := [];
     LocationsPage.isLoading := false;
     LocationsPage.selectedLocation := Some (LocationsPage.of_row hq);
     LocationsPage.isDialogOpen := true;
     LocationsPage.activeTab := "table";
     LocationsPage.searchQuery := "" |}.

(** The form of HQ with only Ani selected. *)
Definition form0 : LocationsPage.FormData :=
  {| LocationsPage.fd_name := "HQ"; LocationsPage.fd_address := "1 Main St";
     LocationsPage.fd_latitude := Js.Num (-31 # 5);
     LocationsPage.fd_longitude := Js.Num (534 # 5);
     LocationsPage.fd_radius := Js.Num 100;
     LocationsPage.fd_assignedEmployees := Some ["E1"] |}.

(** An installation without locations, the page with the dialog open for a
    new location, and the form of HQ with Ani and Budi selected. *)
Definition wNew : World :=
  {| db := {| employees := [ani; budi; citra]; geofence_locations := [];
              employee_location_assignments := []; profiles := ∅;
              uuid_count := 0 |};
     storage := ∅; requests := []; console := []; toasts := [];
     callbacks := [] |}.

Definition pageNew : LocationsPage.State :=
  LocationsPage.handleAddLocation
    {| LocationsPage.locations := [];
       LocationsPage.isLoading := false;
       LocationsPage.selectedLocation := None;
       LocationsPage.isDialogOpen := false;
       LocationsPage.activeTab := "table";
       LocationsPage.searchQuery := "" |}.

Definition formNew : LocationsPage.FormData :=
  {| LocationsPage.fd_name := "HQ"; LocationsPage.fd_address := "1 Main St";
     LocationsPage.fd_latitude := Js.Num (-31 # 5);
     LocationsPage.fd_longitude := Js.Num (534 # 5);
     LocationsPage.fd_radius := Js.Num 100;
     LocationsPage.fd_assignedEmployees := Some ["E1"; "E2"] |}.

(** The assignment dialog of Citra with HQ selected. *)
Definition citraProps : EmployeeLocationAssignmentDialog.Props :=
  {| EmployeeLocationAssignmentDialog.employee := Some citra;
     EmployeeLocationAssignmentDialog.employeeId := None;
     EmployeeLocationAssignmentDialog.employeeName := None;
     EmployeeLocationAssignmentDialog.onSuccess := true;
     EmployeeLocationAssignmentDialog.onOpenChange := true;
     EmployeeLocationAssignmentDialog.onClose := false |}.

Definition citraDialog : EmployeeLocationAssignmentDialog.State :=
  {| EmployeeLocationAssignmentDialog.locations := [];
     EmployeeLocationAssignmentDialog.selectedLocations := ["L1"];
     EmployeeLocationAssignmentDialog.isLoading := false |}.

(** A registration with a selfie and no other document. *)
Definition selfieFile : File :=
  {| file_name := "me.jpg"; file_type := "image/jpeg"; file_content := "JFIF" |}.

Definition selfieOnly : SupabaseClient.FileUploads :=
  {| SupabaseClient.selfie := Some [selfieFile];
     SupabaseClient.ktp := Some [];
     SupabaseClient.kk := None;
     SupabaseClient.cv := None |}.

Definition aniMetadata : SupabaseClient.UserMetadata :=
  {| SupabaseClient.firstName := "Ani"; SupabaseClient.lastName := "Wijaya";
     SupabaseClient.md_alias := None;
     SupabaseClient.placeOfBirth := "Bandung";
     SupabaseClient.dateOfBirth := "1990-01-01";
     SupabaseClient.md_religion := "-";
     SupabaseClient.md_address := "Jl. Merdeka 1";
     SupabaseClient.phoneNumber := "0811";
     SupabaseClient.relativePhoneNumber := "0812" |}.

(** Form input for HQ, and the same with a radius of zero. *)
Definition hqInput : GeofenceLocationDialog.FormInput :=
  {| GeofenceLocationDialog.in_name := "HQ";
     GeofenceLocationDialog.in_address := "1 Main St";
     GeofenceLocationDialog.in_latitude :=
       GeofenceLocationDialog.NumberValue (Js.Num (-31 # 5));
     GeofenceLocationDialog.in_longitude :=
       GeofenceLocationDialog.StringValue "106.8";
     GeofenceLocationDialog.in_radius :=
       GeofenceLocationDialog.NumberValue (Js.Num 100);
     GeofenceLocationDialog.in_assignedEmployees := Some ["E1"; "E2"] |}.

Definition withRadius (r : GeofenceLocationDialog.NumberInput)
  : GeofenceLocationDialog.FormInput :=
  {| GeofenceLocationDialog.in_name := "HQ";
     GeofenceLocationDialog.in_address := "1 Main St";
     GeofenceLocationDialog.in_latitude :=
       GeofenceLocationDialog.NumberValue (Js.Num (-31 # 5));
     GeofenceLocationDialog.in_longitude :=
       GeofenceLocationDialog.StringValue "106.8";
     GeofenceLocationDialog.in_radius := r;
     GeofenceLocationDialog.in_assignedEmployees := Some ["E1"; "E2"] |}.

Definition withLatitude (lat : GeofenceLocationDialog.NumberInput)
  : GeofenceLocationDialog.FormInput :=
  {| GeofenceLocationDialog.in_name := "HQ";
     GeofenceLocationDialog.in_address := "1 Main St";
     GeofenceLocationDialog.in_latitude := lat;
     GeofenceLocationDialog.in_longitude :=
       GeofenceLocationDialog.StringValue "106.8";
     GeofenceLocationDialog.in_radius :=
       GeofenceLocationDialog.NumberValue (Js.Num 100);
     GeofenceLocationDialog.in_assignedEmployees := Some ["E1"; "E2"] |}.

(** The same as [env0], but every update of a location is refused. *)
Definition envUpdateFails : Env :=
  {| backend_error := λ r,
       match r with
       | UpdateLocation _ _ => Some {| message := "permission denied" |}
       | _ => None
       end;
     auth_response := auth_response env0;
     confirm := confirm env0; now := now env0; db_now := db_now env0;
     uuid_generate_v4 := uuid_generate_v4 env0;
     supabaseUrl := supabaseUrl env0 |}.

(** The form of HQ with an employee id that the table does not hold. *)
Definition formUnknown : LocationsPage.FormData :=
  {| LocationsPage.fd_name := "HQ"; LocationsPage.fd_address := "1 Main St";
     LocationsPage.fd_latitude := Js.Num (-31 # 5);
     LocationsPage.fd_longitude := Js.Num (534 # 5);
     LocationsPage.fd_radius := Js.Num 100;
     LocationsPage.fd_assignedEmployees := Some ["E9"] |}.

(** The form of HQ with nobody selected. *)
Definition formNobody : LocationsPage.FormData :=
  {| LocationsPage.fd_name := "HQ"; LocationsPage.fd_address := "1 Main St";
     LocationsPage.fd_latitude := Js.Num (-31 # 5);
     LocationsPage.fd_longitude := Js.Num (534 # 5);
     LocationsPage.fd_radius := Js.Num 100;
     LocationsPage.fd_assignedEmployees := Some [] |}.

(** The same as [env0], but the assignments of Citra cannot be read. *)
Definition envCitraFetchFails : Env :=
  {| backend_error := λ r,
       match r with
       | SelectAssignmentsOfEmployee "E3" => Some {| message := "timeout" |}
       | _ => None
       end;
     auth_response := auth_response env0;
     confirm := confirm env0; now := now env0; db_now := db_now env0;
     uuid_generate_v4 := uuid_generate_v4 env0;
     supabaseUrl := supabaseUrl env0 |}.

(** The same as [env0], but the assignments of HQ cannot be read. *)
Definition envHqFetchFails : Env :=
  {| backend_error := λ r,
       match r with
       | SelectAssignmentsOfLocation "L1" => Some {| message := "timeout" |}
       | _ => None
       end;
     auth_response := auth_response env0;
     confirm := confirm env0; now := now env0; db_now := db_now env0;
     uuid_generate_v4 := uuid_generate_v4 env0;
     supabaseUrl := supabaseUrl env0 |}.

(** The assignment dialog of Citra as it opens: nothing selected. *)
Definition citraDialog0 : EmployeeLocationAssignmentDialog.State :=
  {| EmployeeLocationAssignmentDialog.locations := [];
     EmployeeLocationAssignmentDialog.selectedLocations := [];
     EmployeeLocationAssignmentDialog.isLoading := false |}.

(** A second selfie of the same user, in another format. *)
Definition selfiePng : File :=
  {| file_name := "me.v2.png"; file_type := "image/png"; file_content := "PNG" |}.

(** Every upload is refused. *)
Definition envUploadsFail : Env :=
  {| backend_error := λ r,
       match r with
       | StorageUpload _ _ => Some {| message := "bucket not found" |}
       | _ => None
       end;
     auth_response := auth_response env0;
     confirm := confirm env0; now := now env0; db_now := db_now env0;
     uuid_generate_v4 := uuid_generate_v4 env0;
     supabaseUrl := supabaseUrl env0 |}.

(** The registration form of Ani. *)
Definition aniForm : RegisterForm.FormValues :=
  {| RegisterForm.firstName := "Ani"; RegisterForm.lastName := "Wijaya";
     RegisterForm.alias := None;
     RegisterForm.placeOfBirth := "Bandung";
     RegisterForm.dateOfBirth := "1990-01-01";
     RegisterForm.religion := "-";
     RegisterForm.address := "Jl. Merdeka 1";
     RegisterForm.phoneNumber := "0811";
     RegisterForm.relativePhoneNumber := "0812";
     RegisterForm.email := "ani@example.com";
     RegisterForm.password := "s3cret!";
     RegisterForm.confirmPassword := "s3cret!";
     RegisterForm.selfie := Some [selfieFile];
     RegisterForm.ktp := None; RegisterForm.kk := None;
     RegisterForm.cv := None |}.

End Scenario.
(** * Properties *)

(** ** Strings *)

Module JsFacts.
Import Js.

Lemma app_nil_l (s : string) : "" +:+ s = s.
Proof. reflexivity. Qed.

Lemma app_cons (c : ascii) (s t : string) :
  String c s +:+ t = String c (s +:+ t).
Proof. reflexivity. Qed.

Lemma app_nil_r (s : string) : s +:+ "" = s.
Proof. induction s as [|c s IH]; [done|]. by rewrite app_cons, IH. Qed.

Lemma app_assoc (s t u : string) : (s +:+ t) +:+ u = s +:+ (t +:+ u).
Proof. induction s as [|c s IH]; [done|]. by rewrite !app_cons, IH. Qed.

Lemma startsWith_spec (s p : string) :
  startsWith s p = true ↔ ∃ post, s = p +:+ post.
Proof.
  revert s. induction p as [|a p IH]; intros s; simpl.
  - split; [intros _; by exists s | done].
  - destruct s as [|b s].
    + split; [done | intros [post H]; by rewrite app_cons in H].
    + rewrite andb_true_iff, Ascii.eqb_eq, IH. split.
      * intros [-> [post ->]]. by exists post.
      * intros [post H]. rewrite app_cons in H. injection H as -> ->. eauto.
Qed.

Lemma includes_spec (s q : string) :
  includes s q = true ↔ contains s q.
Proof.
  unfold contains. induction s as [|c s IH]; simpl.
  - rewrite orb_false_r, startsWith_spec. split.
    + intros [post H]. by exists "", post.
    + intros [pre [post H]]. destruct pre as [|a pre]; [|by rewrite app_cons in H].
      by exists post.
  - rewrite orb_true_iff, startsWith_spec, IH. split.
    + intros [[post H] | [pre [post H]]].
      * by exists "", post.
      * exists (String c pre), post. by rewrite app_cons, H.
    + intros [pre [post H]]. destruct pre as [|a pre].
      * left. by exists post.
      * right. rewrite app_cons in H. injection H as _ ->. by exists pre, post.
Qed.

(** Containment is transitive. *)
Lemma contains_trans (s t u : string) :
  contains s t → contains t u → contains s u.
Proof.
  intros (p & x & ->) (p' & x' & ->).
  exists (p +:+ p'), (x' +:+ x). by rewrite !app_assoc.
Qed.

Lemma truthy_false (s : string) : truthy s = false ↔ s = "".
Proof. by destruct s. Qed.

Lemma truthy_true (s : string) : truthy s = true ↔ s ≠ "".
Proof. by destruct s. Qed.

Lemma includes_nil_nonempty (q : string) : q ≠ "" → includes "" q = false.
Proof. by destruct q. Qed.

(** On ASCII text [asciiLower] is a lower-casing in the sense of
    [lowersAscii], and it keeps the text in ASCII. *)
Lemma asciiLower_lowersAscii : lowersAscii asciiLower.
Proof. by intros s _. Qed.

Lemma isAscii_asciiLower (s : string) : isAscii (asciiLower s) = isAscii s.
Proof.
  induction s as [|c s IH]; [done|]. simpl. rewrite IH. f_equal.
  by destruct c as [[] [] [] [] [] [] [] []].
Qed.

Lemma code_lower_char (c : ascii) :
  isUpper c = true →
  (65 ≤ code c ≤ 90)%N ∧ code (lower_char c) = (code c + 32)%N.
Proof.
  intros H. unfold lower_char. rewrite H. unfold isUpper, inRange in H.
  apply andb_true_iff in H as [H1 H2]. apply N.leb_le in H1, H2.
  split; [done|]. unfold code at 1. rewrite N_ascii_embedding; lia.
Qed.

(** Lowering the letters of ASCII leaves the tests for white space as they
    are. *)
Lemma isByte_lower_char (k : N) (c : ascii) :
  (k < 65 ∨ 128 ≤ k)%N → isByte k (lower_char c) = isByte k c.
Proof.
  intros Hk. destruct (isUpper c) eqn:H.
  - apply code_lower_char in H as [H1 H2]. unfold isByte. rewrite H2.
    destruct (N.eqb_spec (code c + 32) k), (N.eqb_spec (code c) k); (done || lia).
  - unfold lower_char. by rewrite H.
Qed.

Lemma inRange_lower_char (lo hi : N) (c : ascii) :
  (hi < 65 ∨ 128 ≤ lo)%N → inRange lo hi (lower_char c) = inRange lo hi c.
Proof.
  intros Hk. destruct (isUpper c) eqn:H.
  - apply code_lower_char in H as [H1 H2]. unfold inRange. rewrite H2.
    destruct (N.leb_spec lo (code c + 32)), (N.leb_spec (code c + 32) hi),
      (N.leb_spec lo (code c)), (N.leb_spec (code c) hi); (done || lia).
  - unfold lower_char. by rewrite H.
Qed.

Lemma isWhiteSpace1_lower_char (a : ascii) :
  isWhiteSpace1 (lower_char a) = isWhiteSpace1 a.
Proof.
  unfold isWhiteSpace1. by rewrite isByte_lower_char, inRange_lower_char by lia.
Qed.

Lemma isWhiteSpace2_lower_char (a b : ascii) :
  isWhiteSpace2 (lower_char a) (lower_char b) = isWhiteSpace2 a b.
Proof. unfold isWhiteSpace2. by rewrite !isByte_lower_char by lia. Qed.

Lemma isWhiteSpace3_lower_char (a b c : ascii) :
  isWhiteSpace3 (lower_char a) (lower_char b) (lower_char c)
  = isWhiteSpace3 a b c.
Proof.
  unfold isWhiteSpace3.
  by rewrite !isByte_lower_char, !inRange_lower_char by lia.
Qed.

Lemma trimStart_cons (a : ascii) (s1 : string) :
  trimStart (String a s1)
  = if isWhiteSpace1 a then trimStart s1
    else match s1 with
         | EmptyString => String a s1
         | String b s2 =>
             if isWhiteSpace2 a b then trimStart s2
             else match s2 with
                  | EmptyString => String a s1
                  | String c s3 =>
                      if isWhiteSpace3 a b c then trimStart s3 else String a s1
                  end
         end.
Proof. reflexivity. Qed.

Lemma trimStart_asciiLower (s : string) :
  trimStart (asciiLower s) = asciiLower (trimStart s).
Proof.
  remember (String.length s) as n eqn:Hn.
  revert s Hn. induction (lt_wf n) as [n _ IH]. intros s Hn.
  destruct s as [|a s1]; [done|].
  change (asciiLower (String a s1)) with (String (lower_char a) (asciiLower s1)).
  rewrite !trimStart_cons, isWhiteSpace1_lower_char.
  destruct (isWhiteSpace1 a).
  { apply (IH (String.length s1)); [rewrite Hn; simpl; lia | done]. }
  destruct s1 as [|b s2]; [done|]. cbn [asciiLower].
  rewrite isWhiteSpace2_lower_char. destruct (isWhiteSpace2 a b).
  { apply (IH (String.length s2)); [rewrite Hn; simpl; lia | done]. }
  destruct s2 as [|c s3]; [done|]. cbn [asciiLower].
  rewrite isWhiteSpace3_lower_char. destruct (isWhiteSpace3 a b c); [|done].
  apply (IH (String.length s3)); [rewrite Hn; simpl; lia | done].
Qed.

Lemma truthy_asciiLower (s : string) : truthy (asciiLower s) = truthy s.
Proof. by destruct s. Qed.

Lemma trimEnd_asciiLower (s : string) :
  trimEnd (asciiLower s) = asciiLower (trimEnd s).
Proof.
  induction s as [|c s IH]; [done|].
  change (asciiLower (String c s)) with (String (lower_char c) (asciiLower s)).
  change (trimEnd (String (lower_char c) (asciiLower s)))
    with (if truthy (trimStart (String (lower_char c) (asciiLower s)))
          then String (lower_char c) (trimEnd (asciiLower s)) else "").
  change (trimEnd (String c s))
    with (if truthy (trimStart (String c s)) then String c (trimEnd s) else "").
  change (String (lower_char c) (asciiLower s)) with (asciiLower (String c s)).
  rewrite trimStart_asciiLower, truthy_asciiLower, IH.
  by destruct (truthy (trimStart (String c s))).
Qed.

(** [trim] and the lowering of ASCII letters commute. *)
Lemma trim_asciiLower (s : string) : trim (asciiLower s) = asciiLower (trim s).
Proof. unfold trim. by rewrite trimStart_asciiLower, trimEnd_asciiLower. Qed.

Lemma asciiLower_app (s t : string) :
  asciiLower (s +:+ t) = asciiLower s +:+ asciiLower t.
Proof. induction s as [|c s IH]; [done|]. simpl. by rewrite !app_cons, IH. Qed.

Lemma asciiLower_app_inv (s x y : string) :
  asciiLower s = x +:+ y →
  ∃ a b, s = a +:+ b ∧ asciiLower a = x ∧ asciiLower b = y.
Proof.
  revert s. induction x as [|c x IH]; intros s H.
  - by exists "", s.
  - destruct s as [|d s]; [by rewrite app_cons in H|].
    simpl in H. rewrite app_cons in H. injection H as Hc Hs.
    destruct (IH _ Hs) as (a & b & -> & <- & <-).
    exists (String d a), b. by rewrite app_cons; simpl; rewrite Hc.
Qed.

Lemma asciiLower_nil_inv (s : string) : asciiLower s = "" → s = "".
Proof. by destruct s. Qed.

(** Containment after lowering the letters of ASCII is the
    case-insensitive substring. *)
Lemma contains_asciiLower (s q : string) :
  contains (asciiLower s) (asciiLower q) ↔ ciContains s q.
Proof.
  unfold contains, ciContains. split.
  - intros (pre & post & H).
    apply asciiLower_app_inv in H as (a & r & -> & Ha & Hr).
    apply asciiLower_app_inv in Hr as (w & b & -> & Hw & Hb).
    by exists a, w, b.
  - intros (pre & w & post & -> & Hw).
    exists (asciiLower pre), (asciiLower post).
    by rewrite !asciiLower_app, Hw.
Qed.

Lemma ciContains_nonempty (s q : string) : ciContains s q → q ≠ "" → s ≠ "".
Proof.
  intros (p & w & x & -> & Hw) Hq Hs.
  destruct p; [|done]. destruct w; [|done].
  symmetry in Hw. by apply asciiLower_nil_inv in Hw.
Qed.

(** What [trim] removes: the white space of ASCII, the no-break space
    (U+00A0), the em space (U+2003) and the byte order mark (U+FEFF) among
    others, at both ends and nowhere else. *)
Example trim_examples :
  trim "  Main Office  " = "Main Office" ∧
  trim " " = "" ∧
  trim (bytes [9; 10; 11; 12; 13; 32]%N) = "" ∧
  trim (bytes [0xC2; 0xA0]%N) = "" ∧
  trim (bytes [0xE2; 0x80; 0x83]%N +:+ "a b" +:+ bytes [0xEF; 0xBB; 0xBF; 32]%N)
  = "a b" ∧
  trim (bytes [0xC3; 0xA0]%N) = bytes [0xC3; 0xA0]%N.
Proof. repeat split; reflexivity. Qed.

(** Code units: one for a letter with an accent (two bytes) and for a
    CJK character (three bytes), two for a character beyond the basic plane
    (four bytes). *)
Example stringLength_examples :
  stringLength "secret" = 6 ∧
  stringLength (bytes [0xC3; 0xA9]%N) = 1 ∧
  stringLength (bytes [0xE6; 0x97; 0xA5]%N) = 1 ∧
  stringLength (bytes [0xF0; 0x9F; 0x98; 0x80]%N) = 2.
Proof. repeat split; reflexivity. Qed.

(** A decoded escape is the byte it names; the bytes of a character have
    to be complete and well formed. *)
Example decodeURIComponent_examples :
  decodeURIComponent "log%69n" = Some "login" ∧
  decodeURIComponent "a%2Fb" = Some "a/b" ∧
  decodeURIComponent "caf%C3%A9" = Some ("caf" +:+ bytes [0xC3; 0xA9]%N) ∧
  decodeURIComponent "100%" = None ∧
  decodeURIComponent "%zz" = None ∧
  decodeURIComponent "%C3" = None ∧
  decodeURIComponent "%C0%AF" = None ∧
  decodeURIComponent "%ED%A0%80" = None.
Proof. repeat split; reflexivity. Qed.

(** [encodeURI] keeps the characters of an address and escapes a space and
    the bytes of a letter with an accent. *)
Example encodeURI_examples :
  encodeURI "https://hrd.example/documents/U1/selfie.png"
  = "https://hrd.example/documents/U1/selfie.png" ∧
  encodeURI "a b" = "a%20b" ∧
  encodeURI (bytes [0xC3; 0xA9]%N) = "%C3%A9".
Proof. repeat split; reflexivity. Qed.

End JsFacts.

(** ** Map view: the search filter *)

Module GeofenceMapViewFacts.
Import Js JsFacts GeofenceMapView.

Lemma filter_sublist {A} (f : A → bool) (l : list A) :
  sublist (List.filter f l) l.
Proof.
  induction l as [|x l IH]; simpl; [constructor|].
  destruct (f x); by constructor.
Qed.

Section Search.
Variable toLowerCase : string → string.

(** The test applied to one text field of a location. *)
Lemma field_match_spec (q field : string) :
  (if truthy field then includes (toLowerCase field) (trim (toLowerCase q))
   else false) = true ↔ fieldMatches toLowerCase q field.
Proof.
  unfold fieldMatches. destruct field as [|c field]; simpl truthy; cbv iota.
  - split; [done | by intros [? _]].
  - rewrite includes_spec. split; [done | by intros [_ ?]].
Qed.

(** The test applied to a location. *)
Lemma location_test_spec (q : string) (l : GeofenceLocation) :
  (if truthy (loc_name l)
   then includes (toLowerCase (loc_name l)) (trim (toLowerCase q)) else false)
  || (if truthy (loc_address l)
      then includes (toLowerCase (loc_address l)) (trim (toLowerCase q)) else false)
  = true ↔ matches toLowerCase q l.
Proof. unfold matches. by rewrite orb_true_iff, !field_match_spec. Qed.

(** A blank query (empty, or white space only) leaves the list unfiltered. *)
Lemma filteredLocations_blank (q : string) (locations : list GeofenceLocation) :
  trim q = "" → filteredLocations toLowerCase q locations = locations.
Proof. intros H. unfold filteredLocations. by rewrite H. Qed.

(** On ASCII text the match is the case-insensitive substring: as soon as
    [toLowerCase] lowers the letters of ASCII, a field in ASCII matches a
    query in ASCII that is not blank exactly when some part of the field is
    the trimmed query up to the case of its letters. *)
Lemma fieldMatches_ascii (q field : string) :
  lowersAscii toLowerCase →
  isAscii q = true → isAscii field = true → trim q ≠ "" →
  fieldMatches toLowerCase q field ↔ ciContains field (trim q).
Proof.
  intros Hlow Hq Hf Hne. unfold fieldMatches.
  rewrite (Hlow q Hq), (Hlow field Hf), trim_asciiLower, contains_asciiLower.
  split; [by intros [_ ?]|]. intros H. split; [|done].
  by eapply ciContains_nonempty.
Qed.

(** C5, as amended: a blank query (empty after removing leading and
    trailing white space) keeps every location; for any other query the
    filter keeps, in order, exactly the locations with a name or an address
    that is not empty and that, in lower case, contains the query in lower
    case with the white space around it removed.  Lower case is what
    [toLowerCase] makes of a string, whatever it does.  On ASCII text this
    is the case-insensitive substring: as soon as [toLowerCase] lowers the
    letters of ASCII, a query in ASCII keeps, of the locations with name and
    address in ASCII, exactly those where some part of the name or of the
    address is the trimmed query up to the case of its letters. *)
Theorem filteredLocations_trimmed_ci_search
    (locations : list GeofenceLocation) (q : string) :
  match trim q with
  | EmptyString => filteredLocations toLowerCase q locations = locations
  | String _ _ =>
      sublist (filteredLocations toLowerCase q locations) locations ∧
      (∀ l, l ∈ filteredLocations toLowerCase q locations ↔
            l ∈ locations ∧
            ((loc_name l ≠ "" ∧
              contains (toLowerCase (loc_name l)) (trim (toLowerCase q))) ∨
             (loc_address l ≠ "" ∧
              contains (toLowerCase (loc_address l)) (trim (toLowerCase q))))) ∧
      (lowersAscii toLowerCase → isAscii q = true →
       ∀ l, isAscii (loc_name l) = true → isAscii (loc_address l) = true →
            (l ∈ filteredLocations toLowerCase q locations ↔
             l ∈ locations ∧
             (ciContains (loc_name l) (trim q) ∨
              ciContains (loc_address l) (trim q))))
  end.
Proof.
  destruct (trim q) as [|c t] eqn:Hq.
  - by apply filteredLocations_blank.
  - assert (Hne : trim q ≠ "") by by rewrite Hq.
    assert (Hin : ∀ l, l ∈ filteredLocations toLowerCase q locations ↔
                       l ∈ locations ∧ matches toLowerCase q l).
    { intros l. unfold filteredLocations. rewrite Hq. cbn [truthy negb].
      rewrite list_elem_of_In, filter_In, <- list_elem_of_In.
      by rewrite location_test_spec. }
    split; [|split].
    + unfold filteredLocations. rewrite Hq. apply filter_sublist.
    + exact Hin.
    + intros Hlow Ha l Hn Had. rewrite Hin. unfold matches.
      rewrite !fieldMatches_ascii by done. by rewrite Hq.
Qed.

(** The query of the specification's example finds both the location named
    "Main Office" and the one whose address is "12 Office Park", and nothing
    else, as soon as [toLowerCase] lowers the letters of ASCII. *)
Lemma search_office :
  lowersAscii toLowerCase →
  filteredLocations toLowerCase "office"
    [sample "Main Office" "Jl. Sudirman 1"; sample "Warehouse" "12 Office Park";
     sample "Depot" "Harbour Road"]
  = [sample "Main Office" "Jl. Sudirman 1"; sample "Warehouse" "12 Office Park"].
Proof.
  intros Hlow. unfold filteredLocations, sample. simpl.
  rewrite !Hlow by reflexivity. reflexivity.
Qed.

(** A query of no-break spaces is blank, and "cafe" with an accent on the
    last letter, in capitals, finds the location of that name in small
    letters when [toLowerCase] maps the one to the other. *)
Lemma search_beyond_ascii (locations : list GeofenceLocation) :
  filteredLocations toLowerCase (bytes [0xC2; 0xA0; 0xC2; 0xA0]%N) locations
  = locations ∧
  (toLowerCase ("CAF" +:+ bytes [0xC3; 0x89]%N) = "caf" +:+ bytes [0xC3; 0xA9]%N →
   toLowerCase ("caf" +:+ bytes [0xC3; 0xA9]%N) = "caf" +:+ bytes [0xC3; 0xA9]%N →
   filteredLocations toLowerCase ("CAF" +:+ bytes [0xC3; 0x89]%N)
     [sample ("caf" +:+ bytes [0xC3; 0xA9]%N) ""]
   = [sample ("caf" +:+ bytes [0xC3; 0xA9]%N) ""]).
Proof.
  split; [done|]. intros Hq Hn. unfold filteredLocations, sample.
  cbn. cbn in Hq, Hn. by rewrite Hq, Hn.
Qed.

End Search.

(** The example of the specification, from the theorem: "office" finds the
    location named "Main Office" and the one at "12 Office Park". *)
Lemma filteredLocations_trimmed_ci_search_witness :
  lowersAscii asciiLower ∧
  sample "Main Office" "Jl. Sudirman 1" ∈
    filteredLocations asciiLower "office"
      [sample "Main Office" "Jl. Sudirman 1"; sample "Warehouse" "12 Office Park"] ∧
  sample "Warehouse" "12 Office Park" ∈
    filteredLocations asciiLower "office"
      [sample "Main Office" "Jl. Sudirman 1"; sample "Warehouse" "12 Office Park"].
Proof.
  pose proof (filteredLocations_trimmed_ci_search asciiLower
                [sample "Main Office" "Jl. Sudirman 1";
                 sample "Warehouse" "12 Office Park"] "office") as (_ & _ & H).
  specialize (H asciiLower_lowersAscii eq_refl).
  split; [exact asciiLower_lowersAscii|].
  split; apply H; try reflexivity.
  - split; [apply list_elem_of_here|]. left.
    exists "Main ", "Office", "". split; reflexivity.
  - split; [apply list_elem_of_further, list_elem_of_here|]. right.
    exists "12 ", "Office", " Park". split; reflexivity.
Defined.

(** C5 as stated fails: the non-empty query " " is blank, so the filter
    keeps a location although neither its name nor its address contains a
    space, whatever [toLowerCase] does. *)
Lemma filteredLocations_blank_query_counterexample :
  " " ≠ "" ∧
  filteredLocations asciiLower " " [sample "HQ" "Jakarta"]
  = [sample "HQ" "Jakarta"] ∧
  ¬ (∃ toLowerCase,
       ∀ l, l ∈ filteredLocations toLowerCase " " [sample "HQ" "Jakarta"] ↔
            l ∈ [sample "HQ" "Jakarta"] ∧
            (ciContains (loc_name l) " " ∨ ciContains (loc_address l) " ")).
Proof.
  split; [discriminate|]. split; [reflexivity|]. intros (lower & H).
  destruct (proj1 (H (sample "HQ" "Jakarta"))) as [_ [Hc | Hc]].
  - rewrite filteredLocations_blank by reflexivity. apply list_elem_of_here.
  - apply contains_asciiLower, includes_spec in Hc. discriminate Hc.
  - apply contains_asciiLower, includes_spec in Hc. discriminate Hc.
Qed.

End GeofenceMapViewFacts.

(** ** Routing *)

Module AppFacts.
Import App.

Example employees_unauthenticated :
  AppRoutes false {| user := None; isLoading := false |} "/employees"
  = Navigate "/login".
Proof. reflexivity. Qed.

Example employees_signed_in (u : User) :
  AppRoutes false {| user := Some u; isLoading := false |} "/Employees/"
  = Render EmployeesPage.
Proof. reflexivity. Qed.

Example login_is_public (auth : AuthContext) :
  AppRoutes false auth "/login" = Render LoginPage ∧
  AppRoutes false auth "/register" = Render RegisterForm.
Proof. split; reflexivity. Qed.

Example unknown_path (auth : AuthContext) :
  AppRoutes false auth "/payroll/2024" = Navigate "/".
Proof. reflexivity. Qed.

(** Escapes are decoded before the patterns are tried: an escaped letter
    is the letter, an escaped slash is no slash, and a pathname that cannot
    be decoded is taken as it is. *)
Example escaped_letters (auth : AuthContext) :
  decodePath "/log%69n" = "/login" ∧
  AppRoutes false auth "/log%69n" = Render LoginPage ∧
  AppRoutes false auth "/%65mployees" = ProtectedRoute auth (Render EmployeesPage) ∧
  decodePath "/login%2f" = "/login%2F" ∧
  AppRoutes false auth "/login%2f" = Navigate "/" ∧
  decodePath "/log%69n/%zz" = "/log%69n/%zz" ∧
  AppRoutes false auth "/log%69n/%zz" = Navigate "/" ∧
  decodePath "/caf%C3%A9" = "/caf" +:+ Js.bytes [0xC3; 0xA9]%N ∧
  decodePath "/caf%C3" = "/caf%C3".
Proof. repeat split; reflexivity. Qed.

(** The dot of the catch-all pattern matches no line terminator: such a
    pathname matches no route, and nothing is rendered. *)
Example line_terminator_matches_nothing (auth : AuthContext) :
  declared false "/a%0Ab" = false ∧
  matchPath Splat "/a%0Ab" = false ∧
  AppRoutes false auth "/a%0Ab" = NoElement.
Proof. repeat split; reflexivity. Qed.

Lemma matchPath_static (seg pathname : string) :
  matchPath (Static seg) pathname = true →
  trimTrailingSlashes
    (Js.asciiLower (decodePath (if Js.truthy pathname then pathname else "/")))
  = Js.asciiLower ("/" +:+ seg).
Proof. unfold matchPath. by rewrite String.eqb_eq. Qed.

Lemma matchPath_root (pathname : string) :
  matchPath Root pathname = true →
  trimTrailingSlashes
    (Js.asciiLower (decodePath (if Js.truthy pathname then pathname else "/")))
  = "" ∧
  Js.startsWith (decodePath (if Js.truthy pathname then pathname else "/")) "/"
  = true.
Proof. unfold matchPath. by rewrite andb_true_iff, String.eqb_eq. Qed.

(** A guarded route renders according to the authentication context. *)
Lemma protected_route_renders (tempo : bool) (auth : AuthContext)
    (pattern : PathPattern) (page : Page) (pathname : string) :
  (pattern, page) ∈ protectedPages →
  matchPath pattern pathname = true →
  AppRoutes tempo auth pathname = ProtectedRoute auth (Render page).
Proof.
  intros Hin Hm. unfold protectedPages in Hin.
  repeat (apply elem_of_cons in Hin as [Hin | Hin];
          [injection Hin as -> -> | ]); [..|by apply elem_of_nil in Hin].
  1: apply matchPath_root in Hm as [Hc Hs];
     unfold AppRoutes, routes, matchPath;
     rewrite Hc, Hs; reflexivity.
  all: apply matchPath_static in Hm as Hc;
     unfold AppRoutes, routes, matchPath;
     rewrite Hc; reflexivity.
Qed.

(** A pathname that no declared route matches falls through to the
    catch-all route, which renders the redirect when its pattern matches. *)
Lemma undeclared_path_redirects (tempo : bool) (auth : AuthContext)
    (pathname : string) :
  declared tempo pathname = false →
  AppRoutes tempo auth pathname
  = if matchPath Splat pathname then Navigate "/" else NoElement.
Proof.
  intros Hd. unfold declared in Hd.
  unfold AppRoutes, routes.
  destruct tempo; cbn [existsb app map fst protectedPages] in Hd;
    repeat (apply orb_false_iff in Hd as [? Hd]);
    cbn [List.find app fst snd];
    repeat match goal with H : matchPath _ _ = false |- _ => rewrite H; clear H end;
    by destruct (matchPath Splat pathname).
Qed.

(** The catch-all pattern matches the pathnames that, decoded, begin with
    a slash and hold no line terminator. *)
Lemma matchPath_splat (pathname : string) :
  matchPath Splat pathname = true ↔
  ∃ rest,
    decodePath (if Js.truthy pathname then pathname else "/") = "/" +:+ rest ∧
    Js.noLineTerminator rest = true.
Proof.
  unfold matchPath.
  generalize (decodePath (if Js.truthy pathname then pathname else "/")).
  intros [|c rest].
  - split; [done|]. intros (r & H & _). discriminate H.
  - destruct (Ascii.eqb_spec c "/") as [->|Hc].
    + split; [intros H; by exists rest|].
      intros (r & H & Hr). change ("/" +:+ r) with (String "/" r) in H.
      by injection H as ->.
    + split.
      * intros H. exfalso. by destruct c as [[] [] [] [] [] [] [] []].
      * intros (r & H & _). change ("/" +:+ r) with (String "/" r) in H.
        by injection H as ? _.
Qed.

(** C8, as amended: for every path of a guarded page (every declared path
    except /login and /register), the route renders a loading placeholder
    while the authentication state is loading; once it is loaded, it
    redirects to /login without a user and renders the page with one.  The
    login and register routes render without a session.  Of the pathnames
    that no declared route matches (with the Tempo flag set, the paths under
    /tempobook count as declared), those that the catch-all pattern matches
    redirect to "/", and the others (after decoding they hold a line
    terminator) render nothing.  A pathname is matched after the router has
    decoded its escapes, without regard to the case of ASCII letters or to
    trailing slashes. *)
Theorem routes_guarded_once_auth_loaded (tempo : bool) (auth : AuthContext)
    (pathname : string) :
  (∀ pattern page,
     (pattern, page) ∈ protectedPages →
     matchPath pattern pathname = true →
     AppRoutes tempo auth pathname =
       if isLoading auth then LoadingAuthentication
       else match user auth with
            | None => Navigate "/login"
            | Some _ => Render page
            end) ∧
  (matchPath (Static "login") pathname = true →
     AppRoutes tempo auth pathname = Render LoginPage) ∧
  (matchPath (Static "register") pathname = true →
     AppRoutes tempo auth pathname = Render RegisterForm) ∧
  (declared tempo pathname = false →
     AppRoutes tempo auth pathname
     = if matchPath Splat pathname then Navigate "/" else NoElement) ∧
  (matchPath Splat pathname = true ↔
     ∃ rest,
       decodePath (if Js.truthy pathname then pathname else "/") = "/" +:+ rest ∧
       Js.noLineTerminator rest = true).
Proof.
  split; [|split; [|split; [|split]]].
  - intros pattern page Hin Hm.
    by rewrite (protected_route_renders tempo auth pattern page pathname).
  - intros Hm. apply matchPath_static in Hm.
    unfold AppRoutes, routes, matchPath. by rewrite Hm.
  - intros Hm. apply matchPath_static in Hm.
    unfold AppRoutes, routes, matchPath. by rewrite Hm.
  - apply undeclared_path_redirects.
  - apply matchPath_splat.
Qed.

Lemma routes_guarded_once_auth_loaded_witness :
  ((Static "employees", EmployeesPage) ∈ protectedPages ∧
   matchPath (Static "employees") "/%65mployees" = true ∧
   AppRoutes false {| user := None; isLoading := false |} "/%65mployees"
     = Navigate "/login") ∧
  (matchPath (Static "login") "/log%69n" = true ∧
   AppRoutes false {| user := None; isLoading := false |} "/log%69n"
     = Render LoginPage) ∧
  (declared false "/payroll" = false ∧
   AppRoutes false {| user := None; isLoading := false |} "/payroll"
     = Navigate "/").
Proof.
  pose proof (routes_guarded_once_auth_loaded false
                {| user := None; isLoading := false |} "/%65mployees") as [H1 _].
  pose proof (routes_guarded_once_auth_loaded false
                {| user := None; isLoading := false |} "/log%69n") as (_ & H2 & _).
  pose proof (routes_guarded_once_auth_loaded false
                {| user := None; isLoading := false |} "/payroll")
    as (_ & _ & _ & H4 & _).
  assert (Hin : (Static "employees", EmployeesPage) ∈ protectedPages).
  { unfold protectedPages. apply list_elem_of_further, list_elem_of_here. }
  split; [|split].
  - split; [exact Hin|]. split; [reflexivity|].
    exact (H1 _ _ Hin eq_refl).
  - split; [reflexivity|]. exact (H2 eq_refl).
  - split; [reflexivity|]. exact (H4 eq_refl).
Defined.

(** C8 as stated fails while the authentication state is loading: without
    a user the guarded route /employees shows the placeholder instead of
    redirecting to /login, and with a user it shows the placeholder instead
    of the page. *)
Lemma protected_route_loading_counterexample :
  (AppRoutes false {| user := None; isLoading := true |} "/employees"
     = LoadingAuthentication ∧
   AppRoutes false {| user := None; isLoading := true |} "/employees"
     ≠ Navigate "/login") ∧
  (AppRoutes false
     {| user := Some {| user_id := "u1"; user_email := "a@b.c" |};
        isLoading := true |} "/employees"
     = LoadingAuthentication ∧
   AppRoutes false
     {| user := Some {| user_id := "u1"; user_email := "a@b.c" |};
        isLoading := true |} "/employees"
     ≠ Render EmployeesPage).
Proof. repeat split; discriminate. Qed.

End AppFacts.

(** ** The tables of the backend *)

Module SupabaseFacts.
Import Supabase.

Lemma list_filter_nil_bool {A} (f : A → bool) (l : list A) :
  (∀ x, x ∈ l → f x = false) → List.filter f l = [].
Proof.
  induction l as [|x l IH]; intros H; simpl; [done|].
  rewrite (H x) by apply list_elem_of_here.
  apply IH. intros y Hy. apply H. by apply list_elem_of_further.
Qed.

Lemma location_exists_spec (d : Db) (id : string) :
  location_exists d id = true ↔ ∃ r, r ∈ geofence_locations d ∧ row_id r = id.
Proof.
  unfold location_exists. rewrite existsb_exists. split.
  - intros (r & Hin & Heq). exists r. by rewrite list_elem_of_In, <- String.eqb_eq.
  - intros (r & Hin & Heq). exists r. by rewrite <- list_elem_of_In, String.eqb_eq.
Qed.

Lemma employee_exists_spec (d : Db) (id : string) :
  employee_exists d id = true ↔ ∃ e, e ∈ employees d ∧ emp_id e = id.
Proof.
  unfold employee_exists. rewrite existsb_exists. split.
  - intros (r & Hin & Heq). exists r. by rewrite list_elem_of_In, <- String.eqb_eq.
  - intros (r & Hin & Heq). exists r. by rewrite <- list_elem_of_In, String.eqb_eq.
Qed.

Lemma elem_of_filter_bool {A} (f : A → bool) (l : list A) (x : A) :
  x ∈ List.filter f l ↔ x ∈ l ∧ f x = true.
Proof. by rewrite !list_elem_of_In, filter_In. Qed.

(** After the delete, the location is gone. *)
Lemma delete_location_gone (id : string) (d : Db) :
  location_exists (delete_location id d) id = false.
Proof.
  apply not_true_is_false. rewrite location_exists_spec.
  intros (r & Hin & Heq). unfold delete_location in Hin. simpl in Hin.
  apply elem_of_filter_bool in Hin as [_ Hne].
  apply negb_true_iff, String.eqb_neq in Hne. done.
Qed.

(** And with it every assignment row that referenced it. *)
Lemma delete_location_cascade (id : string) (d : Db) (a : AssignmentRow) :
  references_locations d →
  a ∈ employee_location_assignments (delete_location id d) →
  asg_location_id a ≠ id.
Proof.
  intros Hfk Hin Heq. unfold delete_location in Hin. simpl in Hin.
  apply elem_of_filter_bool in Hin as [Hin Hcascade].
  apply negb_true_iff, not_true_iff_false in Hcascade. apply Hcascade.
  apply Hfk, location_exists_spec in Hin as (r & Hr & Hid).
  apply existsb_exists. exists r. split.
  - apply list_elem_of_In, elem_of_filter_bool. split; [done|].
    apply String.eqb_eq. congruence.
  - by apply String.eqb_eq.
Qed.

(** The rows of other locations stay. *)
Lemma delete_location_others (id : string) (d : Db) (a : AssignmentRow) :
  a ∈ employee_location_assignments d →
  asg_location_id a ≠ id →
  a ∈ employee_location_assignments (delete_location id d).
Proof.
  intros Hin Hne. unfold delete_location. simpl.
  apply elem_of_filter_bool. split; [done|].
  apply negb_true_iff, not_true_iff_false. rewrite existsb_exists.
  intros (r & Hr & Heq). apply list_elem_of_In, elem_of_filter_bool in Hr as [_ Hr].
  apply String.eqb_eq in Hr, Heq. congruence.
Qed.

(** *** The assignment table under the statements of a save *)

Lemma pairs_update_location (id : string) (p : LocationData) (d : Db) :
  assignment_pairs (update_location id p d).2 = assignment_pairs d.
Proof. reflexivity. Qed.

Lemma location_exists_update (id : string) (p : LocationData) (d : Db) (x : string) :
  location_exists (update_location id p d).2 x = location_exists d x.
Proof.
  unfold location_exists, update_location. simpl.
  induction (geofence_locations d) as [|r rows IH]; simpl; [done|].
  rewrite IH. f_equal. by destruct (String.eqb (row_id r) id).
Qed.

Lemma map_filter_comm {A B} (g : A → B) (f : B → bool) (l : list A) :
  map g (List.filter (λ a, f (g a)) l) = List.filter f (map g l).
Proof.
  induction l as [|a l IH]; simpl; [done|].
  destruct (f (g a)); simpl; by rewrite IH.
Qed.

Lemma pairs_delete_of_location (id : string) (d : Db) :
  assignment_pairs (delete_assignments_of_location id d)
  = List.filter (λ p, negb (String.eqb p.2 id)) (assignment_pairs d).
Proof.
  unfold assignment_pairs, delete_assignments_of_location. simpl.
  by rewrite <- map_filter_comm.
Qed.

Lemma pairs_delete_of_employee (id : string) (d : Db) :
  assignment_pairs (delete_assignments_of_employee id d)
  = List.filter (λ p, negb (String.eqb p.1 id)) (assignment_pairs d).
Proof.
  unfold assignment_pairs, delete_assignments_of_employee. simpl.
  by rewrite <- map_filter_comm.
Qed.

Lemma pairs_new_assignments (env : Env) (n : nat) (rows : list (string * string)) :
  map pair_of (new_assignments env n rows) = rows.
Proof.
  revert n. induction rows as [|[e l] rows IH]; intros n; simpl; [done|].
  by rewrite IH.
Qed.

Lemma insert_assignments_allowed (env : Env) (rows : list (string * string)) (d : Db) :
  insert_allowed rows d = true →
  ∃ d', insert_assignments env rows d = (None, d') ∧
        assignment_pairs d' = assignment_pairs d ++ rows ∧
        employees d' = employees d ∧
        geofence_locations d' = geofence_locations d.
Proof.
  intros H. unfold insert_assignments. rewrite H. eexists. split; [done|].
  split; [|done]. unfold assignment_pairs. simpl.
  by rewrite map_app, pairs_new_assignments.
Qed.

Lemma insert_assignments_unique (env : Env) (rows : list (string * string)) (d : Db) :
  unique_pairs d → unique_pairs (insert_assignments env rows d).2.
Proof.
  intros Hd. unfold insert_assignments.
  destruct (insert_allowed rows d) eqn:H; [|done]. simpl.
  unfold insert_allowed in H. apply andb_true_iff in H as [_ H].
  apply bool_decide_eq_true in H. unfold unique_pairs, assignment_pairs. simpl.
  by rewrite map_app, pairs_new_assignments.
Qed.

Lemma NoDup_filter_bool {A} (f : A → bool) (l : list A) :
  NoDup l → NoDup (List.filter f l).
Proof.
  induction 1 as [|x l Hx Hl IH]; simpl; [constructor|].
  destruct (f x); [|done]. constructor; [|done].
  rewrite elem_of_filter_bool. tauto.
Qed.


Lemma NoDup_map_inj {A B} (g : A → B) (l : list A) :
  (∀ x y, g x = g y → x = y) → NoDup l → NoDup (map g l).
Proof.
  intros Hg. induction 1 as [|x l Hx Hl IH]; simpl; constructor; [|done].
  rewrite list_elem_of_In, in_map_iff. intros (y & Hy & Hin).
  apply Hg in Hy as ->. by apply list_elem_of_In in Hin.
Qed.

Lemma filter_filter_bool {A} (f : A → bool) (l : list A) :
  List.filter f (List.filter f l) = List.filter f l.
Proof.
  induction l as [|x l IH]; simpl; [done|].
  destruct (f x) eqn:E; simpl; [|done]. by rewrite E, IH.
Qed.

(** Replacing the rows of location [id] by one row per member of a
    duplicate-free selection keeps the pairs unique. *)
Lemma replaced_pairs_NoDup (pairs : list (string * string)) (id : string)
    (sel : list string) :
  NoDup pairs → NoDup sel →
  NoDup (List.filter (λ p, negb (String.eqb p.2 id)) pairs
         ++ map (λ e, (e, id)) sel).
Proof.
  intros Hp Hs. apply NoDup_app. split; [by apply NoDup_filter_bool|]. split.
  - intros [e l] Hin Hrow. apply elem_of_filter_bool in Hin as [_ Hne].
    apply list_elem_of_In, in_map_iff in Hrow as (e' & Heq & _).
    injection Heq as _ <-. simpl in Hne. by rewrite String.eqb_refl in Hne.
  - apply NoDup_map_inj; [|done]. by intros x y [=].
Qed.

(** The same with the rows of one employee replaced. *)
Lemma replaced_pairs_NoDup_employee (pairs : list (string * string)) (id : string)
    (sel : list string) :
  NoDup pairs → NoDup sel →
  NoDup (List.filter (λ p, negb (String.eqb p.1 id)) pairs
         ++ map (λ l, (id, l)) sel).
Proof.
  intros Hp Hs. apply NoDup_app. split; [by apply NoDup_filter_bool|]. split.
  - intros [e l] Hin Hrow. apply elem_of_filter_bool in Hin as [_ Hne].
    apply list_elem_of_In, in_map_iff in Hrow as (l' & Heq & _).
    injection Heq as <- _. simpl in Hne. by rewrite String.eqb_refl in Hne.
  - apply NoDup_map_inj; [|done]. by intros x y [=].
Qed.

(** Replacing twice is replacing once. *)
Lemma replace_twice (pairs rows : list (string * string)) (f : string * string → bool) :
  Forall (λ p, f p = false) rows →
  List.filter f (List.filter f pairs ++ rows) ++ rows
  = List.filter f pairs ++ rows.
Proof.
  intros Hrows. rewrite List.filter_app, filter_filter_bool.
  rewrite (list_filter_nil_bool f rows), app_nil_r; [done|].
  by apply Forall_forall.
Qed.

Lemma insert_assignments_rejected (env : Env) (rows : list (string * string)) (d : Db) :
  insert_allowed rows d = false →
  ∃ e, insert_assignments env rows d = (Some e, d).
Proof. intros H. unfold insert_assignments. rewrite H. eauto. Qed.

(** The checks of the insert look at the employees, the location ids and
    the pairs only. *)
Lemma insert_allowed_ext (rows : list (string * string)) (d d' : Db) :
  employees d' = employees d →
  (∀ x, location_exists d' x = location_exists d x) →
  assignment_pairs d' = assignment_pairs d →
  insert_allowed rows d' = insert_allowed rows d.
Proof.
  intros He Hl Hp. unfold insert_allowed. rewrite Hp. f_equal.
  induction rows as [|r rows IH]; simpl; [done|].
  rewrite IH, Hl. unfold employee_exists. by rewrite He.
Qed.

(** A duplicate-free selection of existing employees for an existing
    location passes the checks of the insert that follows the delete. *)
Lemma save_selection_allowed (d : Db) (id : string) (sel : list string)
    (p : LocationData) :
  unique_pairs d → NoDup sel →
  Forall (λ e, employee_exists d e = true) sel →
  location_exists d id = true →
  insert_allowed (map (λ e, (e, id)) sel)
    (delete_assignments_of_location id (update_location id p d).2) = true.
Proof.
  intros Hu Hs He Hl. unfold insert_allowed. apply andb_true_iff. split.
  - apply forallb_forall. intros [e l] Hin.
    apply in_map_iff in Hin as (e' & [= <- <-] & Hin).
    apply andb_true_iff. split.
    + rewrite Forall_forall in He. apply He. by apply list_elem_of_In.
    + change (location_exists (update_location id p d).2 id = true).
      by rewrite location_exists_update.
  - apply bool_decide_eq_true.
    rewrite pairs_delete_of_location, pairs_update_location.
    by apply replaced_pairs_NoDup.
Qed.

(** *** The constraints are invariants of the statements *)

Lemma delete_location_unique (id : string) (d : Db) :
  unique_pairs d → unique_pairs (delete_location id d).
Proof.
  unfold unique_pairs, assignment_pairs, delete_location. simpl. intros H.
  revert H. generalize (employee_location_assignments d). intros l.
  induction l as [|a l IH]; simpl; [done|].
  intros [Ha Hl]%NoDup_cons. specialize (IH Hl).
  destruct (negb _); [|done]. simpl. constructor; [|done].
  intros Hin. apply Ha. apply list_elem_of_In, in_map_iff in Hin as (b & Hb & Hin).
  apply list_elem_of_In, in_map_iff. exists b. split; [done|].
  by apply filter_In in Hin as [Hin _].
Qed.

Lemma delete_location_references (id : string) (d : Db) :
  references_locations d → references_locations (delete_location id d).
Proof.
  intros Hfk a Hin.
  pose proof (delete_location_cascade id d a Hfk Hin) as Hne.
  unfold delete_location in Hin. simpl in Hin.
  apply elem_of_filter_bool in Hin as [Hin _].
  apply Hfk, location_exists_spec in Hin as (r & Hr & Hid).
  apply location_exists_spec. exists r. split; [|done].
  unfold delete_location. simpl. apply elem_of_filter_bool. split; [done|].
  apply negb_true_iff, String.eqb_neq. congruence.
Qed.

Lemma delete_assignments_of_location_unique (id : string) (d : Db) :
  unique_pairs d → unique_pairs (delete_assignments_of_location id d).
Proof.
  unfold unique_pairs. rewrite pairs_delete_of_location.
  apply NoDup_filter_bool.
Qed.

Lemma delete_assignments_of_employee_unique (id : string) (d : Db) :
  unique_pairs d → unique_pairs (delete_assignments_of_employee id d).
Proof.
  unfold unique_pairs. rewrite pairs_delete_of_employee.
  apply NoDup_filter_bool.
Qed.

Lemma insert_assignments_references (env : Env) (rows : list (string * string))
    (d : Db) :
  references_locations d →
  references_locations (insert_assignments env rows d).2.
Proof.
  intros Hfk. unfold insert_assignments.
  destruct (insert_allowed rows d) eqn:H; [|done]. simpl.
  unfold insert_allowed in H. apply andb_true_iff in H as [H _].
  rewrite forallb_forall in H.
  intros a [Ha | Ha]%elem_of_app; [by apply Hfk|].
  assert (Hp : In (pair_of a) rows).
  { rewrite <- (pairs_new_assignments env (uuid_count d) rows).
    apply in_map. by apply list_elem_of_In. }
  apply H in Hp. by apply andb_true_iff in Hp as [_ Hp].
Qed.

(** The employees assigned to a location, as the dialog fetches them, are
    pairwise different. *)
Lemma NoDup_fst_of_location (pairs : list (string * string)) (id : string) :
  NoDup pairs →
  NoDup (map fst (List.filter (λ p, String.eqb p.2 id) pairs)).
Proof.
  induction 1 as [|[e l] pairs Hp Hnd IH]; simpl; [constructor|].
  destruct (String.eqb l id) eqn:E; [|done]. simpl. constructor; [|done].
  apply String.eqb_eq in E as ->.
  rewrite list_elem_of_In, in_map_iff. intros ([e' l'] & He & Hin).
  simpl in He. subst e'. apply filter_In in Hin as [Hin Hl].
  simpl in Hl. apply String.eqb_eq in Hl as ->.
  by apply Hp, list_elem_of_In.
Qed.

Lemma NoDup_snd_of_employee (pairs : list (string * string)) (id : string) :
  NoDup pairs →
  NoDup (map snd (List.filter (λ p, String.eqb p.1 id) pairs)).
Proof.
  induction 1 as [|[e l] pairs Hp Hnd IH]; simpl; [constructor|].
  destruct (String.eqb e id) eqn:E; [|done]. simpl. constructor; [|done].
  apply String.eqb_eq in E as ->.
  rewrite list_elem_of_In, in_map_iff. intros ([e' l'] & He & Hin).
  simpl in He. subst l'. apply filter_In in Hin as [Hin Hl].
  simpl in Hl. apply String.eqb_eq in Hl as ->.
  by apply Hp, list_elem_of_In.
Qed.

Lemma select_assignments_of_employee_NoDup (id : string) (d : Db) :
  unique_pairs d → NoDup (select_assignments_of_employee id d).
Proof.
  intros H. apply (NoDup_snd_of_employee _ id) in H.
  unfold select_assignments_of_employee, assignment_pairs in *.
  rewrite <- (map_filter_comm pair_of (λ p, String.eqb p.1 id)), map_map in H.
  done.
Qed.

Lemma employees_assigned_NoDup (id : string) (d : Db) :
  unique_pairs d →
  NoDup (map asg_employee_id
           (List.filter (λ a, String.eqb (asg_location_id a) id)
              (employee_location_assignments d))).
Proof.
  intros H. apply (NoDup_fst_of_location _ id) in H.
  unfold assignment_pairs in *.
  rewrite <- (map_filter_comm pair_of (λ p, String.eqb p.2 id)), map_map in H.
  done.
Qed.

End SupabaseFacts.

(** ** The effect monad *)

Module ClientFacts.
Import Supabase Client.

Lemma run_bind {A B} (m : M A) (f : A → M B) (w : World) :
  (m ≫= f) w =
  match m w with
  | (Returned a, w') => f a w'
  | (Thrown e, w') => (Thrown e, w')
  end.
Proof. reflexivity. Qed.

Lemma run_ret {A} (a : A) (w : World) : (mret a : M A) w = (Returned a, w).
Proof. reflexivity. Qed.

Section Preserves.
Context {X : Type} (f : World → X).

Lemma preserves_ret {A} (a : A) : preserves f (mret a : M A).
Proof. by intros w. Qed.

Lemma preserves_throw {A} (e : Error) : preserves f (throw e : M A).
Proof. by intros w. Qed.

Lemma preserves_bind {A B} (m : M A) (k : A → M B) :
  preserves f m → (∀ a, preserves f (k a)) → preserves f (m ≫= k).
Proof.
  intros Hm Hk w. rewrite run_bind. specialize (Hm w).
  destruct (m w) as [[a|e] w']; simpl in *; [|done].
  by rewrite Hk.
Qed.

Lemma preserves_try_catch {A} (m : M A) (h : Error → M A) :
  preserves f m → (∀ e, preserves f (h e)) → preserves f (try_catch m h).
Proof.
  intros Hm Hh w. unfold try_catch. specialize (Hm w).
  destruct (m w) as [[a|e] w']; simpl in *; [done|].
  by rewrite Hh.
Qed.

Lemma preserves_modify (g : World → World) :
  (∀ w, f (g w) = f w) → preserves f (modify g).
Proof. intros Hg w. apply Hg. Qed.

Lemma preserves_throw_if_error {A} (r : Response A) :
  preserves f (throw_if_error r).
Proof. unfold throw_if_error. destruct (error r); by intros w. Qed.

Lemma preserves_promise_all_map {A B} (g : A → M B) (xs : list A) :
  (∀ x, preserves f (g x)) → preserves f (promise_all_map g xs).
Proof.
  intros Hg. induction xs as [|x xs IH]; simpl.
  - apply preserves_ret.
  - apply preserves_bind; [apply Hg|]. intros y.
    apply preserves_bind; [apply IH|]. intros ys. apply preserves_ret.
Qed.

End Preserves.

Lemma preserves_db_console (e : ConsoleEntry) : preserves db (modify (add_console e)).
Proof. by apply preserves_modify. Qed.

Lemma preserves_db_toast (t : Toast) : preserves db (toast t).
Proof. by apply preserves_modify. Qed.

(** A query that only reads leaves the database unchanged. *)
Lemma preserves_db_read {A} (env : Env) (r : Request) (run : Db → Response A) :
  preserves db (query env r (λ d, (run d, d))).
Proof. intros w. unfold query. by destruct (backend_error env r). Qed.

(** What is left of the database after [try { q; k } catch { h }] when only
    [q] writes. *)
Lemma db_after_first_query {A B} (q : M A) (k : A → M B) (h : Error → M B)
    (w : World) :
  (∀ a, preserves db (k a)) → (∀ e, preserves db (h e)) →
  db (try_catch (q ≫= k) h w).2 = db (q w).2.
Proof.
  intros Hk Hh. unfold try_catch. rewrite run_bind.
  destruct (q w) as [[a|e] w1]; simpl.
  - specialize (Hk a w1). destruct (k a w1) as [[b|e] w2]; simpl in *; [done|].
    by rewrite Hh.
  - apply Hh.
Qed.

(** A query whose statement leaves [g] of the database alone leaves it
    alone whatever the backend answers. *)
Lemma preserves_query {A X} (g : Db → X) (env : Env) (r : Request)
    (run : Db → Response A * Db) :
  (∀ d, g (run d).2 = g d) →
  preserves (λ w, g (db w)) (query env r run).
Proof.
  intros Hrun w. unfold query. destruct (backend_error env r); [done|].
  change (db (add_request r w)) with (db w). specialize (Hrun (db w)).
  by destruct (run (db w)).
Qed.

(** A [try] whose handler returns always returns. *)
Lemma try_catch_returns {A} (m : M A) (h : Error → M A) (w : World) :
  (∀ e w1, ∃ a w2, h e w1 = (Returned a, w2)) →
  ∃ a w', try_catch m h w = (Returned a, w').
Proof.
  intros Hh. unfold try_catch. destruct (m w) as [[a|e] w1]; eauto.
Qed.

(** *** Rules for [returns] *)

Lemma returns_ret {A} (a : A) (w : World) (P : A → World → Prop) :
  P a w → returns (mret a) w P.
Proof. intros H. by exists a, w. Qed.

Lemma returns_bind {A B} (m : M A) (k : A → M B) (w : World)
    (P : B → World → Prop) :
  returns m w (λ a w1, returns (k a) w1 P) → returns (m ≫= k) w P.
Proof.
  intros (a & w1 & Hm & b & w2 & Hk & HP). exists b, w2.
  by rewrite run_bind, Hm.
Qed.

Lemma returns_modify (g : World → World) (w : World) (P : () → World → Prop) :
  P () (g w) → returns (modify g) w P.
Proof. intros H. by exists (), (g w). Qed.

Lemma returns_try_catch {A} (m : M A) (h : Error → M A) (w : World)
    (P : A → World → Prop) :
  returns m w P → returns (try_catch m h) w P.
Proof.
  intros (a & w' & Hm & HP). exists a, w'. unfold try_catch. by rewrite Hm.
Qed.

Lemma returns_query {A} (env : Env) (r : Request) (run : Db → Response A * Db)
    (w : World) (P : Response A → World → Prop) :
  backend_error env r = None →
  P (run (db w)).1 (set_db (run (db w)).2 (add_request r w)) →
  returns (query env r run) w P.
Proof.
  intros He HP. unfold returns, query. rewrite He.
  change (db (add_request r w)) with (db w).
  destruct (run (db w)) as [resp d]. eauto.
Qed.

Lemma returns_throw_if_ok {A} (r : Response A) (w : World)
    (P : () → World → Prop) :
  error r = None → P () w → returns (throw_if_error r) w P.
Proof. intros He HP. unfold throw_if_error. rewrite He. by apply returns_ret. Qed.

Lemma throws_bind_l {A B} (m : M A) (k : A → M B) (w : World)
    (Q : Error → World → Prop) :
  throws m w Q → throws (m ≫= k) w Q.
Proof.
  intros (e & w' & Hm & HQ). exists e, w'. by rewrite run_bind, Hm.
Qed.

Lemma throws_bind_r {A B} (m : M A) (k : A → M B) (w : World)
    (Q : Error → World → Prop) :
  returns m w (λ a w1, throws (k a) w1 Q) → throws (m ≫= k) w Q.
Proof.
  intros (a & w1 & Hm & e & w2 & Hk & HQ). exists e, w2.
  by rewrite run_bind, Hm.
Qed.

Lemma throws_throw_if_error {A} (r : Response A) (e : Error) (w : World)
    (Q : Error → World → Prop) :
  error r = Some e → Q e w → throws (throw_if_error r) w Q.
Proof. intros He HQ. unfold throw_if_error. rewrite He. by exists e, w. Qed.

Lemma returns_try_catch_handler {A} (m : M A) (h : Error → M A) (w : World)
    (P : A → World → Prop) :
  throws m w (λ e w1, returns (h e) w1 P) → returns (try_catch m h) w P.
Proof.
  intros (e & w1 & Hm & a & w2 & Hh & HP). exists a, w2.
  unfold try_catch. by rewrite Hm.
Qed.

Lemma returns_run {A} (m : M A) (w : World) (P : A → World → Prop) :
  returns m w P → ∃ a, (m w).1 = Returned a ∧ P a (m w).2.
Proof. intros (a & w' & E & HP). exists a. by rewrite E. Qed.

End ClientFacts.

(** ** The locations page *)

Module LocationsPageFacts.
Import Supabase Client ClientFacts LocationsPage.

Lemma attach_employees_db (env : Env) (location : GeofenceLocation) :
  preserves db (attach_employees env location).
Proof.
  unfold attach_employees. apply preserves_bind.
  - apply (preserves_db_read env _ (λ d, ok (select_assignments_of_location _ d))).
  - intros r. destruct (error r).
    + apply preserves_bind; [apply preserves_db_console|].
      intros _. apply preserves_ret.
    + destruct (data r); [apply preserves_ret | apply preserves_throw].
Qed.

(** Listing the locations only reads. *)
Lemma fetchLocations_db (env : Env) (st : State) :
  preserves db (fetchLocations env st).
Proof.
  unfold fetchLocations. apply preserves_bind; [|intros; apply preserves_ret].
  apply preserves_try_catch.
  - apply preserves_bind.
    { apply (preserves_db_read env _ (λ d, ok (select_locations d))). }
    intros r. apply preserves_bind; [apply preserves_throw_if_error|].
    intros _. apply preserves_bind; [|intros; apply preserves_ret].
    apply preserves_promise_all_map, attach_employees_db.
  - intros e. apply preserves_bind; [apply preserves_db_console|].
    intros _. apply preserves_bind; [apply preserves_db_toast|].
    intros _. apply preserves_ret.
Qed.

Lemma attach_employees_run (env : Env) (d : Db) (r : LocationRow) (w : World) :
  db w = d →
  ∃ w', attach_employees env (of_row r) w = (Returned (listed env d r), w') ∧
        db w' = d ∧ toasts w' = toasts w ∧ storage w' = storage w ∧
        requests w' = requests w ++ [SelectAssignmentsOfLocation (row_id r)].
Proof.
  intros <-. unfold attach_employees, listed, from_assignments_select_eq_location.
  rewrite run_bind. unfold query. simpl loc_id.
  destruct (backend_error env (SelectAssignmentsOfLocation (row_id r))); simpl;
    eauto 10.
Qed.

Lemma promise_all_map_attach_run (env : Env) (d : Db) (rows : list LocationRow)
    (w : World) :
  db w = d →
  ∃ w', promise_all_map (attach_employees env) (map of_row rows) w
          = (Returned (map (listed env d) rows), w') ∧
        db w' = d ∧ toasts w' = toasts w ∧ storage w' = storage w ∧
        requests w'
          = requests w ++ map (λ r, SelectAssignmentsOfLocation (row_id r)) rows.
Proof.
  revert w. induction rows as [|r rows IH]; intros w Hd; simpl.
  - exists w. by rewrite app_nil_r.
  - destruct (attach_employees_run env d r w Hd)
      as (w1 & E1 & Hd1 & Ht1 & Hs1 & Hr1).
    destruct (IH w1 Hd1) as (w2 & E2 & Hd2 & Ht2 & Hs2 & Hr2).
    exists w2. rewrite run_bind, E1, run_bind, E2.
    split; [done|]. split; [done|]. split; [congruence|]. split; [congruence|].
    by rewrite Hr2, Hr1, <- app_assoc.
Qed.

(** [fetchLocations] when the location query succeeds ... *)
Lemma fetchLocations_run_ok (env : Env) (st : State) (w : World) :
  backend_error env SelectLocations = None →
  ∃ w', fetchLocations env st w
          = (Returned
               (setIsLoading false
                  (setLocations
                     (map (listed env (db w)) (select_locations (db w)))
                     (setIsLoading true st))), w') ∧
        db w' = db w ∧ toasts w' = toasts w ∧ storage w' = storage w ∧
        requests w' = requests w ++ fetchRequests (db w).
Proof.
  intros He. unfold fetchLocations.
  destruct (promise_all_map_attach_run env (db w) (select_locations (db w))
              (add_request SelectLocations w) eq_refl)
    as (w1 & E1 & Hd1 & Ht1 & Hs1 & Hr1).
  assert (Hr : requests w1 = requests w ++ fetchRequests (db w)).
  { rewrite Hr1. unfold fetchRequests. simpl. by rewrite <- app_assoc. }
  exists w1. rewrite run_bind. unfold try_catch.
  rewrite run_bind. unfold from_geofence_locations_select, query. rewrite He.
  cbn [ok data error throw_if_error default].
  rewrite run_bind, run_ret, run_bind.
  change (db (add_request SelectLocations w)) with (db w).
  replace (set_db (db w) (add_request SelectLocations w))
    with (add_request SelectLocations w) by by destruct w.
  unfold id. by rewrite E1.
Qed.

(** ... and when it fails. *)
Lemma fetchLocations_run_failed (env : Env) (st : State) (w : World) (e : Error) :
  backend_error env SelectLocations = Some e →
  ∃ w', fetchLocations env st w
          = (Returned (setIsLoading false (setIsLoading true st)), w') ∧
        db w' = db w ∧ toasts w' = toasts w ++ [load_failed_toast] ∧
        storage w' = storage w ∧
        requests w' = requests w ++ [SelectLocations].
Proof.
  intros He. unfold fetchLocations. eexists. rewrite run_bind. unfold try_catch.
  rewrite run_bind. unfold from_geofence_locations_select, query. rewrite He.
  cbn [failed data error throw_if_error]. unfold throw.
  split; [reflexivity|]. done.
Qed.

Global Instance newer_first_trans : Transitive newer_first.
Proof. intros a b c. unfold newer_first. lia. Qed.

Global Instance newer_first_total : Total newer_first.
Proof. intros a b. unfold newer_first. lia. Qed.

Lemma listed_assigned_employees (env : Env) (d : Db) (r : LocationRow) :
  loc_id (listed env d r) = row_id r ∧
  loc_name (listed env d r) = row_name r ∧
  loc_address (listed env d r) = row_address r ∧
  loc_created_at (listed env d r) = row_created_at r ∧
  assigned_employees (listed env d r) =
    match backend_error env (SelectAssignmentsOfLocation (row_id r)) with
    | Some _ => None
    | None => Some (employees_assigned_to d (row_id r))
    end.
Proof.
  unfold listed, employees_assigned_to, select_assignments_of_location.
  destruct (backend_error env (SelectAssignmentsOfLocation (row_id r)));
    simpl; [done|].
  by rewrite map_map.
Qed.

(** The entry of a row carries the columns of the row; with its
    assignments fetched, the employee ids of the assignment rows of the
    location and, next to each id, the joined employee; without them,
    neither of the two properties. *)
Lemma listed_entry (env : Env) (d : Db) (r : LocationRow) :
  let l := listed env d r in
  loc_id l = row_id r ∧ loc_name l = row_name r ∧
  loc_address l = row_address r ∧
  loc_latitude l = row_latitude r ∧ loc_longitude l = row_longitude r ∧
  loc_radius l = row_radius r ∧
  loc_created_at l = row_created_at r ∧ loc_updated_at l = row_updated_at r ∧
  match backend_error env (SelectAssignmentsOfLocation (row_id r)) with
  | Some _ => assigned_employees l = None ∧ employee_details l = None
  | None =>
      assigned_employees l = Some (employees_assigned_to d (row_id r)) ∧
      employee_details l
      = Some (map (find_employee d) (employees_assigned_to d (row_id r)))
  end.
Proof.
  unfold listed, employees_assigned_to, select_assignments_of_location.
  destruct (backend_error env (SelectAssignmentsOfLocation (row_id r)));
    simpl; [done|].
  by rewrite !map_map.
Qed.

(** C4: [fetchLocations] always returns to the page and only reads.  When
    the location query succeeds, the list is ordered by creation time,
    newest first, and its entries are, one for one, the rows of
    [geofence_locations]: an entry carries the id, name, address,
    coordinates, radius and times of its row and, as [assigned_employees],
    the employee ids of the assignment rows of the location (in the order of
    the answer, which the query does not fix), with the joined employees
    next to them as [employee_details].  A location whose assignment fetch
    fails is listed with the columns of its row and without the two
    properties, while the others are listed as usual, and no toast is shown.
    Only when the location query itself fails, the list is left as it was
    and the error toast is shown. *)
Theorem fetchLocations_lists_newest_first (env : Env) (st : State) (w : World) :
  ∃ st' w',
    fetchLocations env st w = (Returned st', w') ∧
    isLoading st' = false ∧
    db w' = db w ∧
    match backend_error env SelectLocations with
    | None =>
        StronglySorted (λ a b, (loc_created_at b ≤ loc_created_at a)%Z)
          (locations st') ∧
        ∃ rows,
          rows ≡ₚ geofence_locations (db w) ∧
          StronglySorted newer_first rows ∧
          Forall2 (λ r l,
            loc_id l = row_id r ∧ loc_name l = row_name r ∧
            loc_address l = row_address r ∧
            loc_latitude l = row_latitude r ∧
            loc_longitude l = row_longitude r ∧
            loc_radius l = row_radius r ∧
            loc_created_at l = row_created_at r ∧
            loc_updated_at l = row_updated_at r ∧
            match backend_error env (SelectAssignmentsOfLocation (row_id r)) with
            | Some _ => assigned_employees l = None ∧ employee_details l = None
            | None =>
                ∃ ids,
                  ids ≡ₚ employees_assigned_to (db w) (row_id r) ∧
                  assigned_employees l = Some ids ∧
                  employee_details l = Some (map (find_employee (db w)) ids)
            end) rows (locations st') ∧
          toasts w' = toasts w
    | Some _ =>
        locations st' = locations st ∧
        toasts w' = toasts w ++ [load_failed_toast]
    end.
Proof.
  destruct (backend_error env SelectLocations) as [e|] eqn:He.
  - destruct (fetchLocations_run_failed env st w e He) as (w' & E & Hd & Ht & _ & Hr).
    eexists _, w'. split; [exact E|]. done.
  - destruct (fetchLocations_run_ok env st w He) as (w' & E & Hd & Ht & _ & Hr).
    eexists _, w'. split; [exact E|]. split; [done|]. split; [exact Hd|].
    split.
    { cbn [locations setLocations setIsLoading].
      apply (StronglySorted_fmap _ newer_first).
      - intros r1 r2 H12.
        destruct (listed_entry env (db w) r1) as (_&_&_&_&_&_&->&_).
        by destruct (listed_entry env (db w) r2) as (_&_&_&_&_&_&->&_).
      - apply (StronglySorted_merge_sort _). }
    exists (select_locations (db w)). unfold select_locations.
    split; [apply merge_sort_Permutation|].
    split; [apply (StronglySorted_merge_sort _)|].
    split; [|done].
    cbn [locations setLocations setIsLoading].
    apply Forall2_fmap_r, Forall_Forall2_diag, Forall_forall. intros r _.
    destruct (listed_entry env (db w) r) as (?&?&?&?&?&?&?&?&Hl).
    repeat (split; [done|]).
    destruct (backend_error env (SelectAssignmentsOfLocation (row_id r)));
      [done|].
    destruct Hl as [Ha Hd']. by eexists.
Qed.

Lemma returns_fetchLocations (env : Env) (st : State) (w : World)
    (P : State → World → Prop) :
  backend_error env SelectLocations = None →
  (∀ w', db w' = db w → toasts w' = toasts w → storage w' = storage w →
         requests w' = requests w ++ fetchRequests (db w) →
         P (setIsLoading false
              (setLocations (map (listed env (db w)) (select_locations (db w)))
                 (setIsLoading true st))) w') →
  returns (fetchLocations env st) w P.
Proof.
  intros He HP.
  destruct (fetchLocations_run_ok env st w He) as (w' & E & Hd & Ht & Hs & Hr).
  eexists _, w'. split; [exact E|]. by apply HP.
Qed.

Lemma has_selection_false (id : string) (a : option (list string)) :
  has_selection a = false → assignments_for id a = [].
Proof. by destruct a as [[|]|]. Qed.

(** The update branch of [handleSubmitLocation] when the backend accepts
    every statement: the assignment rows of the location are replaced by the
    selection, everything else in the table stays. *)
Lemma handleSubmitLocation_update_returns (env : Env) (st : State)
    (selected : GeofenceLocation) (fd : FormData) (w : World) :
  fault_free env →
  selectedLocation st = Some selected →
  insert_allowed (assignments_for (loc_id selected) (fd_assignedEmployees fd))
    (delete_assignments_of_location (loc_id selected)
       (update_location (loc_id selected) (updateData env selected fd) (db w)).2)
    = true →
  returns (handleSubmitLocation env st fd) w (λ st' w',
    selectedLocation st' = Some selected ∧
    assignment_pairs (db w')
      = List.filter (λ p, negb (String.eqb p.2 (loc_id selected)))
          (assignment_pairs (db w))
        ++ assignments_for (loc_id selected) (fd_assignedEmployees fd) ∧
    employees (db w') = employees (db w) ∧
    (∀ x, location_exists (db w') x = location_exists (db w) x) ∧
    toasts w' = toasts w ++ [updated_toast] ∧
    requests w'
      = requests w ++ saveRequests env selected fd ++ fetchRequests (db w')).
Proof.
  intros Hff Hsel Hallowed. unfold handleSubmitLocation. rewrite Hsel.
  apply returns_bind, returns_modify, returns_try_catch.
  apply returns_bind, returns_bind, returns_modify.
  apply returns_bind, returns_modify.
  apply returns_bind, returns_modify.
  apply returns_bind, returns_query; [apply Hff|].
  apply returns_bind, returns_modify.
  apply returns_bind, returns_throw_if_ok; [done|].
  apply returns_bind, returns_query; [apply Hff|].
  apply returns_bind, returns_throw_if_ok; [done|].
  set (d1 := (update_location (loc_id selected) (updateData env selected fd) (db w)).2)
    in *.
  set (d2 := delete_assignments_of_location (loc_id selected) d1) in *.
  assert (Hpairs2 : assignment_pairs d2
            = List.filter (λ p, negb (String.eqb p.2 (loc_id selected)))
                (assignment_pairs (db w))).
  { subst d2 d1. by rewrite SupabaseFacts.pairs_delete_of_location. }
  assert (Hloc2 : ∀ x, location_exists d2 x = location_exists (db w) x).
  { intros x. subst d2 d1.
    by rewrite <- (SupabaseFacts.location_exists_update (loc_id selected)
                     (updateData env selected fd) (db w) x). }
  destruct (has_selection (fd_assignedEmployees fd)) eqn:Hhas.
  - destruct (SupabaseFacts.insert_assignments_allowed env _ _ Hallowed)
      as (d3 & E3 & Hpairs3 & Hemp3 & Hlocs3).
    apply returns_bind, returns_bind, returns_query; [apply Hff|].
    cbn [snd fst db set_db add_request add_console].
    change (let '(rows, d') := update_location (loc_id selected)
              (updateData env selected fd) (db w) in (ok rows, d')).2 with d1.
    unfold d2 in E3. rewrite E3.
    cbn [fst snd]. apply returns_throw_if_ok; [done|].
    apply returns_modify, returns_fetchLocations; [apply Hff|].
    intros w' Hd Ht Hs Hr. rewrite Hd, Ht, Hr. cbn.
    split; [done|]. split; [by rewrite Hpairs3, Hpairs2|].
    split; [by rewrite Hemp3|]. split; [|split; [done|]].
    + intros x. rewrite <- Hloc2. unfold location_exists. by rewrite Hlocs3.
    + unfold saveRequests. rewrite Hhas. by rewrite <- !app_assoc.
  - apply returns_bind, returns_ret.
    apply returns_modify, returns_fetchLocations; [apply Hff|].
    intros w' Hd Ht Hs Hr. rewrite Hd, Ht, Hr. cbn. fold d1. fold d2.
    split; [done|].
    split; [by rewrite (has_selection_false _ _ Hhas), app_nil_r|].
    split; [done|]. split; [done|]. split; [done|].
    unfold saveRequests. rewrite Hhas. by rewrite <- !app_assoc.
Qed.

(** The update branch when the database rejects the bulk insert (a
    selection with a repeated or unknown employee): the rows of the location
    stay deleted, the error is shown and the page state is as before. *)
Lemma handleSubmitLocation_update_rejected (env : Env) (st : State)
    (selected : GeofenceLocation) (fd : FormData) (w : World) :
  fault_free env →
  selectedLocation st = Some selected →
  has_selection (fd_assignedEmployees fd) = true →
  insert_allowed (assignments_for (loc_id selected) (fd_assignedEmployees fd))
    (delete_assignments_of_location (loc_id selected)
       (update_location (loc_id selected) (updateData env selected fd) (db w)).2)
    = false →
  returns (handleSubmitLocation env st fd) w (λ st' w',
    st' = st ∧
    assignment_pairs (db w')
      = List.filter (λ p, negb (String.eqb p.2 (loc_id selected)))
          (assignment_pairs (db w)) ∧
    employees (db w') = employees (db w) ∧
    (∀ x, location_exists (db w') x = location_exists (db w) x) ∧
    requests w' = requests w ++ saveRequests env selected fd).
Proof.
  intros Hff Hsel Hhas Hrej. unfold handleSubmitLocation. rewrite Hsel, Hhas.
  apply returns_bind, returns_modify, returns_try_catch_handler.
  apply throws_bind_l, throws_bind_r, returns_modify.
  apply throws_bind_r, returns_modify.
  apply throws_bind_r, returns_modify.
  apply throws_bind_r, returns_query; [apply Hff|].
  apply throws_bind_r, returns_modify.
  apply throws_bind_r, returns_throw_if_ok; [done|].
  apply throws_bind_r, returns_query; [apply Hff|].
  apply throws_bind_r, returns_throw_if_ok; [done|].
  apply throws_bind_l, throws_bind_r, returns_query; [apply Hff|].
  cbn [snd fst db set_db add_request add_console].
  change (let '(rows, d') := update_location (loc_id selected)
            (updateData env selected fd) (db w) in (ok rows, d')).2
    with (update_location (loc_id selected) (updateData env selected fd) (db w)).2.
  destruct (SupabaseFacts.insert_assignments_rejected env _ _ Hrej) as (e & E).
  rewrite E. cbn [fst snd].
  apply (throws_throw_if_error _ e); [done|].
  apply returns_bind, returns_modify, returns_bind, returns_modify, returns_ret.
  cbn [db requests set_db add_toast add_console add_request]. split; [done|].
  split; [by rewrite SupabaseFacts.pairs_delete_of_location|].
  split; [done|]. split.
  - intros x.
    by rewrite <- (SupabaseFacts.location_exists_update (loc_id selected)
                     (updateData env selected fd) (db w) x).
  - unfold saveRequests. rewrite Hhas. by rewrite <- !app_assoc.
Qed.

(** The checks of a second save see what those of the first saw. *)
Lemma insert_allowed_again (rows : list (string * string)) (id : string)
    (p p' : LocationData) (d d1 : Db) :
  employees d1 = employees d →
  (∀ x, location_exists d1 x = location_exists d x) →
  List.filter (λ q, negb (String.eqb q.2 id)) (assignment_pairs d1)
    = List.filter (λ q, negb (String.eqb q.2 id)) (assignment_pairs d) →
  insert_allowed rows (delete_assignments_of_location id (update_location id p' d1).2)
  = insert_allowed rows (delete_assignments_of_location id (update_location id p d).2).
Proof.
  intros He Hl Hp. apply SupabaseFacts.insert_allowed_ext.
  - exact He.
  - intros x.
    change (location_exists (update_location id p' d1).2 x
            = location_exists (update_location id p d).2 x).
    by rewrite !SupabaseFacts.location_exists_update.
  - by rewrite !SupabaseFacts.pairs_delete_of_location,
       !SupabaseFacts.pairs_update_location.
Qed.

Lemma rows_of_location (id : string) (a : option (list string)) :
  List.filter (λ p, negb (String.eqb p.2 id)) (assignments_for id a) = [].
Proof.
  apply SupabaseFacts.list_filter_nil_bool. intros [e l] Hin.
  apply list_elem_of_In, in_map_iff in Hin as (e' & [= <- <-] & _).
  simpl. by rewrite String.eqb_refl.
Qed.

(** C1: saving a location's selection is a full replace and idempotent.
    With the page on a location and a backend that reports no error of its
    own, for every selection: the save returns, having issued the update of
    the row, then the delete of the location's assignment rows, then (for a
    non-empty selection) the bulk insert; the assignment rows of all other
    locations are exactly as before; when the location and the selected
    employees exist and each employee is selected once, the rows of the
    location are exactly one row per selected employee; saving the same
    selection again leaves the same (employee_id, location_id) pairs; and no
    pair occurs twice. *)
Theorem handleSubmitLocation_replace_is_idempotent (env1 env2 : Env)
    (st : State) (selected : GeofenceLocation) (fd : FormData) (w : World) :
  fault_free env1 → fault_free env2 →
  selectedLocation st = Some selected →
  unique_pairs (db w) →
  ∃ st1 w1 st2 w2,
    handleSubmitLocation env1 st fd w = (Returned st1, w1) ∧
    handleSubmitLocation env2 st1 fd w1 = (Returned st2, w2) ∧
    (requests w ++ saveRequests env1 selected fd) `prefix_of` requests w1 ∧
    List.filter (λ p, negb (String.eqb p.2 (loc_id selected)))
        (assignment_pairs (db w1))
      = List.filter (λ p, negb (String.eqb p.2 (loc_id selected)))
          (assignment_pairs (db w)) ∧
    (location_exists (db w) (loc_id selected) = true →
     NoDup (default [] (fd_assignedEmployees fd)) →
     Forall (λ e, employee_exists (db w) e = true)
       (default [] (fd_assignedEmployees fd)) →
     assignment_pairs (db w1)
       = List.filter (λ p, negb (String.eqb p.2 (loc_id selected)))
           (assignment_pairs (db w))
         ++ map (λ e, (e, loc_id selected)) (default [] (fd_assignedEmployees fd))) ∧
    assignment_pairs (db w2) = assignment_pairs (db w1) ∧
    NoDup (assignment_pairs (db w2)).
Proof.
  intros Hff1 Hff2 Hsel Hu.
  set (id := loc_id selected).
  set (rows := assignments_for id (fd_assignedEmployees fd)).
  set (keep := λ p : string * string, negb (String.eqb p.2 id)).
  destruct (insert_allowed rows
              (delete_assignments_of_location id
                 (update_location id (updateData env1 selected fd) (db w)).2))
    eqn:Hallowed.
  - (* the insert is accepted *)
    destruct (handleSubmitLocation_update_returns env1 st selected fd w Hff1 Hsel
                Hallowed)
      as (st1 & w1 & E1 & Hsel1 & Hp1 & Hemp1 & Hloc1 & _ & Hreq1).
    fold id rows keep in Hp1.
    assert (Hkeep1 : List.filter keep (assignment_pairs (db w1))
                     = List.filter keep (assignment_pairs (db w))).
    { rewrite Hp1, List.filter_app, SupabaseFacts.filter_filter_bool.
      unfold keep, rows. by rewrite rows_of_location, app_nil_r. }
    assert (Hallowed2 : insert_allowed rows
              (delete_assignments_of_location id
                 (update_location id (updateData env2 selected fd) (db w1)).2)
              = true).
    { by rewrite (insert_allowed_again rows id (updateData env1 selected fd)
                    (updateData env2 selected fd) (db w) (db w1)). }
    destruct (handleSubmitLocation_update_returns env2 st1 selected fd w1 Hff2
                Hsel1 Hallowed2)
      as (st2 & w2 & E2 & _ & Hp2 & _ & _ & _).
    fold id rows keep in Hp2.
    assert (Hp21 : assignment_pairs (db w2) = assignment_pairs (db w1)).
    { by rewrite Hp2, Hkeep1, Hp1. }
    exists st1, w1, st2, w2.
    split; [done|]. split; [done|].
    split; [rewrite Hreq1, app_assoc; by apply prefix_app_r|].
    split; [done|]. split; [done|].
    split; [done|]. rewrite Hp21, Hp1.
    unfold insert_allowed in Hallowed. apply andb_true_iff in Hallowed as [_ H].
    apply bool_decide_eq_true in H.
    by rewrite SupabaseFacts.pairs_delete_of_location,
      SupabaseFacts.pairs_update_location in H.
  - (* the insert is rejected *)
    assert (Hhas : has_selection (fd_assignedEmployees fd) = true).
    { destruct (has_selection (fd_assignedEmployees fd)) eqn:Hhas; [done|].
      unfold rows in Hallowed.
      rewrite (has_selection_false id _ Hhas) in Hallowed.
      unfold insert_allowed in Hallowed. simpl in Hallowed.
      apply bool_decide_eq_false in Hallowed. exfalso. apply Hallowed.
      rewrite app_nil_r, SupabaseFacts.pairs_delete_of_location.
      by apply SupabaseFacts.NoDup_filter_bool. }
    destruct (handleSubmitLocation_update_rejected env1 st selected fd w Hff1 Hsel
                Hhas Hallowed)
      as (st1 & w1 & E1 & -> & Hp1 & Hemp1 & Hloc1 & Hreq1).
    fold id keep in Hp1.
    assert (Hkeep1 : List.filter keep (assignment_pairs (db w1))
                     = List.filter keep (assignment_pairs (db w))).
    { by rewrite Hp1, SupabaseFacts.filter_filter_bool. }
    assert (Hrej2 : insert_allowed rows
              (delete_assignments_of_location id
                 (update_location id (updateData env2 selected fd) (db w1)).2)
              = false).
    { by rewrite (insert_allowed_again rows id (updateData env1 selected fd)
                    (updateData env2 selected fd) (db w) (db w1)). }
    destruct (handleSubmitLocation_update_rejected env2 st selected fd w1 Hff2 Hsel
                Hhas Hrej2)
      as (st2 & w2 & E2 & _ & Hp2 & _ & _ & _).
    fold id keep in Hp2.
    exists st, w1, st2, w2.
    split; [done|]. split; [done|]. split; [by rewrite Hreq1|].
    split; [done|]. split.
    { intros Hl Hnd Hemp. exfalso.
      pose proof (SupabaseFacts.save_selection_allowed (db w) id _
                    (updateData env1 selected fd) Hu Hnd Hemp Hl) as Hok.
      unfold rows, assignments_for in Hallowed. congruence. }
    split; [by rewrite Hp2, Hkeep1, Hp1|].
    rewrite Hp2, Hkeep1. by apply SupabaseFacts.NoDup_filter_bool.
Qed.

Lemma handleDeleteLocation_db (env : Env) (st : State) (locationId : string)
    (w : World) :
  confirm env "Are you sure you want to delete this location?" = true →
  backend_error env (DeleteLocation locationId) = None →
  db (handleDeleteLocation env st locationId w).2
  = delete_location locationId (db w).
Proof.
  intros Hc He. unfold handleDeleteLocation. rewrite Hc. cbn [negb].
  rewrite db_after_first_query.
  - unfold from_geofence_locations_delete, query. by rewrite He.
  - intros r. apply preserves_bind; [apply preserves_throw_if_error|].
    intros _. apply preserves_bind; [apply preserves_db_toast|].
    intros _. apply fetchLocations_db.
  - intros e. apply preserves_bind; [apply preserves_db_console|].
    intros _. apply preserves_bind; [apply preserves_db_toast|].
    intros _. apply preserves_ret.
Qed.

(** C2: when the user confirms and the backend accepts the delete, the
    location row is gone and no assignment row references the deleted
    location id any more; the database is one whose assignment rows satisfy
    their foreign key to [geofence_locations]. *)
Theorem handleDeleteLocation_leaves_no_orphans (env : Env) (st : State)
    (locationId : string) (w : World) :
  confirm env "Are you sure you want to delete this location?" = true →
  backend_error env (DeleteLocation locationId) = None →
  references_locations (db w) →
  let w' := (handleDeleteLocation env st locationId w).2 in
  location_exists (db w') locationId = false ∧
  List.filter (λ a, String.eqb (asg_location_id a) locationId)
    (employee_location_assignments (db w')) = [] ∧
  (∀ a, a ∈ employee_location_assignments (db w) →
        asg_location_id a ≠ locationId →
        a ∈ employee_location_assignments (db w')).
Proof.
  intros Hc He Hfk w'. subst w'. rewrite handleDeleteLocation_db by done.
  split; [apply SupabaseFacts.delete_location_gone|]. split.
  - apply SupabaseFacts.list_filter_nil_bool. intros a Hin.
    apply not_true_iff_false. rewrite String.eqb_eq.
    by apply (SupabaseFacts.delete_location_cascade locationId (db w)).
  - intros a. apply SupabaseFacts.delete_location_others.
Qed.

End LocationsPageFacts.

(** ** The employee-side assignment dialog *)

Module EmployeeLocationAssignmentDialogFacts.
Import Supabase Client ClientFacts EmployeeLocationAssignmentDialog.

(** Toggling keeps the selection free of duplicates. *)
Lemma handleToggleLocation_NoDup (locationId : string) (st : State) :
  NoDup (selectedLocations st) →
  NoDup (selectedLocations (handleToggleLocation locationId st)).
Proof.
  intros H. unfold handleToggleLocation. simpl.
  destruct (array_includes (selectedLocations st) locationId) eqn:E.
  - by apply SupabaseFacts.NoDup_filter_bool.
  - apply NoDup_app. split; [done|]. split; [|apply NoDup_singleton].
    intros x Hx ->%list_elem_of_singleton.
    apply not_true_iff_false in E. apply E. unfold array_includes.
    apply existsb_exists. exists locationId.
    split; [by apply list_elem_of_In | apply String.eqb_refl].
Qed.

(** So does the employee selector of the location dialog. *)
Lemma toggleEmployee_NoDup (employeeId : string) (currentValues : list string) :
  NoDup currentValues →
  NoDup (GeofenceLocationDialog.toggleEmployee employeeId currentValues).
Proof.
  intros H. unfold GeofenceLocationDialog.toggleEmployee.
  destruct (array_includes currentValues employeeId) eqn:E.
  - by apply SupabaseFacts.NoDup_filter_bool.
  - apply NoDup_app. split; [done|]. split; [|apply NoDup_singleton].
    intros x Hx ->%list_elem_of_singleton.
    apply not_true_iff_false in E. apply E. unfold array_includes.
    apply existsb_exists. exists employeeId.
    split; [by apply list_elem_of_In | apply String.eqb_refl].
Qed.

(** The selection the dialog starts from is free of duplicates: what it
    fetches from a table with unique pairs, or else what it had. *)
Lemma fetchAssignedLocations_NoDup (env : Env) (p : Props) (st : State)
    (w : World) :
  unique_pairs (db w) →
  NoDup (selectedLocations st) →
  ∃ st' w',
    fetchAssignedLocations env p st w = (Returned st', w') ∧
    NoDup (selectedLocations st') ∧ db w' = db w.
Proof.
  intros Hu Hnd. unfold fetchAssignedLocations.
  destruct (empId p) as [id|]; [|by exists st, w].
  destruct (Js.truthy id); [|by exists st, w].
  unfold try_catch. rewrite run_bind.
  unfold from_assignments_select_eq_employee, query.
  destruct (backend_error env (SelectAssignmentsOfEmployee id)) as [e|].
  - eexists _, _. split; [reflexivity|]. done.
  - eexists _, _. split; [reflexivity|]. split; [|done].
    by apply SupabaseFacts.select_assignments_of_employee_NoDup.
Qed.

(** The assignment rows of the employees other than [id]. *)
Lemma others_after_delete (id : string) (d : Db) :
  List.filter (λ a, negb (String.eqb (asg_employee_id a) id))
    (employee_location_assignments (delete_assignments_of_employee id d))
  = List.filter (λ a, negb (String.eqb (asg_employee_id a) id))
      (employee_location_assignments d).
Proof. apply SupabaseFacts.filter_filter_bool. Qed.

Lemma new_assignments_of_employee (env : Env) (n : nat) (id : string)
    (sel : list string) :
  List.filter (λ a, negb (String.eqb (asg_employee_id a) id))
    (new_assignments env n (assignments_of id sel)) = [].
Proof.
  revert n. induction sel as [|l sel IH]; intros n; simpl; [done|].
  by rewrite String.eqb_refl, IH.
Qed.

Lemma others_after_insert (env : Env) (id : string) (sel : list string) (d : Db) :
  List.filter (λ a, negb (String.eqb (asg_employee_id a) id))
    (employee_location_assignments
       (insert_assignments env (assignments_of id sel) d).2)
  = List.filter (λ a, negb (String.eqb (asg_employee_id a) id))
      (employee_location_assignments d).
Proof.
  unfold insert_assignments.
  destruct (insert_allowed (assignments_of id sel) d); [|done]. simpl.
  by rewrite List.filter_app, new_assignments_of_employee, app_nil_r.
Qed.

Lemma preserves_callback {X} (g : Db → X) (b : bool) (c : string) :
  preserves (λ w, g (db w)) (when b (callback c)).
Proof. destruct b; [by apply preserves_modify | apply preserves_ret]. Qed.

(** Whatever the backend answers, [handleSave] leaves the rows of the other
    employees alone. *)
Lemma handleSave_frame (env : Env) (p : Props) (st : State) (id : string) :
  empId p = Some id →
  preserves
    (λ w, List.filter (λ a, negb (String.eqb (asg_employee_id a) id))
            (employee_location_assignments (db w)))
    (handleSave env p st).
Proof.
  intros Hid.
  set (g := λ d, List.filter (λ a, negb (String.eqb (asg_employee_id a) id))
                   (employee_location_assignments d)).
  change (preserves (λ w, g (db w)) (handleSave env p st)).
  assert (Htoast : ∀ t, preserves (λ w, g (db w)) (toast t)).
  { intros t. by apply preserves_modify. }
  unfold handleSave. rewrite Hid.
  apply preserves_bind; [|intros; apply preserves_ret].
  apply preserves_try_catch.
  - destruct (Js.truthy id) eqn:Ht; [|apply Htoast].
    apply preserves_bind.
    { apply preserves_query. intros d. apply others_after_delete. }
    intros r. apply preserves_bind; [apply preserves_throw_if_error|].
    intros _. apply preserves_bind.
    { destruct (selectedLocations st) as [|l sel]; [apply preserves_ret|].
      apply preserves_bind; [|intros; apply preserves_throw_if_error].
      apply preserves_query. intros d.
      pose proof (others_after_insert env id (l :: sel) d) as H.
      by destruct (insert_assignments env (assignments_of id (l :: sel)) d)
        as [[e|] d']. }
    intros _. apply preserves_bind; [apply Htoast|].
    intros _. apply preserves_bind; [apply preserves_callback|].
    intros _. apply preserves_bind; [apply preserves_callback|].
    intros _. apply preserves_callback.
  - intros e. apply preserves_bind; [by apply preserves_modify|].
    intros _. apply Htoast.
Qed.

(** Without an employee id nothing is sent and the database stays as it
    is. *)
Lemma handleSave_missing_id (env : Env) (p : Props) (st : State) (w : World) :
  match empId p with Some id => Js.truthy id = false | None => True end →
  (handleSave env p st w).2.(db) = db w ∧
  (handleSave env p st w).2.(requests) = requests w.
Proof.
  intros H. unfold handleSave.
  destruct (empId p) as [id|]; [rewrite H|]; done.
Qed.

Lemma handleSave_returns_always (env : Env) (p : Props) (st : State) (w : World) :
  (handleSave env p st w).1 = Returned (setIsLoading false st).
Proof.
  unfold handleSave. rewrite run_bind.
  match goal with
  | |- context [try_catch ?m ?h w] =>
      destruct (try_catch_returns m h w) as (a & w' & E); [by eauto|]
  end.
  by rewrite E.
Qed.

Lemma save_locations_allowed (d : Db) (id : string) (sel : list string) :
  unique_pairs d → NoDup sel →
  employee_exists d id = true →
  Forall (λ l, location_exists d l = true) sel →
  insert_allowed (assignments_of id sel) (delete_assignments_of_employee id d)
  = true.
Proof.
  intros Hu Hs He Hl. unfold insert_allowed. apply andb_true_iff. split.
  - apply forallb_forall. intros [e l] Hin.
    apply in_map_iff in Hin as (l' & [= <- <-] & Hin).
    apply andb_true_iff. split; [exact He|].
    rewrite Forall_forall in Hl. apply Hl. by apply list_elem_of_In.
  - apply bool_decide_eq_true.
    rewrite SupabaseFacts.pairs_delete_of_employee.
    by apply SupabaseFacts.replaced_pairs_NoDup_employee.
Qed.

Lemma rows_of_employee (id : string) (sel : list string) :
  List.filter (λ q, String.eqb q.1 id) (assignments_of id sel)
  = assignments_of id sel.
Proof.
  induction sel as [|l sel IH]; simpl; [done|].
  by rewrite String.eqb_refl, IH.
Qed.

Lemma returns_when (b : bool) (c : string) (w : World) (P : () → World → Prop) :
  P () (if b then add_callback c w else w) →
  returns (when b (callback c)) w P.
Proof. destruct b; intros H; [by apply returns_modify | by apply returns_ret]. Qed.

(** [handleSave] on a backend that accepts every statement. *)
Lemma handleSave_returns (env : Env) (p : Props) (st : State) (id : string)
    (w : World) :
  fault_free env →
  empId p = Some id → id ≠ "" →
  insert_allowed (assignments_of id (selectedLocations st))
    (delete_assignments_of_employee id (db w)) = true →
  returns (handleSave env p st) w (λ _ w',
    assignment_pairs (db w')
    = List.filter (λ q, negb (String.eqb q.1 id)) (assignment_pairs (db w))
      ++ assignments_of id (selectedLocations st) ∧
    requests w' = requests w ++ saveRequests id (selectedLocations st)).
Proof.
  intros Hff Hid Hne Hallowed. unfold handleSave. rewrite Hid.
  apply JsFacts.truthy_true in Hne. rewrite Hne.
  apply returns_bind, returns_try_catch.
  apply returns_bind, returns_query; [apply Hff|].
  apply returns_bind, returns_throw_if_ok; [done|].
  cbn [fst snd db set_db add_request].
  destruct (selectedLocations st) as [|l sel] eqn:Hsel.
  - apply returns_bind, returns_ret.
    apply returns_bind, returns_modify.
    apply returns_bind, returns_when, returns_bind, returns_when, returns_when.
    apply returns_ret.
    assert (Hdb : ∀ (b : bool) (c : string) (w0 : World),
              db (if b then add_callback c w0 else w0) = db w0)
      by by intros [] ? ?.
    assert (Hreq : ∀ (b : bool) (c : string) (w0 : World),
              requests (if b then add_callback c w0 else w0) = requests w0)
      by by intros [] ? ?.
    rewrite !Hdb, !Hreq. cbn [db requests add_toast set_db add_request].
    by rewrite SupabaseFacts.pairs_delete_of_employee, app_nil_r.
  - destruct (SupabaseFacts.insert_assignments_allowed env _ _ Hallowed)
      as (d3 & E3 & Hp3 & _ & _).
    apply returns_bind, returns_bind, returns_query; [apply Hff|].
    cbn [fst snd db set_db add_request]. rewrite E3. cbn [fst snd].
    apply returns_throw_if_ok; [done|].
    apply returns_bind, returns_modify.
    apply returns_bind, returns_when, returns_bind, returns_when, returns_when.
    apply returns_ret.
    assert (Hdb : ∀ (b : bool) (c : string) (w0 : World),
              db (if b then add_callback c w0 else w0) = db w0)
      by by intros [] ? ?.
    assert (Hreq : ∀ (b : bool) (c : string) (w0 : World),
              requests (if b then add_callback c w0 else w0) = requests w0)
      by by intros [] ? ?.
    rewrite !Hdb, !Hreq. cbn [db requests add_toast set_db add_request].
    split; [by rewrite Hp3, SupabaseFacts.pairs_delete_of_employee|].
    unfold saveRequests. by rewrite <- app_assoc.
Qed.

(** C9: saving from the employee-side dialog replaces all assignments of
    that employee, across every location.  With an employee id in the props:
    [handleSave] returns; whatever the backend answers, the assignment rows
    of every other employee are exactly as before; and on a backend that
    reports no error of its own, for an existing employee and a selection of
    existing locations (each selected once), the handler issues the delete
    of all rows with that employee id, whatever their location, and then the
    bulk insert, and the rows of the employee are exactly one row per
    selected location. *)
Theorem handleSave_replaces_employee_rows (env : Env) (p : Props) (st : State)
    (id : string) (w : World) :
  empId p = Some id → id ≠ "" →
  let w' := (handleSave env p st w).2 in
  (handleSave env p st w).1 = Returned (setIsLoading false st) ∧
  List.filter (λ a, negb (String.eqb (asg_employee_id a) id))
      (employee_location_assignments (db w'))
    = List.filter (λ a, negb (String.eqb (asg_employee_id a) id))
        (employee_location_assignments (db w)) ∧
  (fault_free env →
   unique_pairs (db w) →
   employee_exists (db w) id = true →
   NoDup (selectedLocations st) →
   Forall (λ l, location_exists (db w) l = true) (selectedLocations st) →
   requests w' = requests w ++ saveRequests id (selectedLocations st) ∧
   assignment_pairs (db w')
     = List.filter (λ q, negb (String.eqb q.1 id)) (assignment_pairs (db w))
       ++ map (λ l, (id, l)) (selectedLocations st) ∧
   List.filter (λ q, String.eqb q.1 id) (assignment_pairs (db w'))
     = map (λ l, (id, l)) (selectedLocations st)).
Proof.
  intros Hid Hne w'. subst w'.
  split; [apply handleSave_returns_always|].
  split; [apply (handleSave_frame env p st id Hid w)|].
  intros Hff Hu He Hnd Hl.
  pose proof (save_locations_allowed (db w) id _ Hu Hnd He Hl) as Hallowed.
  destruct (returns_run _ _ _ (handleSave_returns env p st id w Hff Hid Hne Hallowed))
    as (_ & _ & Hp & Hreq).
  split; [exact Hreq|].
  split; [exact Hp|]. rewrite Hp, List.filter_app.
  rewrite (SupabaseFacts.list_filter_nil_bool (λ q, String.eqb q.1 id)
             (List.filter _ _)).
  - simpl. apply rows_of_employee.
  - intros q Hq. apply SupabaseFacts.elem_of_filter_bool in Hq as [_ Hq].
    by apply negb_true_iff in Hq.
Qed.

End EmployeeLocationAssignmentDialogFacts.

(** ** Registration *)

Module SupabaseClientFacts.
Import Supabase Client ClientFacts SupabaseClient.

Lemma uploadIfProvided_run (env : Env) (l : option (list File))
    (userId fileType : string) (w : World) :
  ∃ w',
    uploadIfProvided env l userId fileType w
      = (Returned (uploadedUrl env userId fileType l), w') ∧
    requests w' = requests w ++ uploadRequests userId fileType l ∧
    db w' = db w ∧
    storage w' = storedBy env userId fileType l (storage w).
Proof.
  unfold uploadIfProvided, uploadedUrl, uploadRequests, storedBy, firstFile.
  destruct l as [[|file rest]|].
  - exists w. by rewrite app_nil_r.
  - unfold uploadFile, storage_upload. rewrite run_bind.
    destruct (backend_error env
                (StorageUpload (filePath file userId fileType) file));
      eexists; (split; [reflexivity|done]).
  - exists w. by rewrite app_nil_r.
Qed.

Lemma signUp_run_without_profile (env : Env) (email password : string)
    (metadata : option UserMetadata) (files : option FileUploads) (w : World) :
  user_of (data (auth_response env email password (authMetadata <$> metadata)))
    = None ∨ metadata = None →
  signUp env email password metadata files w
  = (Returned (auth_response env email password (authMetadata <$> metadata)),
     add_console {| level := LogLevel; text := "Sign up response:" |}
       (add_request (AuthSignUp email password (authMetadata <$> metadata)) w)).
Proof.
  intros H. unfold signUp, try_catch. rewrite run_bind.
  unfold auth_signUp. rewrite run_bind. unfold console_log, modify.
  rewrite run_bind.
  destruct H as [H | ->].
  - rewrite H. done.
  - by destruct (user_of _).
Qed.

Lemma signUp_run_with_profile (env : Env) (email password : string)
    (md : UserMetadata) (files : option FileUploads) (w : World) (u : App.User) :
  user_of (data (auth_response env email password (Some (authMetadata md))))
    = Some u →
  ∃ w',
    signUp env email password (Some md) files w
      = (Returned (auth_response env email password (Some (authMetadata md))), w') ∧
    requests w'
      = requests w ++ [AuthSignUp email password (Some (authMetadata md))]
        ++ expectedUploads (App.user_id u) files
        ++ [UpsertProfile (expectedRow env (App.user_id u) md files)] ∧
    storage w'
      = storedBy env (App.user_id u) "cv" (documentsOf files cv)
          (storedBy env (App.user_id u) "kk" (documentsOf files kk)
             (storedBy env (App.user_id u) "ktp" (documentsOf files ktp)
                (storedBy env (App.user_id u) "selfie" (documentsOf files selfie)
                   (storage w)))) ∧
    match backend_error env (UpsertProfile (expectedRow env (App.user_id u) md files)) with
    | Some _ => db w' = db w ∧ last (console w') = Some profile_error_logged
    | None => db w' = upsert_profile (expectedRow env (App.user_id u) md files) (db w)
    end.
Proof.
  intros Hu. unfold signUp, try_catch. rewrite run_bind.
  unfold auth_signUp. cbn [fmap option_fmap option_map]. rewrite run_bind.
  unfold console_log, modify. rewrite run_bind, Hu.
  set (w0 := add_console _ (add_request _ w)).
  assert (Hupsert : ∀ (w1 : World) urls,
    urls = (uploadedUrl env (App.user_id u) "selfie" (documentsOf files selfie),
            uploadedUrl env (App.user_id u) "ktp" (documentsOf files ktp),
            uploadedUrl env (App.user_id u) "kk" (documentsOf files kk),
            uploadedUrl env (App.user_id u) "cv" (documentsOf files cv)) →
    db w1 = db w →
    ∃ w',
      (let '(selfieUrl, ktpUrl, kkUrl, cvUrl) := urls in
       p ← from_profiles_upsert env
             (profileRow env (App.user_id u) md selfieUrl ktpUrl kkUrl cvUrl);
       match error p with
       | Some _ => console_error "Error storing user profile:"
       | None => mret ()
       end) w1 = (Returned (), w') ∧
      requests w' = requests w1
                    ++ [UpsertProfile (expectedRow env (App.user_id u) md files)] ∧
      storage w' = storage w1 ∧
      match backend_error env
              (UpsertProfile (expectedRow env (App.user_id u) md files)) with
      | Some _ => db w' = db w ∧ last (console w') = Some profile_error_logged
      | None => db w' = upsert_profile
                          (expectedRow env (App.user_id u) md files) (db w)
      end).
  { intros w1 urls -> Hdb. fold (expectedRow env (App.user_id u) md files).
    rewrite run_bind. unfold from_profiles_upsert, query.
    destruct (backend_error env
                (UpsertProfile (expectedRow env (App.user_id u) md files))).
    - eexists. split; [reflexivity|]. cbn. split; [done|]. split; [done|].
      split; [done|]. apply last_snoc.
    - eexists. split; [reflexivity|]. cbn. by rewrite Hdb. }
  destruct files as [f|].
  - destruct (uploadIfProvided_run env (selfie f) (App.user_id u) "selfie" w0)
      as (w1 & E1 & Hr1 & Hd1 & Hs1).
    destruct (uploadIfProvided_run env (ktp f) (App.user_id u) "ktp" w1)
      as (w2 & E2 & Hr2 & Hd2 & Hs2).
    destruct (uploadIfProvided_run env (kk f) (App.user_id u) "kk" w2)
      as (w3 & E3 & Hr3 & Hd3 & Hs3).
    destruct (uploadIfProvided_run env (cv f) (App.user_id u) "cv" w3)
      as (w4 & E4 & Hr4 & Hd4 & Hs4).
    destruct (Hupsert w4 _ eq_refl) as (w' & E & Hr & Hs & Hdb).
    { by rewrite Hd4, Hd3, Hd2, Hd1. }
    exists w'. rewrite run_bind, run_bind, E1, run_bind, E2, run_bind, E3,
      run_bind, E4, run_ret.
    cbn [documentsOf] in E. rewrite E, run_ret.
    split; [done|]. split; [|split; [|done]].
    + rewrite Hr, Hr4, Hr3, Hr2, Hr1. unfold expectedUploads. subst w0. cbn.
      by rewrite <- !app_assoc.
    + rewrite Hs, Hs4, Hs3, Hs2, Hs1. done.
  - destruct (Hupsert w0 _ eq_refl) as (w' & E & Hr & Hs & Hdb); [done|].
    exists w'. rewrite run_bind, run_ret.
    cbn [documentsOf uploadedUrl firstFile] in E. rewrite E, run_ret.
    split; [done|]. split; [|split; [|done]].
    + rewrite Hr. subst w0. cbn. by rewrite <- !app_assoc.
    + by rewrite Hs.
Qed.

Lemma truthy_app (a b : string) :
  Js.truthy (a +:+ b) = Js.truthy a || Js.truthy b.
Proof. by destruct a. Qed.

Lemma truthy_encodeURI (s : string) :
  Js.truthy (Js.encodeURI s) = Js.truthy s.
Proof. destruct s as [|c s]; [done|]. simpl. by destruct (Js.uriUnescaped c). Qed.

(** The public URL of an uploaded object is never the empty string. *)
Lemma getPublicUrl_populated (env : Env) (path : string) :
  or_null (getPublicUrl env path) = Some (getPublicUrl env path).
Proof.
  unfold or_null, getPublicUrl. rewrite truthy_encodeURI, !truthy_app. simpl.
  by rewrite orb_true_r.
Qed.

(** C6: [signUp] returns the response of the identity layer, whatever the
    profile upsert answers; so when the identity-layer sign-up succeeded it
    returns that success (its data, no error).  A failed profile write
    leaves the database as it was and is only logged: the message is the
    last console entry. *)
Theorem signUp_result_independent_of_profile_write (env : Env)
    (email password : string) (metadata : option UserMetadata)
    (files : option FileUploads) (w : World) :
  let r := auth_response env email password (authMetadata <$> metadata) in
  let w' := (signUp env email password metadata files w).2 in
  (signUp env email password metadata files w).1 = Returned r ∧
  match user_of (data r), metadata with
  | Some u, Some md =>
      match backend_error env
              (UpsertProfile (expectedRow env (App.user_id u) md files)) with
      | Some _ =>
          db w' = db w ∧ last (console w') = Some profile_error_logged
      | None =>
          db w' = upsert_profile (expectedRow env (App.user_id u) md files) (db w)
      end
  | _, _ => db w' = db w
  end.
Proof.
  intros r w'. subst r w'.
  destruct metadata as [md|].
  - destruct (user_of (data (auth_response env email password
                               (authMetadata <$> Some md)))) as [u|] eqn:Hu.
    + destruct (signUp_run_with_profile env email password md files w u Hu)
        as (w' & E & _ & _ & Hdb).
      rewrite E. done.
    + rewrite signUp_run_without_profile by by left. done.
  - rewrite signUp_run_without_profile by by right.
    by destruct (user_of _).
Qed.

(** C7: with a user from the identity layer and a metadata payload,
    [signUp] issues, between the sign-up call and the profile upsert, one
    upload for each document type whose file list has content and no other
    request.  In the scenario with a selfie file and no KTP, KK or CV file,
    when the upload and the upsert succeed, the file is stored and the
    user's profile row has [selfie_url] set to the public URL of the file
    and [ktp_url], [kk_url] and [cv_url] null. *)
Theorem signUp_uploads_files_with_content (env : Env) (email password : string)
    (md : UserMetadata) (files : option FileUploads) (w : World) (u : App.User) :
  user_of (data (auth_response env email password (Some (authMetadata md))))
    = Some u →
  let w' := (signUp env email password (Some md) files w).2 in
  let uid := App.user_id u in
  requests w'
    = requests w ++ [AuthSignUp email password (Some (authMetadata md))]
      ++ expectedUploads uid files
      ++ [UpsertProfile (expectedRow env uid md files)] ∧
  (∀ fs file rest,
     files = Some fs →
     selfie fs = Some (file :: rest) →
     firstFile (ktp fs) = None → firstFile (kk fs) = None →
     firstFile (cv fs) = None →
     backend_error env (StorageUpload (filePath file uid "selfie") file) = None →
     backend_error env (UpsertProfile (expectedRow env uid md files)) = None →
     expectedUploads uid files = [StorageUpload (filePath file uid "selfie") file] ∧
     storage w' !! filePath file uid "selfie" = Some file ∧
     ∃ row,
       profiles (db w') !! uid = Some row ∧
       selfie_url row = Some (getPublicUrl env (filePath file uid "selfie")) ∧
       ktp_url row = None ∧ kk_url row = None ∧ cv_url row = None).
Proof.
  intros Hu w' uid. subst w' uid.
  destruct (signUp_run_with_profile env email password md files w u Hu)
    as (w' & E & Hr & Hs & Hdb).
  rewrite E. cbn [snd]. split; [exact Hr|].
  intros fs file rest -> Hselfie Hktp Hkk Hcv Hupload Hupsert.
  rewrite Hupsert in Hdb. rewrite Hdb, Hs.
  unfold expectedUploads, uploadRequests, storedBy, documentsOf.
  rewrite Hktp, Hkk, Hcv, Hselfie. cbn [firstFile]. rewrite Hupload.
  split; [done|]. split; [apply lookup_insert_eq|].
  eexists. split; [apply lookup_insert_eq|].
  unfold expectedRow, uploadedUrl, documentsOf.
  rewrite Hktp, Hkk, Hcv, Hselfie. cbn [firstFile]. rewrite Hupload.
  cbn. by rewrite getPublicUrl_populated.
Qed.

(** C10: when the identity layer returns no user, or no metadata payload is
    supplied, the sign-up call is the only request: no file is uploaded and
    no profile row is written; object storage and the database (the
    profiles table with it) are unchanged. *)
Theorem signUp_without_user_or_metadata_writes_nothing (env : Env)
    (email password : string) (metadata : option UserMetadata)
    (files : option FileUploads) (w : World) :
  user_of (data (auth_response env email password (authMetadata <$> metadata)))
    = None ∨ metadata = None →
  let w' := (signUp env email password metadata files w).2 in
  requests w' = requests w ++ [AuthSignUp email password (authMetadata <$> metadata)] ∧
  storage w' = storage w ∧
  profiles (db w') = profiles (db w) ∧
  db w' = db w.
Proof.
  intros H w'. subst w'. by rewrite signUp_run_without_profile.
Qed.

End SupabaseClientFacts.

(** ** The form schema of the location dialog *)

Module GeofenceLocationDialogFacts.
Import Supabase Client ClientFacts GeofenceLocationDialog.

(** *** The regular expressions *)

Lemma digits1_spec (s : string) : digits1 s = true ↔ Digits s.
Proof.
  unfold digits1, Digits. rewrite andb_true_iff, JsFacts.truthy_true. tauto.
Qed.

Lemma isDigit_not_dot (c : ascii) : isDigit c = true → Ascii.eqb c "." = false.
Proof. by destruct c as [[] [] [] [] [] [] [] []]. Qed.

Lemma isDigit_not_minus (c : ascii) (s : string) :
  isDigit c = true → signedDecimal (String c s) = unsignedDecimal (String c s).
Proof. by destruct c as [[] [] [] [] [] [] [] []]. Qed.

Lemma split_nonempty (sep : ascii) (s : string) : Js.split sep s ≠ [].
Proof.
  induction s as [|c s IH]; simpl; [done|].
  destruct (Ascii.eqb c sep); [done|]. by destruct (Js.split sep s).
Qed.

(** A string without the separator is not split. *)
Lemma split_digits (s : string) : allDigits s = true → Js.split "." s = [s].
Proof.
  induction s as [|c s IH]; simpl; [done|].
  intros [Hc Hs]%andb_true_iff. by rewrite (isDigit_not_dot c Hc), IH.
Qed.

Lemma split_digits_dot (a b : string) :
  allDigits a = true → Js.split "." (a +:+ String "." b) = a :: Js.split "." b.
Proof.
  induction a as [|c a IH]; simpl; [done|].
  intros [Hc Ha]%andb_true_iff. rewrite ?JsFacts.app_cons. simpl.
  by rewrite (isDigit_not_dot c Hc), IH.
Qed.

(** Joining the pieces with the separator gives the string back. *)
Lemma split_one (s a : string) : Js.split "." s = [a] → s = a.
Proof.
  revert a. induction s as [|c s IH]; intros a; simpl; [by intros [= <-]|].
  destruct (Ascii.eqb c ".").
  { intros [= _ E]. by apply split_nonempty in E. }
  destruct (Js.split "." s) as [|w ws] eqn:E; [by apply split_nonempty in E|].
  intros [= <- ->]. by rewrite (IH w).
Qed.

Lemma split_two (s a b : string) :
  Js.split "." s = [a; b] → s = a +:+ "." +:+ b ∧ Js.split "." b = [b].
Proof.
  revert a. induction s as [|c s IH]; intros a; simpl; [done|].
  destruct (Ascii.eqb c ".") eqn:Hc.
  - apply Ascii.eqb_eq in Hc as ->. intros [= <- E].
    pose proof (split_one _ _ E) as ->. done.
  - destruct (Js.split "." s) as [|w ws] eqn:E; [done|].
    intros [= <- ->]. destruct (IH w eq_refl) as [-> Hb]. done.
Qed.

Lemma unsignedDecimal_spec (s : string) :
  unsignedDecimal s = true ↔ DecimalLiteral false s.
Proof.
  unfold unsignedDecimal. split.
  - destruct (Js.split "." s) as [|a [|b [|]]] eqn:E; try done.
    + intros H%digits1_spec. apply split_one in E as ->. by constructor.
    + intros [Ha%digits1_spec Hb%digits1_spec]%andb_true_iff.
      apply split_two in E as [-> _]. by constructor.
  - intros H. inversion H as [? ds Hd | ? ds fs Hd Hf | ]; subst.
    + rewrite split_digits by apply Hd. by apply digits1_spec.
    + change (ds +:+ "." +:+ fs) with (ds +:+ String "." fs).
      rewrite split_digits_dot by apply Hd.
      rewrite split_digits by apply Hf.
      apply andb_true_iff. by rewrite !digits1_spec.
Qed.

Lemma Digits_head (s : string) :
  Digits s → ∃ c s', s = String c s' ∧ isDigit c = true.
Proof.
  intros [Hne Hd]. destruct s as [|c s']; [done|].
  apply andb_true_iff in Hd as [Hc _]. eauto.
Qed.

Lemma signedDecimal_spec (s : string) :
  signedDecimal s = true ↔ DecimalLiteral true s.
Proof.
  split.
  - intros H.
    assert (Hplain : unsignedDecimal s = true → DecimalLiteral true s).
    { intros Hu%unsignedDecimal_spec.
      inversion Hu; subst; by constructor. }
    destruct s as [|c s']; [by apply Hplain|].
    destruct (Ascii.eqb c "-") eqn:Hc.
    + apply Ascii.eqb_eq in Hc as ->. simpl in H.
      apply unsignedDecimal_spec in H. by apply (dl_neg s').
    + apply Hplain. revert H Hc. clear.
      by destruct c as [[] [] [] [] [] [] [] []].
  - intros H. inversion H as [? ds Hd | ? ds fs Hd Hf | s' Hs]; subst.
    + destruct (Digits_head _ Hd) as (c & t & -> & Hc).
      rewrite isDigit_not_minus by done.
      apply unsignedDecimal_spec. by constructor.
    + destruct (Digits_head _ Hd) as (c & t & -> & Hc).
      rewrite JsFacts.app_cons, isDigit_not_minus by done.
      rewrite <- JsFacts.app_cons.
      apply unsignedDecimal_spec. by constructor.
    + by apply unsignedDecimal_spec.
Qed.

(** *** The range checks *)

Lemma checkLatitude_spec (x : Js.JsNumber) :
  checkLatitude x = true ↔ between (-90) 90 x.
Proof.
  unfold checkLatitude, between, Js.num_ge. destruct x as [| | |q]; simpl.
  1-3: split; [done | by intros (q & ? & _)].
  rewrite andb_true_iff, !Qle_bool_iff. split.
  - intros [? ?]. by exists q.
  - by intros (q' & [= <-] & ? & ?).
Qed.

Lemma checkLongitude_spec (x : Js.JsNumber) :
  checkLongitude x = true ↔ between (-180) 180 x.
Proof.
  unfold checkLongitude, between, Js.num_ge. destruct x as [| | |q]; simpl.
  1-3: split; [done | by intros (q & ? & _)].
  rewrite andb_true_iff, !Qle_bool_iff. split.
  - intros [? ?]. by exists q.
  - by intros (q' & [= <-] & ? & ?).
Qed.

Lemma checkRadius_spec (x : Js.JsNumber) :
  checkRadius x = true ↔ positive x.
Proof.
  unfold checkRadius, positive, Js.num_gt. destruct x as [| | |q]; simpl.
  - split; [done | by intros [? | (q & ? & _)]].
  - split; [by left | done].
  - split; [done | by intros [? | (q & ? & _)]].
  - rewrite negb_true_iff, <- not_true_iff_false, Qle_bool_iff. split.
    + intros H. right. exists q. split; [done|]. by apply Qnot_le_lt.
    + intros [? | (q' & [= <-] & H)]; [done|]. by apply Qlt_not_le.
Qed.

(** *** The schema *)

Section Schema.
Variable Number : string → Js.JsNumber.

Lemma numberOrNumericString_spec (re : string → bool) (signed : bool)
    (v : NumberInput) (x : Js.JsNumber) :
  (∀ s, re s = true ↔ DecimalLiteral signed s) →
  numberOrNumericString Number re v = Some x ↔ Denotes Number signed v x.
Proof.
  intros Hre. unfold numberOrNumericString. split.
  - destruct v as [n|s].
    + destruct n; intros [= <-]; by constructor.
    + destruct (re s) eqn:E; [|done]. intros [= <-]. constructor. by apply Hre.
  - intros H. inversion H as [n Hn | s Hs]; subst.
    + by destruct x.
    + apply Hre in Hs. by rewrite Hs.
Qed.

Lemma refinedNumber_spec (field msg : string) (re : string → bool)
    (check : Js.JsNumber → bool) (v : NumberInput) (x : Js.JsNumber) :
  refinedNumber Number field re check msg v = inl x ↔
  numberOrNumericString Number re v = Some x ∧ check x = true.
Proof.
  unfold refinedNumber.
  destruct (numberOrNumericString Number re v) as [val|]; [|by split; [|intros []]].
  destruct (check val) eqn:E.
  - split; [by intros [= <-] | by intros [[= <-] _]].
  - split; [done | intros [[= <-] ?]; congruence].
Qed.

Lemma refinedNumber_issues (field msg : string) (re : string → bool)
    (check : Js.JsNumber → bool) (v : NumberInput) (l : list ZodIssue) :
  refinedNumber Number field re check msg v = inr l → l ≠ [].
Proof.
  unfold refinedNumber.
  destruct (numberOrNumericString Number re v) as [val|]; [|by intros [= <-]].
  destruct (check val); [done | by intros [= <-]].
Qed.

Lemma nonEmptyString_spec (field msg v x : string) :
  nonEmptyString field msg v = inl x ↔ v ≠ "" ∧ x = v.
Proof.
  unfold nonEmptyString. destruct v as [|c v]; simpl.
  - split; [done | by intros []].
  - split; [by intros [= <-] | by intros [_ ->]].
Qed.

Lemma nonEmptyString_issues (field msg v : string) (l : list ZodIssue) :
  nonEmptyString field msg v = inr l → l ≠ [].
Proof. unfold nonEmptyString. destruct (_ <=? _)%nat; [done | by intros [= <-]]. Qed.

Lemma formSchema_issues (input : FormInput) (l : list ZodIssue) :
  formSchema Number input = inr l → l ≠ [].
Proof.
  unfold formSchema.
  destruct (nonEmptyString "name" _ _) as [n|ln] eqn:En.
  2: { apply nonEmptyString_issues in En. intros [= <-]. by destruct ln. }
  destruct (nonEmptyString "address" _ _) as [a|la] eqn:Ea.
  2: { apply nonEmptyString_issues in Ea. intros [= <-]. by destruct la. }
  destruct (refinedNumber Number "latitude" _ _ _ _) as [lat|l1] eqn:E1.
  2: { apply refinedNumber_issues in E1. intros [= <-]. by destruct l1. }
  destruct (refinedNumber Number "longitude" _ _ _ _) as [lng|l2] eqn:E2.
  2: { apply refinedNumber_issues in E2. intros [= <-]. by destruct l2. }
  destruct (refinedNumber Number "radius" _ _ _ _) as [rad|l3] eqn:E3.
  2: { apply refinedNumber_issues in E3. intros [= <-]. by destruct l3. }
  done.
Qed.

Lemma formSchema_accepts (input : FormInput) :
  (∃ data, formSchema Number input = inl data) ↔ acceptable Number input.
Proof.
  unfold acceptable. split.
  - intros [data H]. unfold formSchema in H.
    destruct (nonEmptyString "name" _ _) as [n|] eqn:En; [|by repeat case_match].
    destruct (nonEmptyString "address" _ _) as [a|] eqn:Ea; [|by repeat case_match].
    destruct (refinedNumber Number "latitude" _ _ _ _) as [lat|] eqn:E1;
      [|by repeat case_match].
    destruct (refinedNumber Number "longitude" _ _ _ _) as [lng|] eqn:E2;
      [|by repeat case_match].
    destruct (refinedNumber Number "radius" _ _ _ _) as [rad|] eqn:E3; [|done].
    apply nonEmptyString_spec in En as [Hn _], Ea as [Ha _].
    apply refinedNumber_spec in E1 as [D1 C1], E2 as [D2 C2], E3 as [D3 C3].
    apply (numberOrNumericString_spec _ true) in D1, D2;
      [|apply signedDecimal_spec..].
    apply (numberOrNumericString_spec _ false) in D3;
      [|apply unsignedDecimal_spec].
    apply checkLatitude_spec in C1. apply checkLongitude_spec in C2.
    apply checkRadius_spec in C3.
    split; [done|]. split; [done|]. split; [by exists lat|].
    split; [by exists lng | by exists rad].
  - intros (Hn & Ha & (lat & D1 & C1) & (lng & D2 & C2) & (rad & D3 & C3)).
    apply checkLatitude_spec in C1. apply checkLongitude_spec in C2.
    apply checkRadius_spec in C3.
    apply (numberOrNumericString_spec signedDecimal true) in D1, D2;
      [|apply signedDecimal_spec..].
    apply (numberOrNumericString_spec unsignedDecimal false) in D3;
      [|apply unsignedDecimal_spec].
    unfold formSchema.
    rewrite (proj2 (nonEmptyString_spec "name" _ _ _) (conj Hn eq_refl)).
    rewrite (proj2 (nonEmptyString_spec "address" _ _ _) (conj Ha eq_refl)).
    rewrite (proj2 (refinedNumber_spec "latitude" _ _ _ _ _) (conj D1 C1)).
    rewrite (proj2 (refinedNumber_spec "longitude" _ _ _ _ _) (conj D2 C2)).
    rewrite (proj2 (refinedNumber_spec "radius" _ _ _ _ _) (conj D3 C3)).
    eauto.
Qed.

(** C3: the schema accepts a submission exactly when name and address are
    non-empty, latitude and longitude are numbers (or decimal literals)
    within [-90, 90] and [-180, 180], and the radius is a number (or an
    unsigned decimal literal) greater than 0.  For every other input the
    resolver reports issues and the submission ends there: the page state
    and the world, with the list of requests issued, are unchanged. *)
Theorem formSchema_accepts_exactly_valid_input (input : FormInput) :
  ((∃ data, formSchema Number input = inl data) ↔ acceptable Number input) ∧
  (¬ acceptable Number input →
   ∀ env st w, ∃ issues,
     issues ≠ [] ∧
     submit Number env st input w = (Returned (st, issues), w) ∧
     requests (submit Number env st input w).2 = requests w).
Proof.
  split; [apply formSchema_accepts|].
  intros Hbad env st w. unfold submit.
  destruct (formSchema Number input) as [data|issues] eqn:E.
  - exfalso. apply Hbad, formSchema_accepts. eauto.
  - exists issues. split; [by apply (formSchema_issues input)|]. done.
Qed.

End Schema.

End GeofenceLocationDialogFacts.

(** ** The scenarios of the specification, run on the model *)

Module ScenarioFacts.
Import Supabase Client Scenario.

Lemma env0_fault_free : fault_free env0.
Proof. by intros r. Qed.

Lemma db0_unique : unique_pairs db0.
Proof. apply (bool_decide_unpack _). by vm_compute. Qed.

Lemma db0_references_locations : references_locations db0.
Proof.
  intros a Ha. unfold db0 in Ha. simpl in Ha.
  repeat (apply elem_of_cons in Ha as [-> | Ha]; [reflexivity|]).
  by apply elem_of_nil in Ha.
Qed.

(** Creating HQ with Ani and Budi selected: the list shows one new row
    with two assigned employees, and the dialog is closed. *)
Example create_hq_with_two_employees :
  match (LocationsPage.handleSubmitLocation env0 pageNew formNew wNew).1 with
  | Returned st =>
      map (λ l, (loc_name l, length <$> assigned_employees l))
        (LocationsPage.locations st)
      = [("HQ", Some 2)] ∧
      LocationsPage.isDialogOpen st = false
  | Thrown _ => False
  end.
Proof. by vm_compute. Qed.

(** Editing HQ to select only Ani leaves exactly one assignment row for HQ,
    for Ani; the row of the depot stays. *)
Example edit_hq_select_ani :
  assignment_pairs (db (LocationsPage.handleSubmitLocation env0 page0 form0 w0).2)
  = [("E3", "L2"); ("E1", "L1")].
Proof. by vm_compute. Qed.

(** Deleting HQ removes its two assignment rows with it. *)
Example delete_hq :
  assignment_pairs (db (LocationsPage.handleDeleteLocation env0 page0 "L1" w0).2)
  = [("E3", "L2")].
Proof. by vm_compute. Qed.

(** The list is newest first; the depot, whose assignment fetch fails, is
    listed without [assigned_employees]. *)
Example list_with_failed_fetch :
  map (λ l, (loc_name l, assigned_employees l))
    (match (LocationsPage.fetchLocations envDepotFetchFails page0 w0).1 with
     | Returned st => LocationsPage.locations st
     | Thrown _ => []
     end)
  = [("Depot", None); ("HQ", Some ["E1"; "E2"])].
Proof. by vm_compute. Qed.

(** Radius 0 and a negative radius are rejected, as a number and as text;
    so is a latitude of 91. *)
Example radius_zero_rejected :
  GeofenceLocationDialog.formSchema GeofenceLocationDialog.decimalValue
    (withRadius (GeofenceLocationDialog.NumberValue (Js.Num 0)))
  = inr [ {| GeofenceLocationDialog.path := "radius";
             GeofenceLocationDialog.issue := "Radius must be greater than 0" |} ].
Proof. reflexivity. Qed.

Example radius_negative_rejected :
  GeofenceLocationDialog.formSchema GeofenceLocationDialog.decimalValue
    (withRadius (GeofenceLocationDialog.NumberValue (Js.Num (-5))))
  = inr [ {| GeofenceLocationDialog.path := "radius";
             GeofenceLocationDialog.issue := "Radius must be greater than 0" |} ] ∧
  GeofenceLocationDialog.formSchema GeofenceLocationDialog.decimalValue
    (withRadius (GeofenceLocationDialog.StringValue "-5"))
  = inr [ {| GeofenceLocationDialog.path := "radius";
             GeofenceLocationDialog.issue := "Invalid input" |} ] ∧
  GeofenceLocationDialog.formSchema GeofenceLocationDialog.decimalValue
    (withRadius (GeofenceLocationDialog.StringValue "0.0"))
  = inr [ {| GeofenceLocationDialog.path := "radius";
             GeofenceLocationDialog.issue := "Radius must be greater than 0" |} ].
Proof. repeat split; reflexivity. Qed.

Example latitude_out_of_range_rejected :
  GeofenceLocationDialog.formSchema GeofenceLocationDialog.decimalValue
    (withLatitude (GeofenceLocationDialog.NumberValue (Js.Num 91)))
  = inr [ {| GeofenceLocationDialog.path := "latitude";
             GeofenceLocationDialog.issue := "Latitude must be between -90 and 90" |} ].
Proof. reflexivity. Qed.

Example hq_accepted :
  ∃ data,
    GeofenceLocationDialog.formSchema GeofenceLocationDialog.decimalValue hqInput
      = inl data ∧
    GeofenceLocationDialog.longitude data = Js.Num (534 # 5).
Proof. eexists. split; reflexivity. Qed.

End ScenarioFacts.

(** ** The theorems at the scenario *)

Module Witnesses.
Import Supabase Client Scenario.

Lemma handleSubmitLocation_replace_is_idempotent_witness :
  fault_free env0 ∧
  LocationsPage.selectedLocation page0 = Some (LocationsPage.of_row hq) ∧
  unique_pairs (db w0) ∧
  ∃ st1 w1 st2 w2,
    LocationsPage.handleSubmitLocation env0 page0 form0 w0 = (Returned st1, w1) ∧
    LocationsPage.handleSubmitLocation env0 st1 form0 w1 = (Returned st2, w2) ∧
    assignment_pairs (db w1) = [("E3", "L2"); ("E1", "L1")] ∧
    assignment_pairs (db w2) = assignment_pairs (db w1) ∧
    NoDup (assignment_pairs (db w2)).
Proof.
  assert (Hff : fault_free env0) by (intros r; reflexivity).
  assert (Hu : unique_pairs (db w0)).
  { apply (bool_decide_unpack _). vm_compute. exact I. }
  split; [exact Hff|]. split; [reflexivity|]. split; [exact Hu|].
  destruct (LocationsPageFacts.handleSubmitLocation_replace_is_idempotent
              env0 env0 page0 (LocationsPage.of_row hq) form0 w0
              Hff Hff eq_refl Hu)
    as (st1 & w1 & st2 & w2 & E1 & E2 & _ & _ & Hrows & Hsame & Hnd).
  exists st1, w1, st2, w2.
  split; [exact E1|]. split; [exact E2|]. split; [|split; [exact Hsame|exact Hnd]].
  apply Hrows.
  - reflexivity.
  - apply (bool_decide_unpack _). vm_compute. exact I.
  - repeat constructor.
Defined.

Lemma handleDeleteLocation_leaves_no_orphans_witness :
  confirm env0 "Are you sure you want to delete this location?" = true ∧
  backend_error env0 (DeleteLocation "L1") = None ∧
  references_locations (db w0) ∧
  location_exists
    (db (LocationsPage.handleDeleteLocation env0 page0 "L1" w0).2) "L1" = false ∧
  List.filter (λ a, String.eqb (asg_location_id a) "L1")
    (employee_location_assignments
       (db (LocationsPage.handleDeleteLocation env0 page0 "L1" w0).2)) = [].
Proof.
  assert (Hfk : references_locations (db w0)).
  { intros a Ha. unfold w0, db0 in Ha. simpl in Ha.
    repeat (apply elem_of_cons in Ha as [-> | Ha]; [reflexivity|]).
    by apply elem_of_nil in Ha. }
  split; [reflexivity|]. split; [reflexivity|]. split; [exact Hfk|].
  destruct (LocationsPageFacts.handleDeleteLocation_leaves_no_orphans
              env0 page0 "L1" w0 eq_refl eq_refl Hfk) as (Hgone & Hrows & _).
  split; [exact Hgone | exact Hrows].
Defined.

Lemma formSchema_accepts_exactly_valid_input_witness :
  ¬ GeofenceLocationDialog.acceptable GeofenceLocationDialog.decimalValue
      (withRadius (GeofenceLocationDialog.NumberValue (Js.Num 0))) ∧
  ∃ issues,
    issues ≠ [] ∧
    GeofenceLocationDialog.submit GeofenceLocationDialog.decimalValue env0 page0
      (withRadius (GeofenceLocationDialog.NumberValue (Js.Num 0))) w0
    = (Returned (page0, issues), w0).
Proof.
  destruct (GeofenceLocationDialogFacts.formSchema_accepts_exactly_valid_input
              GeofenceLocationDialog.decimalValue
              (withRadius (GeofenceLocationDialog.NumberValue (Js.Num 0))))
    as [Hiff Hfail].
  assert (Hbad : ¬ GeofenceLocationDialog.acceptable
                     GeofenceLocationDialog.decimalValue
                     (withRadius (GeofenceLocationDialog.NumberValue (Js.Num 0)))).
  { intros Ha. apply Hiff in Ha as [data Hd]. discriminate Hd. }
  split; [exact Hbad|].
  destruct (Hfail Hbad env0 page0 w0) as (issues & Hne & E & _).
  exists issues. split; [exact Hne | exact E].
Defined.

Lemma signUp_uploads_files_with_content_witness :
  SupabaseClient.user_of
    (data (auth_response env0 "ani@example.com" "s3cret!"
             (Some (SupabaseClient.authMetadata aniMetadata)))) = Some user1 ∧
  SupabaseClient.expectedUploads "U1" (Some selfieOnly)
    = [StorageUpload "documents/U1/selfie.jpg" selfieFile] ∧
  ∃ row,
    profiles (db (SupabaseClient.signUp env0 "ani@example.com" "s3cret!"
                    (Some aniMetadata) (Some selfieOnly) w0).2) !! "U1"
      = Some row ∧
    selfie_url row
      = Some "https://hrd.example/storage/v1/object/public/user-documents/documents/U1/selfie.jpg" ∧
    ktp_url row = None ∧ kk_url row = None ∧ cv_url row = None.
Proof.
  split; [reflexivity|].
  destruct (SupabaseClientFacts.signUp_uploads_files_with_content
              env0 "ani@example.com" "s3cret!" aniMetadata (Some selfieOnly) w0
              user1 eq_refl) as [_ Hscenario].
  destruct (Hscenario selfieOnly selfieFile [] eq_refl eq_refl eq_refl eq_refl
              eq_refl eq_refl eq_refl) as (Hup & _ & row & Hrow & Hs & Hk & Hkk & Hcv).
  split; [exact Hup|]. exists row.
  split; [exact Hrow|]. split; [exact Hs|]. split; [exact Hk|].
  split; [exact Hkk | exact Hcv].
Defined.

Lemma handleSave_replaces_employee_rows_witness :
  EmployeeLocationAssignmentDialog.empId citraProps = Some "E3" ∧
  "E3" ≠ "" ∧
  List.filter (λ a, negb (String.eqb (asg_employee_id a) "E3"))
    (employee_location_assignments
       (db (EmployeeLocationAssignmentDialog.handleSave env0 citraProps
              citraDialog w0).2))
  = [assignment "A1" "E1" "L1"; assignment "A2" "E2" "L1"] ∧
  requests (EmployeeLocationAssignmentDialog.handleSave env0 citraProps
              citraDialog w0).2
  = [DeleteAssignmentsOfEmployee "E3"; InsertAssignments [("E3", "L1")]] ∧
  List.filter (λ q, String.eqb q.1 "E3")
    (assignment_pairs
       (db (EmployeeLocationAssignmentDialog.handleSave env0 citraProps
              citraDialog w0).2))
  = [("E3", "L1")].
Proof.
  assert (Hne : "E3" ≠ "") by discriminate.
  assert (Hff : fault_free env0) by (intros r; reflexivity).
  assert (Hu : unique_pairs (db w0)).
  { apply (bool_decide_unpack _). vm_compute. exact I. }
  assert (Hnd : NoDup (EmployeeLocationAssignmentDialog.selectedLocations
                         citraDialog)).
  { apply (bool_decide_unpack _). vm_compute. exact I. }
  assert (Hloc : Forall (λ l, location_exists (db w0) l = true)
                   (EmployeeLocationAssignmentDialog.selectedLocations
                      citraDialog)) by repeat constructor.
  split; [reflexivity|]. split; [exact Hne|].
  destruct (EmployeeLocationAssignmentDialogFacts.handleSave_replaces_employee_rows
              env0 citraProps citraDialog "E3" w0 eq_refl Hne)
    as (_ & Hframe & Hreplace).
  split; [exact Hframe|].
  destruct (Hreplace Hff Hu eq_refl Hnd Hloc) as (Hreq & _ & Hrows).
  split; [exact Hreq | exact Hrows].
Defined.

Lemma signUp_without_user_or_metadata_writes_nothing_witness :
  (SupabaseClient.user_of
     (data (auth_response envNoUser "ani@example.com" "s3cret!"
              (SupabaseClient.authMetadata <$> Some aniMetadata))) = None ∨
   Some aniMetadata = None) ∧
  requests (SupabaseClient.signUp envNoUser "ani@example.com" "s3cret!"
              (Some aniMetadata) (Some selfieOnly) w0).2
  = requests w0
    ++ [AuthSignUp "ani@example.com" "s3cret!"
          (SupabaseClient.authMetadata <$> Some aniMetadata)] ∧
  storage (SupabaseClient.signUp envNoUser "ani@example.com" "s3cret!"
             (Some aniMetadata) (Some selfieOnly) w0).2 = storage w0 ∧
  profiles (db (SupabaseClient.signUp envNoUser "ani@example.com" "s3cret!"
                  (Some aniMetadata) (Some selfieOnly) w0).2)
  = profiles (db w0).
Proof.
  assert (H : SupabaseClient.user_of
                (data (auth_response envNoUser "ani@example.com" "s3cret!"
                         (SupabaseClient.authMetadata <$> Some aniMetadata))) = None ∨
              Some aniMetadata = None) by (left; reflexivity).
  split; [exact H|].
  destruct (SupabaseClientFacts.signUp_without_user_or_metadata_writes_nothing
              envNoUser "ani@example.com" "s3cret!" (Some aniMetadata)
              (Some selfieOnly) w0 H) as (Hr & Hs & Hp & _).
  split; [exact Hr|]. split; [exact Hs | exact Hp].
Defined.

(** The identity layer accepts the sign-up, the profile write fails:
    [signUp] still returns the success of the identity layer. *)
Example signUp_succeeds_when_profile_write_fails :
  (SupabaseClient.signUp envProfileFails "ani@example.com" "s3cret!"
     (Some aniMetadata) (Some selfieOnly) w0).1
  = Returned (ok {| auth_user := Some user1; auth_session := None |}) ∧
  profiles (db (SupabaseClient.signUp envProfileFails "ani@example.com" "s3cret!"
                  (Some aniMetadata) (Some selfieOnly) w0).2) = ∅.
Proof. split; reflexivity. Qed.

End Witnesses.
(** ** Searching: the map view and the employee selector *)

Module SearchFacts.
Import Js JsFacts GeofenceMapView.

Lemma sublist_filter_impl {A} (f g : A → bool) (l : list A) :
  (∀ x, f x = true → g x = true) →
  sublist (List.filter f l) (List.filter g l).
Proof.
  intros Hfg. induction l as [|x l IH]; simpl; [constructor|].
  destruct (f x) eqn:Hf.
  - rewrite (Hfg x Hf). by constructor.
  - destruct (g x); [by constructor | done].
Qed.

(** The first element that passes a filter. *)
Lemma head_filter_Some {A} (f : A → bool) (l : list A) (x : A) :
  head (List.filter f l) = Some x →
  ∃ pre post, l = pre ++ x :: post ∧ f x = true ∧ Forall (λ y, f y = false) pre.
Proof.
  induction l as [|y l IH]; simpl; [done|].
  destruct (f y) eqn:Hy.
  - intros [= ->]. by exists [], l.
  - intros H. destruct (IH H) as (pre & post & -> & Hx & Hpre).
    exists (y :: pre), post. by repeat constructor.
Qed.

Lemma head_filter_None {A} (f : A → bool) (l : list A) :
  head (List.filter f l) = None → Forall (λ y, f y = false) l.
Proof.
  induction l as [|y l IH]; simpl; [constructor|].
  destruct (f y) eqn:Hy; [done|]. by constructor; [|apply IH].
Qed.

Section Search.
Variable toLowerCase : string → string.

(** A field that contains a text contains the parts of the text. *)
Lemma fieldMatches_narrows (q q' field : string) :
  contains (trim (toLowerCase q')) (trim (toLowerCase q)) →
  fieldMatches toLowerCase q' field → fieldMatches toLowerCase q field.
Proof.
  intros Hq [Hne Hc]. split; [done|]. by eapply contains_trans.
Qed.

(** X1.  The map view's search ignores the case of the letters of a query
    and the white space around it: as soon as [toLowerCase] lowers the
    letters of ASCII, two queries in ASCII that are equal after trimming, up
    to the case of their letters, give the same list (also when they are
    blank). *)
Theorem filteredLocations_ignores_case_and_padding (q q' : string)
    (locations : list GeofenceLocation) :
  lowersAscii toLowerCase →
  isAscii q = true → isAscii q' = true →
  asciiLower (trim q) = asciiLower (trim q') →
  filteredLocations toLowerCase q locations
  = filteredLocations toLowerCase q' locations.
Proof.
  intros Hlow Hq Hq' H. unfold filteredLocations.
  rewrite (Hlow q Hq), (Hlow q' Hq'), !trim_asciiLower, H.
  by rewrite <- (truthy_asciiLower (trim q)), <- (truthy_asciiLower (trim q')), H.
Qed.

(** X2.  Typing more narrows the result: when the query [q], in lower case
    and trimmed, occurs in the query [q'], in lower case and trimmed, and
    [q'] is not blank, the locations found for [q'] are among those found
    for [q], in the same order. *)
Theorem filteredLocations_longer_query_narrows (q q' : string)
    (locations : list GeofenceLocation) :
  trim q' ≠ "" →
  contains (trim (toLowerCase q')) (trim (toLowerCase q)) →
  sublist (filteredLocations toLowerCase q' locations)
    (filteredLocations toLowerCase q locations).
Proof.
  intros Hq' H.
  destruct (decide (trim q = "")) as [Hq | Hq].
  { rewrite (GeofenceMapViewFacts.filteredLocations_blank toLowerCase q) by done.
    unfold filteredLocations. destruct (negb (truthy (trim q'))); [done|].
    apply GeofenceMapViewFacts.filter_sublist. }
  unfold filteredLocations.
  apply truthy_true in Hq as Ht. apply truthy_true in Hq' as Ht'.
  rewrite Ht, Ht'. cbn [negb]. apply sublist_filter_impl. intros l Hl.
  apply (GeofenceMapViewFacts.location_test_spec toLowerCase q l).
  apply (GeofenceMapViewFacts.location_test_spec toLowerCase q' l) in Hl.
  destruct Hl as [Hl | Hl]; [left | right]; by eapply fieldMatches_narrows.
Qed.

(** X3.  Enter in the search bar pans to (and selects) the first location
    of the list that matches the query, the first location of all for a
    blank query; it does nothing when the list is empty or no location
    matches. *)
Theorem panToFirstFilteredLocation_first_match (q : string)
    (locations : list GeofenceLocation) :
  match panToFirstFilteredLocation (filteredLocations toLowerCase q locations) with
  | Some l =>
      ∃ pre post,
        locations = pre ++ l :: post ∧
        match trim q with
        | EmptyString => pre = []
        | String _ _ =>
            matches toLowerCase q l ∧
            Forall (λ x, ¬ matches toLowerCase q x) pre
        end
  | None =>
      match trim q with
      | EmptyString => locations = []
      | String _ _ => Forall (λ x, ¬ matches toLowerCase q x) locations
      end
  end.
Proof.
  unfold panToFirstFilteredLocation.
  destruct (trim q) as [|c t] eqn:Hq.
  - rewrite GeofenceMapViewFacts.filteredLocations_blank by done.
    destruct locations as [|l locations]; simpl; [done|].
    by exists [], locations.
  - unfold filteredLocations. rewrite Hq. cbn [truthy negb].
    match goal with
    | |- context [List.filter ?f locations] => set (test := f)
    end.
    assert (Htest : ∀ l, test l = true ↔ matches toLowerCase q l).
    { intros l. subst test. apply GeofenceMapViewFacts.location_test_spec. }
    destruct (head (List.filter test locations)) as [l|] eqn:Hhead.
    + apply head_filter_Some in Hhead as (pre & post & -> & Hl & Hpre).
      exists pre, post. split; [done|]. split; [by apply Htest|].
      eapply Forall_impl; [exact Hpre|]. intros x Hx Hm.
      apply Htest in Hm. congruence.
    + apply head_filter_None in Hhead.
      eapply Forall_impl; [exact Hhead|]. intros x Hx Hm.
      apply Htest in Hm. congruence.
Qed.

(** X4.  The list [filteredEmployees], from which the employee selector of
    the location dialog makes its items, holds for a non-empty search text
    exactly the employees whose name or employee number, in lower case,
    contains the text as typed (not trimmed), in lower case, in their
    order; for the empty text it holds every employee, and it is empty
    before the employees are loaded. *)
Theorem filteredEmployees_ci_search (employees : list Supabase.EmployeeRow)
    (searchValue : string) :
  GeofenceLocationDialog.filteredEmployees toLowerCase None searchValue = [] ∧
  match searchValue with
  | EmptyString =>
      GeofenceLocationDialog.filteredEmployees toLowerCase (Some employees)
        searchValue
      = employees
  | String _ _ =>
      sublist
        (GeofenceLocationDialog.filteredEmployees toLowerCase (Some employees)
           searchValue)
        employees ∧
      ∀ e, e ∈ GeofenceLocationDialog.filteredEmployees toLowerCase
                 (Some employees) searchValue
           ↔ e ∈ employees ∧
             (contains (toLowerCase (Supabase.emp_name e))
                (toLowerCase searchValue) ∨
              contains (toLowerCase (Supabase.emp_employee_id e))
                (toLowerCase searchValue))
  end.
Proof.
  split; [done|]. destruct searchValue as [|c s] eqn:Hs; [done|].
  rewrite <- Hs. unfold GeofenceLocationDialog.filteredEmployees.
  replace (truthy searchValue) with true by by rewrite Hs.
  cbn [negb]. split; [apply GeofenceMapViewFacts.filter_sublist|].
  intros e. rewrite SupabaseFacts.elem_of_filter_bool, orb_true_iff.
  by rewrite !includes_spec.
Qed.

End Search.

Lemma filteredLocations_ignores_case_and_padding_witness :
  lowersAscii asciiLower ∧
  isAscii "  Office " = true ∧ isAscii "OFFICE" = true ∧
  asciiLower (trim "  Office ") = asciiLower (trim "OFFICE") ∧
  filteredLocations asciiLower "  Office "
    [sample "Main Office" "Jl. Sudirman 1"; sample "Depot" "Harbour Road"]
  = filteredLocations asciiLower "OFFICE"
      [sample "Main Office" "Jl. Sudirman 1"; sample "Depot" "Harbour Road"].
Proof.
  split; [exact asciiLower_lowersAscii|].
  split; [reflexivity|]. split; [reflexivity|]. split; [reflexivity|].
  apply filteredLocations_ignores_case_and_padding;
    [exact asciiLower_lowersAscii | reflexivity | reflexivity | reflexivity].
Defined.

Lemma filteredLocations_longer_query_narrows_witness :
  trim " Office" ≠ "" ∧
  contains (trim (asciiLower " Office")) (trim (asciiLower "off")) ∧
  sublist
    (filteredLocations asciiLower " Office"
       [sample "Main Office" "Jl. Sudirman 1"; sample "Take-off ramp" "Airport"])
    (filteredLocations asciiLower "off"
       [sample "Main Office" "Jl. Sudirman 1"; sample "Take-off ramp" "Airport"]).
Proof.
  assert (H : contains (trim (asciiLower " Office")) (trim (asciiLower "off"))).
  { by exists "", "ice". }
  split; [discriminate|]. split; [exact H|].
  apply filteredLocations_longer_query_narrows; [discriminate | exact H].
Defined.

End SearchFacts.

(** ** The selectors: toggling an item *)

Module SelectionFacts.
Import EmployeeLocationAssignmentDialog.

Lemma array_includes_spec (l : list string) (x : string) :
  array_includes l x = true ↔ x ∈ l.
Proof.
  unfold array_includes. rewrite existsb_exists. split.
  - intros (y & Hy & E). apply String.eqb_eq in E as ->. by apply list_elem_of_In.
  - intros H. exists x. split; [by apply list_elem_of_In | apply String.eqb_refl].
Qed.

(** The two selectors toggle in the same way; the lemmas are stated for
    the list function of the location dialog. *)

Lemma elem_of_without (x y : string) (l : list string) :
  y ∈ List.filter (λ id, negb (String.eqb id x)) l ↔ y ≠ x ∧ y ∈ l.
Proof.
  rewrite SupabaseFacts.elem_of_filter_bool, negb_true_iff, String.eqb_neq.
  tauto.
Qed.

Lemma toggle_elem (x y : string) (l : list string) :
  y ∈ GeofenceLocationDialog.toggleEmployee x l ↔ (y = x ∧ x ∉ l) ∨ (y ≠ x ∧ y ∈ l).
Proof.
  unfold GeofenceLocationDialog.toggleEmployee. destruct (array_includes l x) eqn:E.
  - apply array_includes_spec in E. rewrite elem_of_without.
    split; [intros [? ?]; by right | intros [[_ ?] | ?]; done].
  - assert (Hx : x ∉ l) by (rewrite <- array_includes_spec; congruence).
    rewrite elem_of_app, list_elem_of_singleton.
    destruct (decide (y = x)) as [->|Hy].
    + split; [intros _; by left | intros _; by right].
    + split; [intros [? | ?]; [by right | done] | intros [[? _] | [_ ?]]; [done | by left]].
Qed.

Lemma toggle_others (x : string) (l : list string) :
  List.filter (λ id, negb (String.eqb id x)) (GeofenceLocationDialog.toggleEmployee x l)
  = List.filter (λ id, negb (String.eqb id x)) l.
Proof.
  unfold GeofenceLocationDialog.toggleEmployee. destruct (array_includes l x).
  - apply SupabaseFacts.filter_filter_bool.
  - rewrite List.filter_app. simpl. rewrite String.eqb_refl. simpl.
    apply app_nil_r.
Qed.

Lemma toggle_twice (x y : string) (l : list string) :
  y ∈ GeofenceLocationDialog.toggleEmployee x (GeofenceLocationDialog.toggleEmployee x l) ↔ y ∈ l.
Proof.
  rewrite !toggle_elem. destruct (decide (y = x)) as [->|Hy].
  - split.
    + intros [[_ H] | [H _]]; [|done].
      destruct (decide (x ∈ l)); [done|]. exfalso. apply H. by left.
    + intros H. left. split; [done|]. intros [[_ ?] | [? _]]; done.
  - split; [intros [[? _] | [_ [[? _] | [_ ?]]]]; done|].
    intros H. right. split; [done|]. by right.
Qed.

Lemma toggle_NoDup (x : string) (l : list string) :
  NoDup l → NoDup (GeofenceLocationDialog.toggleEmployee x l).
Proof.
  intros H. unfold GeofenceLocationDialog.toggleEmployee. destruct (array_includes l x) eqn:E.
  - by apply SupabaseFacts.NoDup_filter_bool.
  - apply NoDup_app. split; [done|]. split; [|apply NoDup_singleton].
    intros y Hy ->%list_elem_of_singleton.
    apply array_includes_spec in Hy. congruence.
Qed.

(** X5.  A click on a location in the employee's assignment dialog changes
    the selection at that location only: the location is selected after the
    click exactly when it was not before, every other id keeps its place,
    and a second click gives back the same set of ids.  The list of
    locations and the loading flag are not touched. *)
Theorem handleToggleLocation_flips_one (locationId : string) (st : State) :
  let st1 := handleToggleLocation locationId st in
  let st2 := handleToggleLocation locationId st1 in
  (locationId ∈ selectedLocations st1 ↔ locationId ∉ selectedLocations st) ∧
  List.filter (λ id, negb (String.eqb id locationId)) (selectedLocations st1)
  = List.filter (λ id, negb (String.eqb id locationId)) (selectedLocations st) ∧
  (∀ id, id ∈ selectedLocations st2 ↔ id ∈ selectedLocations st) ∧
  locations st1 = locations st ∧ isLoading st1 = isLoading st.
Proof.
  intros st1 st2.
  change (selectedLocations st1) with (GeofenceLocationDialog.toggleEmployee locationId (selectedLocations st)).
  change (selectedLocations st2)
    with (GeofenceLocationDialog.toggleEmployee locationId (GeofenceLocationDialog.toggleEmployee locationId (selectedLocations st))).
  split.
  { rewrite toggle_elem. split; [intros [[_ ?] | [? _]]; done | intros ?; by left]. }
  split; [apply toggle_others|].
  split; [intros id; apply toggle_twice | done].
Qed.

(** X6.  A click on an employee in the open location dialog, with the
    effect that resets the form after it.  The handler toggles the employee
    in the current value of the field (the employee is in the new list
    exactly when it was not in the old one, every other id keeps its place)
    and stores the new list in [selectedEmployees].  The effect then runs,
    since that cell is among its dependencies.  When a location is edited,
    the form gets the new list, and its other fields are set back to the
    values of the location; for a new location the form is set back to its
    initial values, the empty selection among them, so that the clicked
    employee is not in the value of the field.  Nothing is sent to the
    backend and no toast is shown. *)
Theorem click_is_kept_only_when_editing (location : option GeofenceLocation)
    (employeeId : string) (st : GeofenceLocationDialog.Selector)
    (w : Client.World) :
  let currentValues := GeofenceLocationDialog.fieldValue st in
  let newValues := GeofenceLocationDialog.toggleEmployee employeeId currentValues in
  ∃ st' w',
    GeofenceLocationDialog.click location employeeId st w
    = (Client.Returned st', w') ∧
    Client.db w' = Client.db w ∧
    Client.requests w' = Client.requests w ∧
    Client.toasts w' = Client.toasts w ∧
    GeofenceLocationDialog.selectedEmployees st' = newValues ∧
    (employeeId ∈ newValues ↔ employeeId ∉ currentValues) ∧
    List.filter (λ id, negb (String.eqb id employeeId)) newValues
    = List.filter (λ id, negb (String.eqb id employeeId)) currentValues ∧
    GeofenceLocationDialog.formValues st'
    = match location with
      | Some l =>
          {| GeofenceLocationDialog.in_name := loc_name l;
             GeofenceLocationDialog.in_address := loc_address l;
             GeofenceLocationDialog.in_latitude :=
               GeofenceLocationDialog.NumberValue (loc_latitude l);
             GeofenceLocationDialog.in_longitude :=
               GeofenceLocationDialog.NumberValue (loc_longitude l);
             GeofenceLocationDialog.in_radius :=
               GeofenceLocationDialog.NumberValue (loc_radius l);
             GeofenceLocationDialog.in_assignedEmployees := Some newValues |}
      | None =>
          {| GeofenceLocationDialog.in_name := "";
             GeofenceLocationDialog.in_address := "";
             GeofenceLocationDialog.in_latitude :=
               GeofenceLocationDialog.NumberValue (Js.Num 0);
             GeofenceLocationDialog.in_longitude :=
               GeofenceLocationDialog.NumberValue (Js.Num 0);
             GeofenceLocationDialog.in_radius :=
               GeofenceLocationDialog.NumberValue (Js.Num 100);
             GeofenceLocationDialog.in_assignedEmployees := Some [] |}
      end.
Proof.
  intros currentValues newValues.
  assert (Hflip : employeeId ∈ newValues ↔ employeeId ∉ currentValues).
  { subst newValues. rewrite toggle_elem.
    split; [intros [[_ ?] | [? _]]; done | intros ?; by left]. }
  unfold GeofenceLocationDialog.click, GeofenceLocationDialog.resetForm.
  destruct location as [l|]; eexists _, _; (split; [reflexivity|]);
    repeat (split; [done|]); (split; [apply toggle_others | done]).
Qed.

(** X7.  No sequence of clicks puts an id twice into a selection: starting
    from a list without duplicates (the empty selection, or the rows
    fetched from the table), the selection of either dialog stays without
    duplicates, which is what the unique pair of the assignment table asks
    of a save. *)
Theorem selection_stays_duplicate_free (clicks : list string) (st : State)
    (currentValues : list string) :
  NoDup (selectedLocations st) →
  NoDup currentValues →
  NoDup (selectedLocations
           (fold_left (λ s id, handleToggleLocation id s) clicks st)) ∧
  NoDup (fold_left (λ v id, GeofenceLocationDialog.toggleEmployee id v)
           clicks currentValues).
Proof.
  intros H1 H2. split.
  - revert st H1. induction clicks as [|x clicks IH]; intros st H; [done|].
    simpl. apply IH.
    change (NoDup (GeofenceLocationDialog.toggleEmployee x (selectedLocations st))). by apply toggle_NoDup.
  - revert currentValues H2.
    induction clicks as [|x clicks IH]; intros v H; [done|].
    simpl. apply IH. change (NoDup (GeofenceLocationDialog.toggleEmployee x v)). by apply toggle_NoDup.
Qed.

Lemma selection_stays_duplicate_free_witness :
  NoDup (selectedLocations Scenario.citraDialog) ∧
  NoDup ["E1"; "E2"] ∧
  NoDup (selectedLocations
           (fold_left (λ s id, handleToggleLocation id s) ["L2"; "L1"; "L2"; "L1"]
              Scenario.citraDialog)) ∧
  NoDup (fold_left (λ v id, GeofenceLocationDialog.toggleEmployee id v)
           ["L2"; "L1"; "L2"; "L1"] ["E1"; "E2"]).
Proof.
  assert (H1 : NoDup (selectedLocations Scenario.citraDialog)).
  { apply NoDup_singleton. }
  assert (H2 : NoDup ["E1"; "E2"]).
  { apply (bool_decide_unpack _). reflexivity. }
  split; [exact H1|]. split; [exact H2|].
  exact (selection_stays_duplicate_free ["L2"; "L1"; "L2"; "L1"]
           Scenario.citraDialog ["E1"; "E2"] H1 H2).
Defined.

End SelectionFacts.

(** ** The location form: what the resolver reports and what it passes on *)

Module FormFacts.
Import Supabase Client GeofenceLocationDialog GeofenceLocationDialogFacts.

(** The paths reported for five fields of which some are valid. *)
Lemma reported_fields (n a lat lng rad : bool) :
  let reported :=
    (if n then [] else ["name"]) ++ (if a then [] else ["address"])
    ++ (if lat then [] else ["latitude"]) ++ (if lng then [] else ["longitude"])
    ++ (if rad then [] else ["radius"]) in
  sublist reported ["name"; "address"; "latitude"; "longitude"; "radius"] ∧
  ("name" ∈ reported ↔ n = false) ∧
  ("address" ∈ reported ↔ a = false) ∧
  ("latitude" ∈ reported ↔ lat = false) ∧
  ("longitude" ∈ reported ↔ lng = false) ∧
  ("radius" ∈ reported ↔ rad = false).
Proof.
  assert (Hdec : ∀ (x : string) (l : list string) (b : bool),
            bool_decide (x ∈ l) = negb b → x ∈ l ↔ b = false).
  { intros x l b H. rewrite <- (bool_decide_spec (x ∈ l)), H. by destruct b. }
  destruct n, a, lat, lng, rad; simpl;
    (split; [repeat constructor|]); repeat split; by apply Hdec.
Qed.

Section Schema.
Variable Number : string → Js.JsNumber.

Lemma formSchema_issues_of (input : FormInput) :
  issues_of (formSchema Number input)
  = issues_of (nonEmptyString "name" "Name is required" (in_name input))
    ++ issues_of (nonEmptyString "address" "Address is required" (in_address input))
    ++ issues_of (refinedNumber Number "latitude" signedDecimal checkLatitude
                    "Latitude must be between -90 and 90" (in_latitude input))
    ++ issues_of (refinedNumber Number "longitude" signedDecimal checkLongitude
                    "Longitude must be between -180 and 180" (in_longitude input))
    ++ issues_of (refinedNumber Number "radius" unsignedDecimal checkRadius
                    "Radius must be greater than 0" (in_radius input)).
Proof. unfold formSchema. by repeat case_match. Qed.

Lemma nonEmptyString_reported (field msg v : string) :
  map path (issues_of (nonEmptyString field msg v))
  = if accepted (nonEmptyString field msg v) then [] else [field].
Proof. unfold nonEmptyString. by destruct (_ <=? _)%nat. Qed.

Lemma refinedNumber_reported (field msg : string) (re : string → bool)
    (check : Js.JsNumber → bool) (v : NumberInput) :
  map path (issues_of (refinedNumber Number field re check msg v))
  = if accepted (refinedNumber Number field re check msg v) then [] else [field].
Proof.
  unfold refinedNumber.
  destruct (numberOrNumericString Number re v) as [val|]; [|done].
  by destruct (check val).
Qed.

Lemma nonEmptyString_rejected (field msg v : string) :
  accepted (nonEmptyString field msg v) = false ↔ v = "".
Proof. unfold nonEmptyString. by destruct v. Qed.

Lemma refinedNumber_rejected (signed : bool) (field msg : string)
    (re : string → bool) (check : Js.JsNumber → bool) (good : Js.JsNumber → Prop)
    (v : NumberInput) :
  (∀ s, re s = true ↔ DecimalLiteral signed s) →
  (∀ x, check x = true ↔ good x) →
  accepted (refinedNumber Number field re check msg v) = false ↔
  ¬ ∃ x, Denotes Number signed v x ∧ good x.
Proof.
  intros Hre Hcheck.
  destruct (refinedNumber Number field re check msg v) as [x|l] eqn:E; simpl.
  - split; [done|]. intros H. exfalso. apply H. exists x.
    apply refinedNumber_spec in E as [D C].
    split; [by apply (numberOrNumericString_spec Number re signed) | by apply Hcheck].
  - split; [|done]. intros _ (x & D & C).
    apply (numberOrNumericString_spec Number re signed) in D; [|done].
    apply Hcheck in C.
    by rewrite (proj2 (refinedNumber_spec Number field msg re check v x) (conj D C))
      in E.
Qed.

(** X8.  The resolver reports per field: the issues come in the order of
    the fields of the form, at most one for each, and a field has an issue
    exactly when its own value is invalid, whatever the other fields
    hold. *)
Theorem formSchema_reports_each_invalid_field (input : FormInput) :
  let reported := map path (issues_of (formSchema Number input)) in
  sublist reported ["name"; "address"; "latitude"; "longitude"; "radius"] ∧
  ("name" ∈ reported ↔ in_name input = "") ∧
  ("address" ∈ reported ↔ in_address input = "") ∧
  ("latitude" ∈ reported ↔
     ¬ ∃ lat, Denotes Number true (in_latitude input) lat ∧ between (-90) 90 lat) ∧
  ("longitude" ∈ reported ↔
     ¬ ∃ lng, Denotes Number true (in_longitude input) lng ∧ between (-180) 180 lng) ∧
  ("radius" ∈ reported ↔
     ¬ ∃ r, Denotes Number false (in_radius input) r ∧ positive r).
Proof.
  intros reported. subst reported.
  rewrite formSchema_issues_of, !map_app, !nonEmptyString_reported,
    !refinedNumber_reported.
  rewrite <- (nonEmptyString_rejected "name" "Name is required"),
    <- (nonEmptyString_rejected "address" "Address is required"),
    <- (refinedNumber_rejected true "latitude"
          "Latitude must be between -90 and 90" signedDecimal checkLatitude
          (between (-90) 90) (in_latitude input)
          signedDecimal_spec checkLatitude_spec),
    <- (refinedNumber_rejected true "longitude"
          "Longitude must be between -180 and 180" signedDecimal checkLongitude
          (between (-180) 180) (in_longitude input)
          signedDecimal_spec checkLongitude_spec),
    <- (refinedNumber_rejected false "radius"
          "Radius must be greater than 0" unsignedDecimal checkRadius
          positive (in_radius input) unsignedDecimal_spec checkRadius_spec).
  apply reported_fields.
Qed.

(** X9.  What the dialog hands to the page has passed the resolver: name
    and address are the non-empty strings that were entered (the fall-back
    to the stored address of [handleSubmit] and of the update branch is
    never taken), latitude, longitude and radius are within their ranges,
    and the selection is always a list. *)
Theorem handleSubmit_passes_validated_values (input : FormInput)
    (data : FormValues) (location : option GeofenceLocation) :
  formSchema Number input = inl data →
  let fd := handleSubmit location data in
  LocationsPage.fd_name fd = in_name input ∧ in_name input ≠ "" ∧
  LocationsPage.fd_address fd = in_address input ∧ in_address input ≠ "" ∧
  between (-90) 90 (LocationsPage.fd_latitude fd) ∧
  between (-180) 180 (LocationsPage.fd_longitude fd) ∧
  positive (LocationsPage.fd_radius fd) ∧
  LocationsPage.fd_assignedEmployees fd
    = Some (default [] (in_assignedEmployees input)) ∧
  ∀ env selected,
    pl_address (LocationsPage.updateData env selected fd) = in_address input.
Proof.
  intros H fd. subst fd. unfold formSchema in H.
  destruct (nonEmptyString "name" _ _) as [n|] eqn:En; [|by repeat case_match].
  destruct (nonEmptyString "address" _ _) as [a|] eqn:Ea; [|by repeat case_match].
  destruct (refinedNumber Number "latitude" _ _ _ _) as [lat|] eqn:E1;
    [|by repeat case_match].
  destruct (refinedNumber Number "longitude" _ _ _ _) as [lng|] eqn:E2;
    [|by repeat case_match].
  destruct (refinedNumber Number "radius" _ _ _ _) as [rad|] eqn:E3; [|done].
  injection H as <-.
  apply nonEmptyString_spec in En as [Hn ->], Ea as [Ha ->].
  apply refinedNumber_spec in E1 as [_ C1], E2 as [_ C2], E3 as [_ C3].
  apply checkLatitude_spec in C1. apply checkLongitude_spec in C2.
  apply checkRadius_spec in C3.
  assert (Haddr : LocationsPage.or_else (in_address input)
                    (LocationsPage.or_else
                       match location with Some l => loc_address l | None => "" end "")
                  = in_address input).
  { unfold LocationsPage.or_else at 1.
    by rewrite (proj2 (JsFacts.truthy_true _) Ha). }
  unfold handleSubmit. cbn [LocationsPage.fd_name LocationsPage.fd_address
    LocationsPage.fd_latitude LocationsPage.fd_longitude LocationsPage.fd_radius
    LocationsPage.fd_assignedEmployees name address latitude longitude radius
    assignedEmployees].
  rewrite Haddr. repeat (split; [done|]).
  intros env selected. unfold LocationsPage.updateData, LocationsPage.dataWithTimestamp.
  cbn [pl_address LocationsPage.fd_address].
  unfold LocationsPage.or_else at 1.
  by rewrite (proj2 (JsFacts.truthy_true _) Ha).
Qed.

End Schema.

Lemma handleSubmit_passes_validated_values_witness :
  ∃ data,
    formSchema decimalValue Scenario.hqInput = inl data ∧
    LocationsPage.fd_address (handleSubmit (Some (sample "HQ" "Old Street 9")) data)
    = "1 Main St" ∧
    LocationsPage.fd_assignedEmployees
      (handleSubmit (Some (sample "HQ" "Old Street 9")) data)
    = Some ["E1"; "E2"].
Proof.
  eexists. split; [reflexivity|].
  pose proof (handleSubmit_passes_validated_values decimalValue Scenario.hqInput _
                (Some (sample "HQ" "Old Street 9")) eq_refl) as H.
  cbv zeta in H. destruct H as (_ & _ & Ha & _ & _ & _ & _ & Hs & _).
  split; [exact Ha | exact Hs].
Defined.

End FormFacts.

(** ** More rules for the effect monad *)

Module EffectFacts.
Import Supabase Client ClientFacts.

(** A query that the backend refuses: the request is recorded, nothing
    else happens. *)
Lemma returns_query_failed {A} (env : Env) (r : Request)
    (run : Db → Response A * Db) (w : World) (e : Error)
    (P : Response A → World → Prop) :
  backend_error env r = Some e →
  P (failed e) (add_request r w) →
  returns (query env r run) w P.
Proof. intros He HP. unfold returns, query. rewrite He. eauto. Qed.

Lemma returns_weaken {A} (m : M A) (w : World) (P Q : A → World → Prop) :
  returns m w P → (∀ a w', P a w' → Q a w') → returns m w Q.
Proof. intros (a & w' & E & HP) H. exists a, w'. eauto. Qed.

Lemma returns_eq {A} (m : M A) (w : World) (P : A → World → Prop) :
  returns m w P → ∃ a w', m w = (Returned a, w') ∧ P a w'.
Proof. done. Qed.

Section Maintains.
Context (R : Db → Db → Prop) `{!Reflexive R, !Transitive R}.


Lemma maintains_throw {A} (e : Error) : maintains R (throw e : M A).
Proof. intros w. simpl. reflexivity. Qed.








End Maintains.

(** What the console, the toasts and the callbacks leave alone. *)
Lemma preserves_storage_query {A} (env : Env) (r : Request)
    (run : Db → Response A * Db) :
  preserves storage (query env r run).
Proof.
  intros w. unfold query. destruct (backend_error env r); [done|].
  by destruct (run (db (add_request r w))).
Qed.

Lemma preserves_callbacks_query {A} (env : Env) (r : Request)
    (run : Db → Response A * Db) :
  preserves callbacks (query env r run).
Proof.
  intros w. unfold query. destruct (backend_error env r); [done|].
  by destruct (run (db (add_request r w))).
Qed.

End EffectFacts.

(** ** The locations page: failures, creation, refresh *)

Module PageFacts.
Import Supabase Client ClientFacts EffectFacts LocationsPage LocationsPageFacts.

(** A listing, whatever the backend answers. *)
Lemma returns_fetchLocations_any (env : Env) (st : State) (w : World)
    (P : State → World → Prop) :
  (∀ st' w',
     db w' = db w → storage w' = storage w →
     isDialogOpen st' = isDialogOpen st →
     selectedLocation st' = selectedLocation st →
     isLoading st' = false →
     match backend_error env SelectLocations with
     | None =>
         locations st' = listing env (db w) ∧ toasts w' = toasts w ∧
         requests w' = requests w ++ fetchRequests (db w)
     | Some _ =>
         locations st' = locations st ∧
         toasts w' = toasts w ++ [load_failed_toast] ∧
         requests w' = requests w ++ [SelectLocations]
     end →
     P st' w') →
  returns (fetchLocations env st) w P.
Proof.
  intros HP. destruct (backend_error env SelectLocations) as [e|] eqn:He.
  - destruct (fetchLocations_run_failed env st w e He)
      as (w' & E & Hd & Ht & Hs & Hr).
    eexists _, w'. split; [exact E|]. by apply HP.
  - destruct (fetchLocations_run_ok env st w He) as (w' & E & Hd & Ht & Hs & Hr).
    eexists _, w'. split; [exact E|]. by apply HP.
Qed.

(** *** The update branch, step by step *)

(** The update itself is refused. *)
Lemma update_branch_update_fails (env : Env) (st : State)
    (selected : GeofenceLocation) (fd : FormData) (w : World) (e : Error) :
  selectedLocation st = Some selected →
  backend_error env (UpdateLocation (loc_id selected) (updateData env selected fd))
    = Some e →
  returns (handleSubmitLocation env st fd) w (λ st' w',
    st' = st ∧ db w' = db w ∧ storage w' = storage w ∧
    toasts w' = toasts w ++ [save_failed_toast e] ∧
    requests w'
      = requests w
        ++ [UpdateLocation (loc_id selected) (updateData env selected fd)]).
Proof.
  intros Hsel HU. unfold handleSubmitLocation. rewrite Hsel.
  apply returns_bind, returns_modify, returns_try_catch_handler.
  apply throws_bind_l, throws_bind_r, returns_modify.
  apply throws_bind_r, returns_modify.
  apply throws_bind_r, returns_modify.
  apply throws_bind_r, (returns_query_failed _ _ _ _ e); [exact HU|].
  apply throws_bind_r, returns_modify.
  apply throws_bind_l, (throws_throw_if_error _ e); [done|].
  apply returns_bind, returns_modify, returns_bind, returns_modify, returns_ret.
  done.
Qed.

(** The update is accepted, the delete of the assignments is refused. *)
Lemma update_branch_delete_fails (env : Env) (st : State)
    (selected : GeofenceLocation) (fd : FormData) (w : World) (e : Error) :
  selectedLocation st = Some selected →
  backend_error env (UpdateLocation (loc_id selected) (updateData env selected fd))
    = None →
  backend_error env (DeleteAssignmentsOfLocation (loc_id selected)) = Some e →
  returns (handleSubmitLocation env st fd) w (λ st' w',
    st' = st ∧
    db w' = (update_location (loc_id selected) (updateData env selected fd) (db w)).2 ∧
    storage w' = storage w ∧
    toasts w' = toasts w ++ [save_failed_toast e] ∧
    requests w'
      = requests w
        ++ [UpdateLocation (loc_id selected) (updateData env selected fd);
            DeleteAssignmentsOfLocation (loc_id selected)]).
Proof.
  intros Hsel HU HD. unfold handleSubmitLocation. rewrite Hsel.
  apply returns_bind, returns_modify, returns_try_catch_handler.
  apply throws_bind_l, throws_bind_r, returns_modify.
  apply throws_bind_r, returns_modify.
  apply throws_bind_r, returns_modify.
  apply throws_bind_r, returns_query; [exact HU|].
  apply throws_bind_r, returns_modify.
  apply throws_bind_r, returns_throw_if_ok; [done|].
  apply throws_bind_r, (returns_query_failed _ _ _ _ e); [exact HD|].
  apply throws_bind_l, (throws_throw_if_error _ e); [done|].
  apply returns_bind, returns_modify, returns_bind, returns_modify, returns_ret.
  cbn [db storage toasts requests set_db add_toast add_console add_request].
  split; [done|]. split.
  { by destruct (update_location _ _ _). }
  split; [done|]. split; [done|]. by rewrite <- app_assoc.
Qed.

(** Update and delete are accepted, the bulk insert is refused, by the
    backend or by a constraint. *)
Lemma update_branch_insert_fails (env : Env) (st : State)
    (selected : GeofenceLocation) (fd : FormData) (w : World) :
  selectedLocation st = Some selected →
  backend_error env (UpdateLocation (loc_id selected) (updateData env selected fd))
    = None →
  backend_error env (DeleteAssignmentsOfLocation (loc_id selected)) = None →
  has_selection (fd_assignedEmployees fd) = true →
  backend_error env
    (InsertAssignments (assignments_for (loc_id selected) (fd_assignedEmployees fd)))
    ≠ None ∨
  insert_allowed (assignments_for (loc_id selected) (fd_assignedEmployees fd))
    (delete_assignments_of_location (loc_id selected)
       (update_location (loc_id selected) (updateData env selected fd) (db w)).2)
    = false →
  returns (handleSubmitLocation env st fd) w (λ st' w',
    st' = st ∧
    db w' = delete_assignments_of_location (loc_id selected)
              (update_location (loc_id selected) (updateData env selected fd)
                 (db w)).2 ∧
    storage w' = storage w ∧
    (∃ e, toasts w' = toasts w ++ [save_failed_toast e]) ∧
    requests w' = requests w ++ saveRequests env selected fd).
Proof.
  intros Hsel HU HD Hhas HI. unfold handleSubmitLocation. rewrite Hsel, Hhas.
  apply returns_bind, returns_modify, returns_try_catch_handler.
  apply throws_bind_l, throws_bind_r, returns_modify.
  apply throws_bind_r, returns_modify.
  apply throws_bind_r, returns_modify.
  apply throws_bind_r, returns_query; [exact HU|].
  apply throws_bind_r, returns_modify.
  apply throws_bind_r, returns_throw_if_ok; [done|].
  apply throws_bind_r, returns_query; [exact HD|].
  apply throws_bind_r, returns_throw_if_ok; [done|].
  assert (Hreq : ∀ x : list Request,
            ((x ++ [UpdateLocation (loc_id selected) (updateData env selected fd)])
             ++ [DeleteAssignmentsOfLocation (loc_id selected)])
            ++ [InsertAssignments
                  (assignments_for (loc_id selected) (fd_assignedEmployees fd))]
            = x ++ saveRequests env selected fd).
  { intros x. unfold saveRequests. rewrite Hhas. by rewrite <- !app_assoc. }
  destruct (backend_error env (InsertAssignments
              (assignments_for (loc_id selected) (fd_assignedEmployees fd))))
    as [e|] eqn:HIe.
  - apply throws_bind_l, throws_bind_r, (returns_query_failed _ _ _ _ e);
      [exact HIe|].
    apply (throws_throw_if_error _ e); [done|].
    apply returns_bind, returns_modify, returns_bind, returns_modify, returns_ret.
    cbn [db storage toasts requests set_db add_toast add_console add_request].
    split; [done|]. split.
    { by destruct (update_location _ _ _). }
    split; [done|]. split; [by exists e|]. apply Hreq.
  - destruct HI as [HI | Hrej]; [done|].
    apply throws_bind_l, throws_bind_r, returns_query; [exact HIe|].
    cbn [snd fst db set_db add_request add_console].
    change (let '(rows, d') := update_location (loc_id selected)
              (updateData env selected fd) (db w) in (ok rows, d')).2
      with (update_location (loc_id selected) (updateData env selected fd) (db w)).2.
    destruct (SupabaseFacts.insert_assignments_rejected env _ _ Hrej) as (e & E).
    rewrite E. cbn [fst snd].
    apply (throws_throw_if_error _ e); [done|].
    apply returns_bind, returns_modify, returns_bind, returns_modify, returns_ret.
    cbn [db storage toasts requests set_db add_toast add_console add_request].
    split; [done|]. split; [done|]. split; [done|]. split; [by exists e|].
    apply Hreq.
Qed.

(** Every statement is accepted. *)
Lemma update_branch_succeeds (env : Env) (st : State)
    (selected : GeofenceLocation) (fd : FormData) (w : World) :
  selectedLocation st = Some selected →
  backend_error env (UpdateLocation (loc_id selected) (updateData env selected fd))
    = None →
  backend_error env (DeleteAssignmentsOfLocation (loc_id selected)) = None →
  (has_selection (fd_assignedEmployees fd) = true →
   backend_error env
     (InsertAssignments (assignments_for (loc_id selected) (fd_assignedEmployees fd)))
     = None ∧
   insert_allowed (assignments_for (loc_id selected) (fd_assignedEmployees fd))
     (delete_assignments_of_location (loc_id selected)
        (update_location (loc_id selected) (updateData env selected fd) (db w)).2)
     = true) →
  returns (handleSubmitLocation env st fd) w (λ st' w',
    geofence_locations (db w')
      = geofence_locations
          (update_location (loc_id selected) (updateData env selected fd) (db w)).2 ∧
    assignment_pairs (db w')
      = List.filter (λ p, negb (String.eqb p.2 (loc_id selected)))
          (assignment_pairs (db w))
        ++ assignments_for (loc_id selected) (fd_assignedEmployees fd) ∧
    employees (db w') = employees (db w) ∧
    isDialogOpen st' = false ∧ selectedLocation st' = Some selected ∧
    isLoading st' = false ∧
    match backend_error env SelectLocations with
    | None =>
        locations st' = listing env (db w') ∧
        toasts w' = toasts w ++ [updated_toast] ∧
        requests w'
          = requests w ++ saveRequests env selected fd ++ fetchRequests (db w')
    | Some _ =>
        locations st' = locations st ∧
        toasts w' = toasts w ++ [updated_toast; load_failed_toast] ∧
        requests w'
          = requests w ++ saveRequests env selected fd ++ [SelectLocations]
    end).
Proof.
  intros Hsel HU HD HI. unfold handleSubmitLocation. rewrite Hsel.
  apply returns_bind, returns_modify, returns_try_catch.
  apply returns_bind, returns_bind, returns_modify.
  apply returns_bind, returns_modify.
  apply returns_bind, returns_modify.
  apply returns_bind, returns_query; [exact HU|].
  apply returns_bind, returns_modify.
  apply returns_bind, returns_throw_if_ok; [done|].
  apply returns_bind, returns_query; [exact HD|].
  apply returns_bind, returns_throw_if_ok; [done|].
  set (d1 := (update_location (loc_id selected) (updateData env selected fd) (db w)).2)
    in *.
  set (d2 := delete_assignments_of_location (loc_id selected) d1) in *.
  assert (Hpairs2 : assignment_pairs d2
            = List.filter (λ p, negb (String.eqb p.2 (loc_id selected)))
                (assignment_pairs (db w))).
  { subst d2 d1. by rewrite SupabaseFacts.pairs_delete_of_location. }
  assert (Hemp2 : employees d2 = employees (db w)).
  { subst d2 d1. by destruct (update_location _ _ _) eqn:E; inversion E. }
  destruct (has_selection (fd_assignedEmployees fd)) eqn:Hhas.
  - destruct (HI eq_refl) as [HIe Hallowed].
    destruct (SupabaseFacts.insert_assignments_allowed env _ _ Hallowed)
      as (d3 & E3 & Hpairs3 & Hemp3 & Hlocs3).
    apply returns_bind, returns_bind, returns_query; [exact HIe|].
    cbn [snd fst db set_db add_request add_console].
    change (let '(rows, d') := update_location (loc_id selected)
              (updateData env selected fd) (db w) in (ok rows, d')).2 with d1.
    unfold d2 in E3. rewrite E3.
    cbn [fst snd]. apply returns_throw_if_ok; [done|].
    apply returns_modify, returns_fetchLocations_any.
    intros st' w' Hd Hs Hopen Hselected Hload Hcase.
    cbn [db toasts requests set_db add_toast add_console add_request] in Hd, Hcase.
    rewrite Hd. split; [done|]. split; [by rewrite Hpairs3, Hpairs2|].
    split; [by rewrite Hemp3, Hemp2|]. split; [done|]. split; [by rewrite Hselected|].
    split; [done|].
    destruct (backend_error env SelectLocations);
      destruct Hcase as (Hl & Ht & Hr); (split; [done|]);
      (split; [by rewrite Ht, <- ?app_assoc|]);
      rewrite Hr; unfold saveRequests; rewrite Hhas; by rewrite <- !app_assoc.
  - apply returns_bind, returns_ret.
    apply returns_modify, returns_fetchLocations_any.
    intros st' w' Hd Hs Hopen Hselected Hload Hcase.
    cbn [db toasts requests set_db add_toast add_console add_request snd] in Hd, Hcase.
    change (let '(rows, d') := update_location (loc_id selected)
              (updateData env selected fd) (db w) in (ok rows, d')).2 with d1
      in Hd, Hcase.
    fold d2 in Hd, Hcase. rewrite Hd. split; [done|].
    split; [by rewrite Hpairs2, (has_selection_false _ _ Hhas), app_nil_r|].
    split; [done|]. split; [done|]. split; [by rewrite Hselected|].
    split; [done|].
    destruct (backend_error env SelectLocations);
      destruct Hcase as (Hl & Ht & Hr); (split; [done|]);
      (split; [by rewrite Ht, <- ?app_assoc|]);
      rewrite Hr; unfold saveRequests; rewrite Hhas; by rewrite <- !app_assoc.
Qed.

(** *** Failures of a save *)

(** X10.  A save of an existing location that fails before the insert
    changes no assignment: when the backend refuses the update of the row,
    or accepts it and refuses the delete of the assignments, every
    assignment row is as before, the page keeps its state (the dialog stays
    open) and shows the error with the message of the backend.  After a
    refused update the database is untouched and nothing else was sent. *)
Theorem handleSubmitLocation_failure_before_insert (env : Env) (st : State)
    (selected : GeofenceLocation) (fd : FormData) (w : World) (e : Error) :
  selectedLocation st = Some selected →
  backend_error env (UpdateLocation (loc_id selected) (updateData env selected fd))
    = Some e ∨
  (backend_error env (UpdateLocation (loc_id selected) (updateData env selected fd))
     = None ∧
   backend_error env (DeleteAssignmentsOfLocation (loc_id selected)) = Some e) →
  ∃ w',
    handleSubmitLocation env st fd w = (Returned st, w') ∧
    employee_location_assignments (db w') = employee_location_assignments (db w) ∧
    toasts w' = toasts w ++ [save_failed_toast e] ∧
    (backend_error env (UpdateLocation (loc_id selected) (updateData env selected fd))
       = Some e →
     db w' = db w ∧
     requests w'
       = requests w
         ++ [UpdateLocation (loc_id selected) (updateData env selected fd)]) ∧
    (backend_error env (UpdateLocation (loc_id selected) (updateData env selected fd))
       = None →
     requests w'
       = requests w
         ++ [UpdateLocation (loc_id selected) (updateData env selected fd);
             DeleteAssignmentsOfLocation (loc_id selected)]).
Proof.
  intros Hsel [HU | [HU HD]].
  - destruct (update_branch_update_fails env st selected fd w e Hsel HU)
      as (st' & w' & E & -> & Hd & _ & Ht & Hr).
    exists w'. split; [exact E|]. split; [by rewrite Hd|]. split; [exact Ht|].
    split; [done | congruence].
  - destruct (update_branch_delete_fails env st selected fd w e Hsel HU HD)
      as (st' & w' & E & -> & Hd & _ & Ht & Hr).
    exists w'. split; [exact E|]. split.
    { rewrite Hd. by destruct (update_location _ _ _) eqn:Eu; inversion Eu. }
    split; [exact Ht|]. split; [congruence | done].
Qed.

Lemma handleSubmitLocation_failure_before_insert_witness :
  selectedLocation Scenario.page0 = Some (of_row Scenario.hq) ∧
  backend_error Scenario.envUpdateFails
    (UpdateLocation "L1" (updateData Scenario.envUpdateFails (of_row Scenario.hq)
                            Scenario.form0))
    = Some {| message := "permission denied" |} ∧
  ∃ w',
    handleSubmitLocation Scenario.envUpdateFails Scenario.page0 Scenario.form0
      Scenario.w0 = (Returned Scenario.page0, w') ∧
    db w' = Scenario.db0 ∧
    toasts w'
    = [ {| title := "Error";
           description := "Failed to save location: permission denied";
           variant := Some "destructive" |} ].
Proof.
  split; [reflexivity|]. split; [reflexivity|].
  destruct (handleSubmitLocation_failure_before_insert Scenario.envUpdateFails
              Scenario.page0 (of_row Scenario.hq) Scenario.form0 Scenario.w0
              {| message := "permission denied" |} eq_refl (or_introl eq_refl))
    as (w' & E & _ & Ht & Hdb & _).
  exists w'. split; [exact E|]. split; [exact (proj1 (Hdb eq_refl)) | exact Ht].
Defined.

(** A selection that the database cannot accept. *)
Lemma unacceptable_selection (d : Db) (id : string) (p : LocationData)
    (a : option (list string)) :
  has_selection a = true →
  ¬ NoDup (default [] a) ∨
  Exists (λ x, employee_exists d x = false) (default [] a) ∨
  location_exists d id = false →
  insert_allowed (assignments_for id a)
    (delete_assignments_of_location id (update_location id p d).2) = false.
Proof.
  intros Hhas H. unfold insert_allowed. apply andb_false_iff.
  destruct H as [Hdup | [Hemp | Hloc]].
  - right. apply bool_decide_eq_false. intros Hnd. apply Hdup.
    apply NoDup_app in Hnd as (_ & _ & Hnd). unfold assignments_for in Hnd.
    by apply NoDup_fmap_1 in Hnd.
  - left. apply not_true_iff_false. rewrite forallb_forall. intros Hall.
    apply Exists_exists in Hemp as (x & Hx & Hfalse).
    specialize (Hall (x, id)). rewrite andb_true_iff in Hall.
    destruct Hall as [He _].
    { unfold assignments_for. apply in_map_iff. exists x.
      split; [done | by apply list_elem_of_In]. }
    cbn [fst snd] in He.
    change (employee_exists (delete_assignments_of_location id
              (update_location id p d).2) x)
      with (employee_exists d x) in He.
    congruence.
  - left. apply not_true_iff_false. rewrite forallb_forall. intros Hall.
    destruct a as [[|x sel]|]; try done.
    specialize (Hall (x, id)). rewrite andb_true_iff in Hall.
    destruct Hall as [_ Hl]; [by left|].
    cbn [fst snd] in Hl.
    change (location_exists (delete_assignments_of_location id
              (update_location id p d).2) id)
      with (location_exists (update_location id p d).2 id) in Hl.
    rewrite SupabaseFacts.location_exists_update in Hl. congruence.
Qed.

(** X11.  The replace is not atomic.  When update and delete are accepted
    and the insert of a non-empty selection fails (the backend refuses it,
    an employee is selected twice, an employee id or the location itself is
    not in the database), the location is left with no assignment at all:
    its old rows stay deleted.  The rows of the other locations are as
    before, the page keeps its state and shows the error. *)
Theorem handleSubmitLocation_failed_insert_is_not_rolled_back (env : Env)
    (st : State) (selected : GeofenceLocation) (fd : FormData) (w : World) :
  selectedLocation st = Some selected →
  backend_error env (UpdateLocation (loc_id selected) (updateData env selected fd))
    = None →
  backend_error env (DeleteAssignmentsOfLocation (loc_id selected)) = None →
  has_selection (fd_assignedEmployees fd) = true →
  backend_error env
    (InsertAssignments (assignments_for (loc_id selected) (fd_assignedEmployees fd)))
    ≠ None ∨
  ¬ NoDup (default [] (fd_assignedEmployees fd)) ∨
  Exists (λ x, employee_exists (db w) x = false)
    (default [] (fd_assignedEmployees fd)) ∨
  location_exists (db w) (loc_id selected) = false →
  ∃ e w',
    handleSubmitLocation env st fd w = (Returned st, w') ∧
    employees_assigned_to (db w') (loc_id selected) = [] ∧
    List.filter (λ a, negb (String.eqb (asg_location_id a) (loc_id selected)))
      (employee_location_assignments (db w'))
    = List.filter (λ a, negb (String.eqb (asg_location_id a) (loc_id selected)))
        (employee_location_assignments (db w)) ∧
    toasts w' = toasts w ++ [save_failed_toast e] ∧
    requests w' = requests w ++ saveRequests env selected fd.
Proof.
  intros Hsel HU HD Hhas Hbad.
  assert (Hfail :
    backend_error env
      (InsertAssignments (assignments_for (loc_id selected) (fd_assignedEmployees fd)))
      ≠ None ∨
    insert_allowed (assignments_for (loc_id selected) (fd_assignedEmployees fd))
      (delete_assignments_of_location (loc_id selected)
         (update_location (loc_id selected) (updateData env selected fd) (db w)).2)
      = false).
  { destruct Hbad as [? | Hbad]; [by left | right].
    by apply unacceptable_selection. }
  destruct (update_branch_insert_fails env st selected fd w Hsel HU HD Hhas Hfail)
    as (st' & w' & E & -> & Hd & _ & (e & Ht) & Hr).
  exists e, w'. split; [exact E|]. rewrite Hd.
  assert (Hrows : employee_location_assignments
            (update_location (loc_id selected) (updateData env selected fd) (db w)).2
          = employee_location_assignments (db w)).
  { by destruct (update_location _ _ _) eqn:Eu; inversion Eu. }
  split; [|split; [|done]].
  - unfold employees_assigned_to, delete_assignments_of_location.
    cbn [employee_location_assignments set_assignments].
    rewrite (SupabaseFacts.list_filter_nil_bool _ (List.filter _ _)); [done|].
    intros a Ha. apply SupabaseFacts.elem_of_filter_bool in Ha as [_ Ha].
    by apply negb_true_iff in Ha.
  - unfold delete_assignments_of_location.
    cbn [employee_location_assignments set_assignments].
    by rewrite SupabaseFacts.filter_filter_bool, Hrows.
Qed.

Lemma handleSubmitLocation_failed_insert_is_not_rolled_back_witness :
  selectedLocation Scenario.page0 = Some (of_row Scenario.hq) ∧
  has_selection (fd_assignedEmployees Scenario.formUnknown) = true ∧
  Exists (λ x, employee_exists (db Scenario.w0) x = false)
    (default [] (fd_assignedEmployees Scenario.formUnknown)) ∧
  ∃ w',
    handleSubmitLocation Scenario.env0 Scenario.page0 Scenario.formUnknown
      Scenario.w0 = (Returned Scenario.page0, w') ∧
    employees_assigned_to (db w') "L1" = [] ∧
    employees_assigned_to (db Scenario.w0) "L1" = ["E1"; "E2"].
Proof.
  assert (Hx : Exists (λ x, employee_exists (db Scenario.w0) x = false)
                 (default [] (fd_assignedEmployees Scenario.formUnknown))).
  { apply Exists_cons_hd. reflexivity. }
  split; [reflexivity|]. split; [reflexivity|]. split; [exact Hx|].
  destruct (handleSubmitLocation_failed_insert_is_not_rolled_back Scenario.env0
              Scenario.page0 (of_row Scenario.hq) Scenario.formUnknown Scenario.w0
              eq_refl eq_refl eq_refl eq_refl (or_intror (or_intror (or_introl Hx))))
    as (e & w' & E & Hnone & _).
  exists w'. split; [exact E|]. split; [exact Hnone | reflexivity].
Defined.

(** *** What a save of one location leaves alone *)

Lemma preserves_db_fun {A X} (g : Db → X) (m : M A) :
  preserves db m → preserves (λ w, g (db w)) m.
Proof. intros H w. by rewrite H. Qed.

Lemma update_location_other_rows (id : string) (p : LocationData)
    (rows : list LocationRow) :
  List.filter (λ r, negb (String.eqb (row_id r) id))
    (map (λ r, if String.eqb (row_id r) id then apply_update p r else r) rows)
  = List.filter (λ r, negb (String.eqb (row_id r) id)) rows.
Proof.
  induction rows as [|r rows IH]; [done|]. simpl.
  destruct (String.eqb (row_id r) id) eqn:E; simpl; rewrite E; simpl; by rewrite IH.
Qed.

Lemma update_location_ids (id : string) (p : LocationData)
    (rows : list LocationRow) :
  map row_id
    (map (λ r, if String.eqb (row_id r) id then apply_update p r else r) rows)
  = map row_id rows.
Proof.
  induction rows as [|r rows IH]; [done|]. simpl.
  destruct (String.eqb (row_id r) id); simpl; by rewrite IH.
Qed.

Lemma new_assignments_of_location (env : Env) (n : nat) (id : string)
    (a : option (list string)) :
  List.filter (λ x, negb (String.eqb (asg_location_id x) id))
    (new_assignments env n (assignments_for id a)) = [].
Proof.
  unfold assignments_for. generalize (default [] a). intros sel.
  revert n. induction sel as [|e sel IH]; intros n; simpl; [done|].
  by rewrite String.eqb_refl, IH.
Qed.

(** X12.  Whatever the backend answers, a save of an existing location
    stays with that location: the assignment rows of the other locations,
    the other location rows, the ids of all location rows, the employees
    and the profiles are as before. *)
Theorem handleSubmitLocation_update_touches_one_location (env : Env)
    (st : State) (selected : GeofenceLocation) (fd : FormData) (w : World) :
  selectedLocation st = Some selected →
  let w' := (handleSubmitLocation env st fd w).2 in
  List.filter (λ a, negb (String.eqb (asg_location_id a) (loc_id selected)))
    (employee_location_assignments (db w'))
  = List.filter (λ a, negb (String.eqb (asg_location_id a) (loc_id selected)))
      (employee_location_assignments (db w)) ∧
  List.filter (λ r, negb (String.eqb (row_id r) (loc_id selected)))
    (geofence_locations (db w'))
  = List.filter (λ r, negb (String.eqb (row_id r) (loc_id selected)))
      (geofence_locations (db w)) ∧
  map row_id (geofence_locations (db w')) = map row_id (geofence_locations (db w)) ∧
  employees (db w') = employees (db w) ∧
  profiles (db w') = profiles (db w).
Proof.
  intros Hsel w'. subst w'.
  set (g := λ d : Db,
    (List.filter (λ a, negb (String.eqb (asg_location_id a) (loc_id selected)))
       (employee_location_assignments d),
     List.filter (λ r, negb (String.eqb (row_id r) (loc_id selected)))
       (geofence_locations d),
     map row_id (geofence_locations d), employees d, profiles d)).
  assert (H : preserves (λ w, g (db w)) (handleSubmitLocation env st fd)).
  { unfold handleSubmitLocation. rewrite Hsel.
    apply preserves_bind; [by apply preserves_modify|]. intros _.
    apply preserves_try_catch.
    - apply preserves_bind;
        [|intros _; apply preserves_db_fun, fetchLocations_db].
      apply preserves_bind; [by apply preserves_modify|]. intros _.
      apply preserves_bind; [by apply preserves_modify|]. intros _.
      apply preserves_bind; [by apply preserves_modify|]. intros _.
      apply preserves_bind.
      { apply preserves_query. intros d. unfold g, update_location.
        cbn [snd geofence_locations employee_location_assignments employees
             profiles set_locations].
        by rewrite update_location_other_rows, update_location_ids. }
      intros r. apply preserves_bind; [by apply preserves_modify|]. intros _.
      apply preserves_bind; [apply preserves_throw_if_error|]. intros _.
      apply preserves_bind.
      { apply preserves_query. intros d. unfold g, delete_assignments_of_location.
        cbn [snd geofence_locations employee_location_assignments employees
             profiles set_assignments].
        by rewrite SupabaseFacts.filter_filter_bool. }
      intros r'. apply preserves_bind; [apply preserves_throw_if_error|]. intros _.
      apply preserves_bind; [|intros _; by apply preserves_modify].
      destruct (has_selection (fd_assignedEmployees fd)); [|apply preserves_ret].
      apply preserves_bind; [|intros; apply preserves_throw_if_error].
      apply preserves_query. intros d. unfold insert_assignments.
      destruct (insert_allowed _ d); [|done]. unfold g.
      cbn [snd geofence_locations employee_location_assignments employees
           profiles set_assignments set_uuid_count].
      by rewrite List.filter_app, new_assignments_of_location, app_nil_r.
    - intros e. apply preserves_bind; [by apply preserves_modify|]. intros _.
      apply preserves_bind; [by apply preserves_modify|]. intros _.
      apply preserves_ret. }
  specialize (H w). unfold g in H. by injection H.
Qed.

Lemma handleSubmitLocation_update_touches_one_location_witness :
  selectedLocation Scenario.page0 = Some (of_row Scenario.hq) ∧
  List.filter (λ a, negb (String.eqb (asg_location_id a) "L1"))
    (employee_location_assignments
       (db (handleSubmitLocation Scenario.envUpdateFails Scenario.page0
              Scenario.formUnknown Scenario.w0).2))
  = [Scenario.assignment "A3" "E3" "L2"] ∧
  map row_id
    (geofence_locations
       (db (handleSubmitLocation Scenario.envUpdateFails Scenario.page0
              Scenario.formUnknown Scenario.w0).2))
  = ["L1"; "L2"].
Proof.
  split; [reflexivity|].
  destruct (handleSubmitLocation_update_touches_one_location
              Scenario.envUpdateFails Scenario.page0 (of_row Scenario.hq)
              Scenario.formUnknown Scenario.w0 eq_refl) as (H1 & _ & H3 & _).
  split; [exact H1 | exact H3].
Defined.

(** *** The list after a save *)

Lemma elem_of_select_locations (d : Db) (r : LocationRow) :
  r ∈ select_locations d ↔ r ∈ geofence_locations d.
Proof. unfold select_locations. by rewrite merge_sort_Permutation. Qed.

Lemma listing_without (env : Env) (d : Db) (id : string) :
  location_exists d id = false →
  Forall (λ l, loc_id l ≠ id) (listing env d).
Proof.
  intros Hno. unfold listing. apply Forall_forall. intros l Hl.
  apply list_elem_of_fmap in Hl as (r & -> & Hr).
  apply elem_of_select_locations in Hr.
  destruct (listed_assigned_employees env d r) as (-> & _).
  intros Hid. apply not_true_iff_false in Hno. apply Hno.
  apply SupabaseFacts.location_exists_spec. eauto.
Qed.

Lemma employees_assigned_to_pairs (d : Db) (id : string) :
  employees_assigned_to d id
  = map fst (List.filter (λ p, String.eqb p.2 id) (assignment_pairs d)).
Proof.
  unfold employees_assigned_to, assignment_pairs.
  rewrite <- (SupabaseFacts.map_filter_comm pair_of (λ p, String.eqb p.2 id)).
  by rewrite map_map.
Qed.

Lemma employees_assigned_to_replaced (d : Db) (id : string)
    (pairs : list (string * string)) (a : option (list string)) :
  assignment_pairs d
  = List.filter (λ p, negb (String.eqb p.2 id)) pairs ++ assignments_for id a →
  employees_assigned_to d id = default [] a.
Proof.
  intros H. rewrite employees_assigned_to_pairs, H, List.filter_app.
  rewrite (SupabaseFacts.list_filter_nil_bool _ (List.filter _ pairs)).
  - simpl. unfold assignments_for. generalize (default [] a). intros sel.
    induction sel as [|e sel IH]; [done|]. simpl.
    rewrite String.eqb_refl. simpl. by rewrite IH.
  - intros p Hp. apply SupabaseFacts.elem_of_filter_bool in Hp as [_ Hp].
    by apply negb_true_iff in Hp.
Qed.

Lemma update_location_missing (id : string) (p : LocationData) (d : Db) :
  location_exists d id = false →
  geofence_locations (update_location id p d).2 = geofence_locations d.
Proof.
  unfold location_exists, update_location. cbn [snd geofence_locations set_locations].
  induction (geofence_locations d) as [|r rows IH]; [done|]. simpl.
  intros [Hr Hrows]%orb_false_iff. by rewrite Hr, IH.
Qed.

Lemma update_location_found (id : string) (p : LocationData) (d : Db)
    (r : LocationRow) :
  r ∈ geofence_locations (update_location id p d).2 →
  row_id r = id →
  ∃ r0, r0 ∈ geofence_locations d ∧ r = apply_update p r0.
Proof.
  unfold update_location. cbn [snd geofence_locations set_locations].
  intros Hr Hid. apply list_elem_of_fmap in Hr as (r0 & -> & Hr0).
  exists r0. split; [done|].
  destruct (String.eqb (row_id r0) id) eqn:E; [done|].
  apply String.eqb_neq in E. done.
Qed.

(** X13.  The page does not notice that the location it edits is gone.  A
    save for a selected location whose row is no longer in the table (it was
    deleted in the meantime, the selection of the page is not cleared by a
    delete) with no employee selected changes no location row, yet the
    page reports "Location updated successfully", closes the dialog and
    shows a list without the location. *)
Theorem handleSubmitLocation_update_of_missing_location (env : Env)
    (st : State) (selected : GeofenceLocation) (fd : FormData) (w : World) :
  fault_free env →
  selectedLocation st = Some selected →
  location_exists (db w) (loc_id selected) = false →
  has_selection (fd_assignedEmployees fd) = false →
  ∃ st' w',
    handleSubmitLocation env st fd w = (Returned st', w') ∧
    geofence_locations (db w') = geofence_locations (db w) ∧
    toasts w' = toasts w ++ [updated_toast] ∧
    isDialogOpen st' = false ∧
    Forall (λ l, loc_id l ≠ loc_id selected) (locations st').
Proof.
  intros Hff Hsel Hgone Hhas.
  destruct (update_branch_succeeds env st selected fd w Hsel (Hff _) (Hff _))
    as (st' & w' & E & Hrows & _ & _ & Hopen & _ & _ & Hcase).
  { intros H. congruence. }
  rewrite (Hff SelectLocations) in Hcase. destruct Hcase as (Hl & Ht & _).
  exists st', w'. split; [exact E|].
  rewrite update_location_missing in Hrows by done.
  split; [exact Hrows|]. split; [exact Ht|]. split; [exact Hopen|].
  rewrite Hl. apply listing_without.
  unfold location_exists in *. by rewrite Hrows.
Qed.

Lemma handleSubmitLocation_update_of_missing_location_witness :
  fault_free Scenario.env0 ∧
  selectedLocation Scenario.page0 = Some (of_row Scenario.hq) ∧
  location_exists (db Scenario.wNew) "L1" = false ∧
  has_selection (fd_assignedEmployees Scenario.formNobody) = false ∧
  ∃ st' w',
    handleSubmitLocation Scenario.env0 Scenario.page0 Scenario.formNobody
      Scenario.wNew = (Returned st', w') ∧
    geofence_locations (db w') = [] ∧
    toasts w' = [updated_toast].
Proof.
  assert (Hff : fault_free Scenario.env0) by (intros r; reflexivity).
  split; [exact Hff|]. split; [reflexivity|]. split; [reflexivity|].
  split; [reflexivity|].
  destruct (handleSubmitLocation_update_of_missing_location Scenario.env0
              Scenario.page0 (of_row Scenario.hq) Scenario.formNobody
              Scenario.wNew Hff eq_refl eq_refl eq_refl)
    as (st' & w' & E & Hrows & Ht & _).
  exists st', w'. split; [exact E|]. split; [exact Hrows | exact Ht].
Defined.

Lemma listed_fields (env : Env) (d : Db) (r : LocationRow) :
  loc_id (listed env d r) = row_id r ∧
  loc_name (listed env d r) = row_name r ∧
  loc_address (listed env d r) = row_address r ∧
  loc_latitude (listed env d r) = row_latitude r ∧
  loc_longitude (listed env d r) = row_longitude r ∧
  loc_radius (listed env d r) = row_radius r ∧
  loc_updated_at (listed env d r) = row_updated_at r.
Proof.
  unfold listed.
  by destruct (backend_error env (SelectAssignmentsOfLocation (row_id r))).
Qed.

(** X14.  What was saved is what the list shows.  After a save of an
    existing location on a backend that reports no error of its own (the
    employees of the selection exist, none is selected twice), the dialog
    is closed and the refreshed list has an entry for the location; every
    entry with its id carries the submitted name, address, coordinates and
    radius, the time of the save, and as assigned employees exactly the
    selected ones, each once (the query that lists them fixes no order). *)
Theorem handleSubmitLocation_list_shows_saved_location (env : Env)
    (st : State) (selected : GeofenceLocation) (fd : FormData) (w : World) :
  fault_free env →
  selectedLocation st = Some selected →
  unique_pairs (db w) →
  location_exists (db w) (loc_id selected) = true →
  NoDup (default [] (fd_assignedEmployees fd)) →
  Forall (λ e, employee_exists (db w) e = true)
    (default [] (fd_assignedEmployees fd)) →
  ∃ st' w',
    handleSubmitLocation env st fd w = (Returned st', w') ∧
    isDialogOpen st' = false ∧
    Exists (λ l, loc_id l = loc_id selected) (locations st') ∧
    Forall (λ l,
      loc_id l = loc_id selected →
      loc_name l = fd_name fd ∧
      loc_address l = pl_address (updateData env selected fd) ∧
      loc_latitude l = fd_latitude fd ∧
      loc_longitude l = fd_longitude fd ∧
      loc_radius l = fd_radius fd ∧
      loc_updated_at l = now env ∧
      ∃ ids, assigned_employees l = Some ids ∧
             ids ≡ₚ default [] (fd_assignedEmployees fd))
      (locations st').
Proof.
  intros Hff Hsel Hu Hex Hnd Hemp.
  pose proof (SupabaseFacts.save_selection_allowed (db w) (loc_id selected) _
                (updateData env selected fd) Hu Hnd Hemp Hex) as Hallowed.
  destruct (update_branch_succeeds env st selected fd w Hsel (Hff _) (Hff _))
    as (st' & w' & E & Hrows & Hpairs & _ & Hopen & _ & _ & Hcase).
  { intros _. split; [apply Hff | exact Hallowed]. }
  rewrite (Hff SelectLocations) in Hcase. destruct Hcase as (Hl & _ & _).
  exists st', w'. split; [exact E|]. split; [exact Hopen|]. rewrite Hl.
  assert (Hex' : location_exists (db w') (loc_id selected) = true).
  { rewrite <- Hex. unfold location_exists at 1. rewrite Hrows.
    apply SupabaseFacts.location_exists_update. }
  split.
  - apply SupabaseFacts.location_exists_spec in Hex' as (r & Hr & Hid).
    apply Exists_exists. exists (listed env (db w') r). split.
    + unfold listing. apply list_elem_of_fmap. exists r.
      split; [done | by apply elem_of_select_locations].
    + by destruct (listed_fields env (db w') r) as (-> & _).
  - apply Forall_forall. intros l Hin.
    apply list_elem_of_fmap in Hin as (r & -> & Hr).
    apply elem_of_select_locations in Hr.
    destruct (listed_fields env (db w') r)
      as (-> & -> & -> & -> & -> & -> & ->).
    intros Hid. rewrite Hrows in Hr.
    destruct (update_location_found _ _ _ _ Hr Hid) as (r0 & _ & ->).
    repeat (split; [done|]).
    destruct (listed_assigned_employees env (db w') (apply_update
                (updateData env selected fd) r0)) as (_ & _ & _ & _ & ->).
    rewrite (Hff _). eexists. split; [reflexivity|].
    cbn [row_id apply_update] in *. rewrite Hid.
    by rewrite (employees_assigned_to_replaced _ _ (assignment_pairs (db w))
                  (fd_assignedEmployees fd)).
Qed.

Lemma handleSubmitLocation_list_shows_saved_location_witness :
  fault_free Scenario.env0 ∧
  selectedLocation Scenario.page0 = Some (of_row Scenario.hq) ∧
  unique_pairs (db Scenario.w0) ∧
  location_exists (db Scenario.w0) "L1" = true ∧
  ∃ st' w',
    handleSubmitLocation Scenario.env0 Scenario.page0 Scenario.form0 Scenario.w0
      = (Returned st', w') ∧
    Exists (λ l, loc_id l = "L1") (locations st') ∧
    Forall (λ l, loc_id l = "L1" →
                 ∃ ids, assigned_employees l = Some ids ∧ ids ≡ₚ ["E1"])
      (locations st').
Proof.
  assert (Hff : fault_free Scenario.env0) by (intros r; reflexivity).
  assert (Hu : unique_pairs (db Scenario.w0)).
  { apply (bool_decide_unpack _). reflexivity. }
  assert (Hnd : NoDup (default [] (fd_assignedEmployees Scenario.form0))).
  { apply NoDup_singleton. }
  assert (Hemp : Forall (λ e, employee_exists (db Scenario.w0) e = true)
                   (default [] (fd_assignedEmployees Scenario.form0))).
  { by repeat constructor. }
  split; [exact Hff|]. split; [reflexivity|]. split; [exact Hu|].
  split; [reflexivity|].
  destruct (handleSubmitLocation_list_shows_saved_location Scenario.env0
              Scenario.page0 (of_row Scenario.hq) Scenario.form0 Scenario.w0
              Hff eq_refl Hu eq_refl Hnd Hemp)
    as (st' & w' & E & _ & Hex & Hall).
  exists st', w'. split; [exact E|]. split; [exact Hex|].
  eapply Forall_impl; [exact Hall|]. intros l H Hid.
  by destruct (H Hid) as (_ & _ & _ & _ & _ & _ & Hids).
Defined.

(** *** Creating a location *)








(** *** Deleting a location *)

(** X16.  The three outcomes of a delete.  When the user declines the
    confirmation nothing at all happens: no request, no message.  When the
    backend refuses the delete, the database and the page are as before and
    the error is shown.  When it accepts, the row and (by the cascade) its
    assignments are gone and the list is fetched again: no entry of the new
    list has the deleted id, while a failed refresh leaves the old list on
    the page.  In no case does the handler touch the selection of the page:
    a location deleted while selected stays selected. *)
Theorem handleDeleteLocation_outcomes (env : Env) (st : State)
    (locationId : string) (w : World) :
  match confirm env "Are you sure you want to delete this location?",
        backend_error env (DeleteLocation locationId) with
  | false, _ => handleDeleteLocation env st locationId w = (Returned st, w)
  | true, Some e =>
      ∃ w',
        handleDeleteLocation env st locationId w = (Returned st, w') ∧
        db w' = db w ∧
        toasts w' = toasts w ++ [delete_failed_toast] ∧
        requests w' = requests w ++ [DeleteLocation locationId]
  | true, None =>
      ∃ st' w',
        handleDeleteLocation env st locationId w = (Returned st', w') ∧
        db w' = delete_location locationId (db w) ∧
        selectedLocation st' = selectedLocation st ∧
        isDialogOpen st' = isDialogOpen st ∧
        match backend_error env SelectLocations with
        | None =>
            locations st' = listing env (db w') ∧
            Forall (λ l, loc_id l ≠ locationId) (locations st') ∧
            toasts w' = toasts w ++ [deleted_toast] ∧
            requests w'
              = requests w ++ DeleteLocation locationId :: fetchRequests (db w')
        | Some _ =>
            locations st' = locations st ∧
            toasts w' = toasts w ++ [deleted_toast; load_failed_toast] ∧
            requests w'
              = requests w ++ [DeleteLocation locationId; SelectLocations]
        end
  end.
Proof.
  destruct (confirm env _) eqn:Hc.
  2:{ unfold handleDeleteLocation. by rewrite Hc. }
  destruct (backend_error env (DeleteLocation locationId)) as [e|] eqn:He.
  - enough (H : returns (handleDeleteLocation env st locationId) w
                  (λ st' w', st' = st ∧ db w' = db w ∧
                     toasts w' = toasts w ++ [delete_failed_toast] ∧
                     requests w' = requests w ++ [DeleteLocation locationId])).
    { destruct H as (st' & w' & E & -> & H). by exists w'. }
    unfold handleDeleteLocation. rewrite Hc. cbn [negb].
    apply returns_try_catch_handler.
    apply throws_bind_r, (returns_query_failed _ _ _ _ e); [exact He|].
    apply throws_bind_l, (throws_throw_if_error _ e); [done|].
    apply returns_bind, returns_modify, returns_bind, returns_modify, returns_ret.
    done.
  - apply returns_eq. unfold handleDeleteLocation. rewrite Hc. cbn [negb].
    apply returns_try_catch.
    apply returns_bind, returns_query; [exact He|].
    apply returns_bind, returns_throw_if_ok; [done|].
    apply returns_bind, returns_modify, returns_fetchLocations_any.
    intros st' w' Hd Hs Hopen Hselected Hload Hcase.
    cbn [db toasts requests set_db add_toast add_console add_request fst snd]
      in Hd, Hcase.
    rewrite Hd. split; [done|]. split; [done|]. split; [done|].
    destruct (backend_error env SelectLocations);
      destruct Hcase as (Hl & Ht & Hr).
    + split; [done|]. split; [by rewrite Ht, <- app_assoc|].
      by rewrite Hr, <- app_assoc.
    + split; [done|]. split.
      { rewrite Hl. apply listing_without, SupabaseFacts.delete_location_gone. }
      split; [done|]. by rewrite Hr, <- app_assoc.
Qed.

End PageFacts.

(** ** The employee-side assignment dialog: outcomes of a save, reloading *)

Module AssignmentFacts.
Import Supabase Client ClientFacts EffectFacts EmployeeLocationAssignmentDialog.
Import EmployeeLocationAssignmentDialogFacts.

Lemma callbacks_when (a b c : bool) (x y z : string) (w : World) :
  callbacks (if c then add_callback z
                         (if b then add_callback y
                                      (if a then add_callback x w else w)
                          else if a then add_callback x w else w)
             else if b then add_callback y (if a then add_callback x w else w)
                  else if a then add_callback x w else w)
  = callbacks w ++ (if a then [x] else []) ++ (if b then [y] else [])
    ++ (if c then [z] else []).
Proof.
  destruct a, b, c; cbn [callbacks add_callback];
    by rewrite <- ?app_assoc, ?app_nil_r.
Qed.

Lemma other_fields_when {X} (f : World → X) (a b c : bool) (x y z : string)
    (w : World) :
  (∀ s w0, f (add_callback s w0) = f w0) →
  f (if c then add_callback z
                 (if b then add_callback y (if a then add_callback x w else w)
                  else if a then add_callback x w else w)
     else if b then add_callback y (if a then add_callback x w else w)
          else if a then add_callback x w else w)
  = f w.
Proof. intros H. destruct a, b, c; by rewrite ?H. Qed.

(** A save that the backend accepts. *)
Lemma handleSave_accepted (env : Env) (p : Props) (st : State) (id : string)
    (w : World) :
  empId p = Some id → id ≠ "" →
  saveAccepted env id (selectedLocations st) (db w) = true →
  returns (handleSave env p st) w (λ st' w',
    st' = setIsLoading false st ∧
    assignment_pairs (db w')
    = List.filter (λ q, negb (String.eqb q.1 id)) (assignment_pairs (db w))
      ++ assignments_of id (selectedLocations st) ∧
    toasts w' = toasts w ++ [saved_toast] ∧
    callbacks w' = callbacks w ++ callbacksOnSuccess p ∧
    requests w' = requests w ++ saveRequests id (selectedLocations st)).
Proof.
  intros Hid Hne Hacc. unfold saveAccepted in Hacc.
  destruct (backend_error env (DeleteAssignmentsOfEmployee id)) eqn:HD; [done|].
  unfold handleSave. rewrite Hid.
  apply JsFacts.truthy_true in Hne. rewrite Hne.
  apply returns_bind, returns_try_catch.
  apply returns_bind, returns_query; [exact HD|].
  apply returns_bind, returns_throw_if_ok; [done|].
  cbn [fst snd db set_db add_request].
  destruct (selectedLocations st) as [|l sel] eqn:Hsel.
  - apply returns_bind, returns_ret.
    apply returns_bind, returns_modify.
    apply returns_bind, returns_when, returns_bind, returns_when, returns_when.
    apply returns_ret. split; [done|].
    rewrite callbacks_when.
    rewrite !(other_fields_when db), !(other_fields_when toasts),
      !(other_fields_when requests) by done.
    cbn [db toasts requests callbacks add_toast set_db add_request].
    by rewrite SupabaseFacts.pairs_delete_of_employee, app_nil_r.
  - destruct (backend_error env (InsertAssignments (assignments_of id (l :: sel))))
      eqn:HI; [done|].
    destruct (SupabaseFacts.insert_assignments_allowed env _ _ Hacc)
      as (d3 & E3 & Hp3 & _ & _).
    apply returns_bind, returns_bind, returns_query; [exact HI|].
    cbn [fst snd db set_db add_request]. rewrite E3. cbn [fst snd].
    apply returns_throw_if_ok; [done|].
    apply returns_bind, returns_modify.
    apply returns_bind, returns_when, returns_bind, returns_when, returns_when.
    apply returns_ret. split; [done|].
    rewrite callbacks_when.
    rewrite !(other_fields_when db), !(other_fields_when toasts),
      !(other_fields_when requests) by done.
    cbn [db toasts requests callbacks add_toast set_db add_request].
    split; [by rewrite Hp3, SupabaseFacts.pairs_delete_of_employee|].
    split; [done|]. split; [done|].
    unfold saveRequests. by rewrite <- app_assoc.
Qed.

(** A save that the backend refuses, at the delete or at the insert. *)
Lemma handleSave_refused (env : Env) (p : Props) (st : State) (id : string)
    (w : World) :
  empId p = Some id → id ≠ "" →
  saveAccepted env id (selectedLocations st) (db w) = false →
  returns (handleSave env p st) w (λ st' w',
    st' = setIsLoading false st ∧
    toasts w' = toasts w ++ [save_failed_toast] ∧
    callbacks w' = callbacks w ∧
    match backend_error env (DeleteAssignmentsOfEmployee id) with
    | Some _ =>
        db w' = db w ∧ requests w' = requests w ++ [DeleteAssignmentsOfEmployee id]
    | None =>
        db w' = delete_assignments_of_employee id (db w) ∧
        requests w' = requests w ++ saveRequests id (selectedLocations st)
    end).
Proof.
  intros Hid Hne Hacc. unfold saveAccepted in Hacc.
  unfold handleSave. rewrite Hid.
  apply JsFacts.truthy_true in Hne. rewrite Hne.
  apply returns_bind, returns_try_catch_handler.
  destruct (backend_error env (DeleteAssignmentsOfEmployee id)) as [e|] eqn:HD.
  - apply throws_bind_r, (returns_query_failed _ _ _ _ e); [exact HD|].
    apply throws_bind_l, (throws_throw_if_error _ e); [done|].
    apply returns_bind, returns_modify, returns_modify, returns_ret. done.
  - apply throws_bind_r, returns_query; [exact HD|].
    apply throws_bind_r, returns_throw_if_ok; [done|].
    cbn [fst snd db set_db add_request].
    destruct (selectedLocations st) as [|l sel] eqn:Hsel; [done|].
    destruct (backend_error env (InsertAssignments (assignments_of id (l :: sel))))
      as [e|] eqn:HI.
    + apply throws_bind_l, throws_bind_r, (returns_query_failed _ _ _ _ e);
        [exact HI|].
      apply (throws_throw_if_error _ e); [done|].
      apply returns_bind, returns_modify, returns_modify, returns_ret.
      cbn [db toasts requests callbacks add_toast add_console set_db add_request].
      split; [done|]. split; [done|]. split; [done|]. split; [done|].
      unfold saveRequests. by rewrite <- app_assoc.
    + apply throws_bind_l, throws_bind_r, returns_query; [exact HI|].
      cbn [fst snd db set_db add_request].
      destruct (SupabaseFacts.insert_assignments_rejected env _ _ Hacc) as (e & E).
      rewrite E. cbn [fst snd].
      apply (throws_throw_if_error _ e); [done|].
      apply returns_bind, returns_modify, returns_modify, returns_ret.
      cbn [db toasts requests callbacks add_toast add_console set_db add_request].
      split; [done|]. split; [done|]. split; [done|]. split; [done|].
      unfold saveRequests. by rewrite <- app_assoc.
Qed.

Lemma handleSave_without_id (env : Env) (p : Props) (st : State) (w : World) :
  match empId p with Some id => Js.truthy id = false | None => True end →
  handleSave env p st w
  = (Returned (setIsLoading false st), add_toast missing_id_toast w).
Proof.
  intros H. unfold handleSave.
  destruct (empId p) as [id|]; [rewrite H|]; done.
Qed.

(** X17.  The outcomes of a save in the assignment dialog.  It always
    returns, with the loading flag cleared.  Without an employee id it only
    shows "Employee ID is missing": nothing is sent.  Otherwise, when the
    backend accepts the delete and the insert, the rows of the employee are
    the selection, the success message is shown and the callbacks the
    parent passed are called, in the order onSuccess, onOpenChange(false),
    onClose.  When the backend refuses one of the two, the failure message
    is shown and no callback is called, so the dialog stays open; a refused
    delete leaves the database as it was, a refused insert leaves the
    employee without any assignment. *)
Theorem handleSave_outcomes (env : Env) (p : Props) (st : State) (w : World) :
  ∃ w',
    handleSave env p st w = (Returned (setIsLoading false st), w') ∧
    match empId p with
    | Some id =>
        if Js.truthy id then
          if saveAccepted env id (selectedLocations st) (db w) then
            assignment_pairs (db w')
            = List.filter (λ q, negb (String.eqb q.1 id)) (assignment_pairs (db w))
              ++ assignments_of id (selectedLocations st) ∧
            toasts w' = toasts w ++ [saved_toast] ∧
            callbacks w' = callbacks w ++ callbacksOnSuccess p ∧
            requests w' = requests w ++ saveRequests id (selectedLocations st)
          else
            toasts w' = toasts w ++ [save_failed_toast] ∧
            callbacks w' = callbacks w ∧
            match backend_error env (DeleteAssignmentsOfEmployee id) with
            | Some _ => db w' = db w
            | None =>
                select_assignments_of_employee id (db w') = [] ∧
                assignment_pairs (db w')
                = List.filter (λ q, negb (String.eqb q.1 id))
                    (assignment_pairs (db w))
            end
        else w' = add_toast missing_id_toast w
    | None => w' = add_toast missing_id_toast w
    end.
Proof.
  destruct (empId p) as [id|] eqn:Hid.
  2:{ eexists. split; [apply handleSave_without_id; by rewrite Hid | done]. }
  destruct (Js.truthy id) eqn:Ht.
  2:{ eexists. split; [apply handleSave_without_id; by rewrite Hid | done]. }
  apply JsFacts.truthy_true in Ht.
  destruct (saveAccepted env id (selectedLocations st) (db w)) eqn:Hacc.
  - destruct (handleSave_accepted env p st id w Hid Ht Hacc)
      as (st' & w' & E & -> & H).
    by exists w'.
  - destruct (handleSave_refused env p st id w Hid Ht Hacc)
      as (st' & w' & E & -> & Htoast & Hcb & H).
    exists w'. split; [exact E|]. split; [exact Htoast|]. split; [exact Hcb|].
    destruct (backend_error env (DeleteAssignmentsOfEmployee id));
      destruct H as [Hd _]; [done|]. rewrite Hd. split.
    + unfold select_assignments_of_employee, delete_assignments_of_employee.
      cbn [employee_location_assignments set_assignments].
      rewrite (SupabaseFacts.list_filter_nil_bool _ (List.filter _ _)); [done|].
      intros a Ha. apply SupabaseFacts.elem_of_filter_bool in Ha as [_ Ha].
      by apply negb_true_iff in Ha.
    + apply SupabaseFacts.pairs_delete_of_employee.
Qed.

(** *** Reading back what was saved *)

Lemma select_assignments_of_employee_pairs (id : string) (d : Db) :
  select_assignments_of_employee id d
  = map snd (List.filter (λ q, String.eqb q.1 id) (assignment_pairs d)).
Proof.
  unfold select_assignments_of_employee, assignment_pairs.
  rewrite <- (SupabaseFacts.map_filter_comm pair_of (λ q, String.eqb q.1 id)).
  by rewrite map_map.
Qed.

Lemma select_assignments_of_employee_replaced (id : string) (d : Db)
    (pairs : list (string * string)) (sel : list string) :
  assignment_pairs d
  = List.filter (λ q, negb (String.eqb q.1 id)) pairs ++ assignments_of id sel →
  select_assignments_of_employee id d = sel.
Proof.
  intros H. rewrite select_assignments_of_employee_pairs, H, List.filter_app.
  rewrite (SupabaseFacts.list_filter_nil_bool _ (List.filter _ pairs)).
  - simpl. rewrite rows_of_employee. unfold assignments_of.
    rewrite map_map. simpl. apply map_id.
  - intros q Hq. apply SupabaseFacts.elem_of_filter_bool in Hq as [_ Hq].
    by apply negb_true_iff in Hq.
Qed.

Lemma fetchAssignedLocations_run (env : Env) (p : Props) (st : State)
    (id : string) (w : World) :
  empId p = Some id → id ≠ "" →
  ∃ w',
    fetchAssignedLocations env p st w
    = (Returned
         match backend_error env (SelectAssignmentsOfEmployee id) with
         | Some _ => st
         | None =>
             setSelectedLocations (select_assignments_of_employee id (db w)) st
         end, w') ∧
    db w' = db w ∧
    requests w' = requests w ++ [SelectAssignmentsOfEmployee id] ∧
    toasts w'
    = toasts w
      ++ match backend_error env (SelectAssignmentsOfEmployee id) with
         | Some _ => [load_failed_toast]
         | None => []
         end.
Proof.
  intros Hid Hne. unfold fetchAssignedLocations. rewrite Hid.
  apply JsFacts.truthy_true in Hne. rewrite Hne.
  unfold try_catch. rewrite run_bind.
  unfold from_assignments_select_eq_employee, query.
  destruct (backend_error env (SelectAssignmentsOfEmployee id)) as [e|].
  - eexists. split; [reflexivity|]. done.
  - eexists. split; [reflexivity|]. cbn. by rewrite app_nil_r.
Qed.

(** X18.  What the dialog saves is what it loads when it is opened again.
    After a save that the backend accepts, the effect that fetches the
    assigned locations of the same employee puts exactly the locations of
    the saved selection, each once, into the dialog, whatever was selected
    there (the query fixes no order). *)
Theorem saved_locations_are_loaded_again (env env' : Env) (p : Props)
    (st st0 : State) (id : string) (w : World) :
  empId p = Some id → id ≠ "" →
  saveAccepted env id (selectedLocations st) (db w) = true →
  backend_error env' (SelectAssignmentsOfEmployee id) = None →
  ∃ w1 st2 w2,
    handleSave env p st w = (Returned (setIsLoading false st), w1) ∧
    fetchAssignedLocations env' p st0 w1 = (Returned st2, w2) ∧
    selectedLocations st2 ≡ₚ selectedLocations st ∧
    db w2 = db w1.
Proof.
  intros Hid Hne Hacc Hread.
  destruct (handleSave_accepted env p st id w Hid Hne Hacc)
    as (st' & w1 & E1 & -> & Hpairs & _).
  destruct (fetchAssignedLocations_run env' p st0 id w1 Hid Hne)
    as (w2 & E2 & Hd & _).
  rewrite Hread in E2.
  eexists w1, _, w2. split; [exact E1|]. split; [exact E2|]. split; [|exact Hd].
  cbn [selectedLocations setSelectedLocations].
  by rewrite (select_assignments_of_employee_replaced _ _
                (assignment_pairs (db w)) (selectedLocations st)).
Qed.

Lemma saved_locations_are_loaded_again_witness :
  empId Scenario.citraProps = Some "E3" ∧
  saveAccepted Scenario.env0 "E3" (selectedLocations Scenario.citraDialog)
    (db Scenario.w0) = true ∧
  ∃ w1 st2 w2,
    handleSave Scenario.env0 Scenario.citraProps Scenario.citraDialog Scenario.w0
    = (Returned (setIsLoading false Scenario.citraDialog), w1) ∧
    fetchAssignedLocations Scenario.env0 Scenario.citraProps Scenario.citraDialog0
      w1 = (Returned st2, w2) ∧
    selectedLocations st2 ≡ₚ ["L1"].
Proof.
  split; [reflexivity|]. split; [reflexivity|].
  assert (Hne : "E3" ≠ "") by discriminate.
  destruct (saved_locations_are_loaded_again Scenario.env0 Scenario.env0
              Scenario.citraProps Scenario.citraDialog Scenario.citraDialog0
              "E3" Scenario.w0 eq_refl Hne eq_refl eq_refl)
    as (w1 & st2 & w2 & E1 & E2 & Hsel & _).
  exists w1, st2, w2. split; [exact E1|]. split; [exact E2 | exact Hsel].
Defined.

Lemma employees_assigned_to_elem (d : Db) (l x : string) :
  x ∈ LocationsPage.employees_assigned_to d l ↔ (x, l) ∈ assignment_pairs d.
Proof.
  unfold LocationsPage.employees_assigned_to, assignment_pairs.
  rewrite !list_elem_of_fmap. split.
  - intros (a & -> & Ha). apply SupabaseFacts.elem_of_filter_bool in Ha as [Ha E].
    apply String.eqb_eq in E as <-. by exists a.
  - intros (a & [= -> ->] & Ha). exists a. split; [done|].
    apply SupabaseFacts.elem_of_filter_bool. split; [done | apply String.eqb_refl].
Qed.

(** X19.  A save on the employee side is what the location side sees.
    After a save that the backend accepts, the employee is among the
    employees assigned to a location exactly when the location is in the
    selection, and for every other employee the assignments to every
    location are as before. *)
Theorem handleSave_seen_from_locations (env : Env) (p : Props) (st : State)
    (id : string) (w : World) :
  empId p = Some id → id ≠ "" →
  saveAccepted env id (selectedLocations st) (db w) = true →
  ∃ w',
    handleSave env p st w = (Returned (setIsLoading false st), w') ∧
    ∀ l x,
      x ∈ LocationsPage.employees_assigned_to (db w') l ↔
      (x = id ∧ l ∈ selectedLocations st) ∨
      (x ≠ id ∧ x ∈ LocationsPage.employees_assigned_to (db w) l).
Proof.
  intros Hid Hne Hacc.
  destruct (handleSave_accepted env p st id w Hid Hne Hacc)
    as (st' & w' & E & -> & Hpairs & _).
  exists w'. split; [exact E|]. intros l x.
  rewrite !employees_assigned_to_elem, Hpairs, elem_of_app.
  rewrite SupabaseFacts.elem_of_filter_bool, negb_true_iff, String.eqb_neq.
  unfold assignments_of. rewrite list_elem_of_fmap. cbn [fst]. split.
  - intros [[? ?] | (l' & [= -> ->] & ?)]; [by right | by left].
  - intros [[-> ?] | [? ?]]; [right; by exists l | by left].
Qed.

Lemma handleSave_seen_from_locations_witness :
  empId Scenario.citraProps = Some "E3" ∧
  saveAccepted Scenario.env0 "E3" (selectedLocations Scenario.citraDialog)
    (db Scenario.w0) = true ∧
  ∃ w',
    handleSave Scenario.env0 Scenario.citraProps Scenario.citraDialog Scenario.w0
    = (Returned (setIsLoading false Scenario.citraDialog), w') ∧
    "E3" ∈ LocationsPage.employees_assigned_to (db w') "L1" ∧
    "E3" ∉ LocationsPage.employees_assigned_to (db w') "L2".
Proof.
  split; [reflexivity|]. split; [reflexivity|].
  assert (Hne : "E3" ≠ "") by discriminate.
  destruct (handleSave_seen_from_locations Scenario.env0 Scenario.citraProps
              Scenario.citraDialog "E3" Scenario.w0 eq_refl Hne eq_refl)
    as (w' & E & H).
  exists w'. split; [exact E|]. split.
  - apply H. left. split; [done | apply list_elem_of_here].
  - intros Hin. apply H in Hin as [[_ Hl] | [Hx _]]; [|done].
    apply list_elem_of_singleton in Hl. discriminate Hl.
Defined.

(** X20.  A failed load followed by a save removes the assignments.  When
    the assigned locations of the employee cannot be read, the dialog shows
    "Failed to load assigned locations" and keeps the selection it had, the
    empty one of a dialog just opened.  Saving then, on a backend that
    accepts the delete, leaves the employee without any assignment and
    reports success. *)
Theorem failed_load_then_save_removes_assignments (env env' : Env) (p : Props)
    (st : State) (id : string) (w : World) (e : Error) :
  empId p = Some id → id ≠ "" →
  selectedLocations st = [] →
  backend_error env (SelectAssignmentsOfEmployee id) = Some e →
  backend_error env' (DeleteAssignmentsOfEmployee id) = None →
  ∃ w1 w2,
    fetchAssignedLocations env p st w = (Returned st, w1) ∧
    db w1 = db w ∧
    toasts w1 = toasts w ++ [load_failed_toast] ∧
    handleSave env' p st w1 = (Returned (setIsLoading false st), w2) ∧
    select_assignments_of_employee id (db w2) = [] ∧
    toasts w2 = toasts w1 ++ [saved_toast].
Proof.
  intros Hid Hne Hsel Hread Hdel.
  destruct (fetchAssignedLocations_run env p st id w Hid Hne)
    as (w1 & E1 & Hd1 & _ & Ht1).
  rewrite Hread in E1, Ht1.
  assert (Hacc : saveAccepted env' id (selectedLocations st) (db w1) = true).
  { unfold saveAccepted. by rewrite Hdel, Hsel. }
  destruct (handleSave_accepted env' p st id w1 Hid Hne Hacc)
    as (st' & w2 & E2 & -> & Hpairs & Ht2 & _).
  exists w1, w2. split; [exact E1|]. split; [exact Hd1|]. split; [exact Ht1|].
  split; [exact E2|]. split; [|exact Ht2].
  apply (select_assignments_of_employee_replaced _ _ (assignment_pairs (db w1))).
  by rewrite Hpairs, Hsel.
Qed.

Lemma failed_load_then_save_removes_assignments_witness :
  empId Scenario.citraProps = Some "E3" ∧
  selectedLocations Scenario.citraDialog0 = [] ∧
  backend_error Scenario.envCitraFetchFails (SelectAssignmentsOfEmployee "E3")
    = Some {| message := "timeout" |} ∧
  select_assignments_of_employee "E3" (db Scenario.w0) = ["L2"] ∧
  ∃ w1 w2,
    fetchAssignedLocations Scenario.envCitraFetchFails Scenario.citraProps
      Scenario.citraDialog0 Scenario.w0 = (Returned Scenario.citraDialog0, w1) ∧
    handleSave Scenario.env0 Scenario.citraProps Scenario.citraDialog0 w1
    = (Returned (setIsLoading false Scenario.citraDialog0), w2) ∧
    select_assignments_of_employee "E3" (db w2) = [] ∧
    toasts w2 = [load_failed_toast; saved_toast].
Proof.
  split; [reflexivity|]. split; [reflexivity|]. split; [reflexivity|].
  split; [reflexivity|].
  assert (Hne : "E3" ≠ "") by discriminate.
  destruct (failed_load_then_save_removes_assignments Scenario.envCitraFetchFails
              Scenario.env0 Scenario.citraProps Scenario.citraDialog0 "E3"
              Scenario.w0 {| message := "timeout" |} eq_refl Hne eq_refl eq_refl
              eq_refl)
    as (w1 & w2 & E1 & _ & Ht1 & E2 & Hnone & Ht2).
  exists w1, w2. split; [exact E1|]. split; [exact E2|]. split; [exact Hnone|].
  rewrite Ht2, Ht1. reflexivity.
Defined.

End AssignmentFacts.

(** ** The location dialog: loading the selection, and submitting it *)

Module DialogFacts.
Import Supabase Client ClientFacts EffectFacts LocationsPage LocationsPageFacts.
Import GeofenceLocationDialog GeofenceLocationDialogFacts PageFacts.

Lemma fetched_employee_ids (id : string) (d : Db) :
  map j_employee_id (select_assignments_of_location id d)
  = employees_assigned_to d id.
Proof.
  unfold select_assignments_of_location, employees_assigned_to.
  by rewrite map_map.
Qed.

(** The effect that loads the selection of an opened edit dialog. *)
Lemma loadSelection_run (env : Env) (selected : GeofenceLocation)
    (selectedEmployees : list string) (w : World) :
  loc_id selected ≠ "" →
  ∃ w',
    loadSelection env true (Some selected) selectedEmployees w
    = (Returned
         match backend_error env (SelectAssignmentsOfLocation (loc_id selected)) with
         | Some _ => []
         | None => employees_assigned_to (db w) (loc_id selected)
         end, w') ∧
    db w' = db w ∧ toasts w' = toasts w ∧
    requests w' = requests w ++ [SelectAssignmentsOfLocation (loc_id selected)].
Proof.
  intros Hne. unfold loadSelection, fetchAssignedEmployees.
  apply JsFacts.truthy_true in Hne. rewrite Hne.
  unfold try_catch. rewrite run_bind.
  unfold from_assignments_select_eq_location, query.
  destruct (backend_error env (SelectAssignmentsOfLocation (loc_id selected)))
    as [e|].
  - eexists. split; [reflexivity|]. done.
  - rewrite <- fetched_employee_ids. eexists. split; [reflexivity|]. done.
Qed.

(** X21.  What the location dialog saves is what it loads when the
    location is edited again.  After a save of an existing location on a
    backend that reports no error of its own (the employees of the selection
    exist, none is selected twice), the effect of the opened dialog fetches
    exactly the employees of the saved selection, each once, and puts them
    into the selector and the form (the query fixes no order). *)
Theorem saved_employees_are_loaded_again (env env' : Env) (st : State)
    (selected : GeofenceLocation) (fd : FormData)
    (selectedEmployees : list string) (w : World) :
  fault_free env →
  selectedLocation st = Some selected →
  loc_id selected ≠ "" →
  unique_pairs (db w) →
  location_exists (db w) (loc_id selected) = true →
  NoDup (default [] (fd_assignedEmployees fd)) →
  Forall (λ e, employee_exists (db w) e = true)
    (default [] (fd_assignedEmployees fd)) →
  backend_error env' (SelectAssignmentsOfLocation (loc_id selected)) = None →
  ∃ st' w1 ids w2,
    handleSubmitLocation env st fd w = (Returned st', w1) ∧
    loadSelection env' true (Some selected) selectedEmployees w1
    = (Returned ids, w2) ∧
    ids ≡ₚ default [] (fd_assignedEmployees fd) ∧
    db w2 = db w1.
Proof.
  intros Hff Hsel Hne Hu Hex Hnd Hemp Hread.
  pose proof (SupabaseFacts.save_selection_allowed (db w) (loc_id selected) _
                (updateData env selected fd) Hu Hnd Hemp Hex) as Hallowed.
  destruct (update_branch_succeeds env st selected fd w Hsel (Hff _) (Hff _))
    as (st' & w1 & E1 & _ & Hpairs & _).
  { intros _. split; [apply Hff | exact Hallowed]. }
  destruct (loadSelection_run env' selected selectedEmployees w1 Hne)
    as (w2 & E2 & Hd & _).
  rewrite Hread in E2.
  rewrite (employees_assigned_to_replaced _ _ _ _ Hpairs) in E2.
  by eexists st', w1, _, w2.
Qed.

Lemma saved_employees_are_loaded_again_witness :
  fault_free Scenario.env0 ∧
  selectedLocation Scenario.page0 = Some (of_row Scenario.hq) ∧
  unique_pairs (db Scenario.w0) ∧
  location_exists (db Scenario.w0) "L1" = true ∧
  ∃ st' w1 ids w2,
    handleSubmitLocation Scenario.env0 Scenario.page0 Scenario.form0 Scenario.w0
    = (Returned st', w1) ∧
    loadSelection Scenario.env0 true (Some (of_row Scenario.hq)) [] w1
    = (Returned ids, w2) ∧
    ids ≡ₚ ["E1"].
Proof.
  assert (Hff : fault_free Scenario.env0) by (intros r; reflexivity).
  assert (Hu : unique_pairs (db Scenario.w0)).
  { apply (bool_decide_unpack _). reflexivity. }
  assert (Hnd : NoDup (default [] (fd_assignedEmployees Scenario.form0))).
  { apply NoDup_singleton. }
  assert (Hemp : Forall (λ e, employee_exists (db Scenario.w0) e = true)
                   (default [] (fd_assignedEmployees Scenario.form0))).
  { by repeat constructor. }
  assert (Hne : loc_id (of_row Scenario.hq) ≠ "") by discriminate.
  split; [exact Hff|]. split; [reflexivity|]. split; [exact Hu|].
  split; [reflexivity|].
  destruct (saved_employees_are_loaded_again Scenario.env0 Scenario.env0
              Scenario.page0 (of_row Scenario.hq) Scenario.form0 [] Scenario.w0
              Hff eq_refl Hne Hu eq_refl Hnd Hemp eq_refl)
    as (st' & w1 & ids & w2 & E1 & E2 & Hp & _).
  by exists st', w1, ids, w2.
Defined.

Section Schema.
Variable Number : string → Js.JsNumber.

Lemma formSchema_assignedEmployees (input : FormInput) (data : FormValues) :
  formSchema Number input = inl data →
  assignedEmployees data = in_assignedEmployees input.
Proof.
  unfold formSchema. intros H. repeat case_match; try done.
  by injection H as <-.
Qed.

(** X22.  A failed load followed by a submission removes the assignments,
    and nobody is told.  When the assignments of the location cannot be
    read, the opened edit dialog starts from the empty selection and shows
    no message (the failure goes to the console only).  Submitting valid
    values without touching the selector then, on a backend that reports no
    error of its own, leaves the location without any assigned employee; the
    page reports "Location updated successfully". *)
Theorem failed_load_then_submit_removes_assignments (env env' : Env)
    (st : State) (selected : GeofenceLocation) (selectedEmployees : list string)
    (input : FormInput) (w : World) (e : Error) :
  selectedLocation st = Some selected →
  loc_id selected ≠ "" →
  backend_error env (SelectAssignmentsOfLocation (loc_id selected)) = Some e →
  fault_free env' →
  acceptable Number input →
  ∃ w1 st' w2,
    loadSelection env true (Some selected) selectedEmployees w = (Returned [], w1) ∧
    db w1 = db w ∧ toasts w1 = toasts w ∧
    submit Number env' st (setAssignedEmployees input []) w1
    = (Returned (st', []), w2) ∧
    employees_assigned_to (db w2) (loc_id selected) = [] ∧
    toasts w2 = toasts w ++ [updated_toast].
Proof.
  intros Hsel Hne Hread Hff Hok.
  destruct (loadSelection_run env selected selectedEmployees w Hne)
    as (w1 & E1 & Hd1 & Ht1 & _).
  rewrite Hread in E1.
  assert (Hok' : acceptable Number (setAssignedEmployees input [])) by exact Hok.
  apply formSchema_accepts in Hok' as [data Hdata].
  pose proof (formSchema_assignedEmployees _ _ Hdata) as Hsel0.
  cbn [in_assignedEmployees setAssignedEmployees] in Hsel0.
  set (fd := handleSubmit (Some selected) data).
  assert (Hfd : fd_assignedEmployees fd = Some []).
  { subst fd. unfold handleSubmit. cbn [fd_assignedEmployees]. by rewrite Hsel0. }
  destruct (update_branch_succeeds env' st selected fd w1 Hsel (Hff _) (Hff _))
    as (st' & w2 & E2 & _ & Hpairs & _ & _ & _ & _ & Hcase).
  { rewrite Hfd. intros H. discriminate H. }
  rewrite (Hff SelectLocations) in Hcase. destruct Hcase as (_ & Ht2 & _).
  exists w1, st', w2. split; [exact E1|]. split; [exact Hd1|].
  split; [exact Ht1|]. split.
  - unfold submit. rewrite Hdata, run_bind, Hsel. fold fd. by rewrite E2.
  - split; [|by rewrite Ht2, Ht1].
    rewrite (employees_assigned_to_replaced _ _ _ _ Hpairs). by rewrite Hfd.
Qed.

End Schema.

Lemma failed_load_then_submit_removes_assignments_witness :
  selectedLocation Scenario.page0 = Some (of_row Scenario.hq) ∧
  backend_error Scenario.envHqFetchFails (SelectAssignmentsOfLocation "L1")
    = Some {| message := "timeout" |} ∧
  acceptable decimalValue Scenario.hqInput ∧
  employees_assigned_to (db Scenario.w0) "L1" = ["E1"; "E2"] ∧
  ∃ w1 st' w2,
    loadSelection Scenario.envHqFetchFails true (Some (of_row Scenario.hq))
      ["E1"; "E2"] Scenario.w0 = (Returned [], w1) ∧
    submit decimalValue Scenario.env0 Scenario.page0
      (setAssignedEmployees Scenario.hqInput []) w1 = (Returned (st', []), w2) ∧
    employees_assigned_to (db w2) "L1" = [] ∧
    toasts w2 = [updated_toast].
Proof.
  assert (Hff : fault_free Scenario.env0) by (intros r; reflexivity).
  assert (Hok : acceptable decimalValue Scenario.hqInput).
  { apply formSchema_accepts. eexists. reflexivity. }
  assert (Hne : loc_id (of_row Scenario.hq) ≠ "") by discriminate.
  split; [reflexivity|]. split; [reflexivity|]. split; [exact Hok|].
  split; [reflexivity|].
  destruct (failed_load_then_submit_removes_assignments decimalValue
              Scenario.envHqFetchFails Scenario.env0 Scenario.page0
              (of_row Scenario.hq) ["E1"; "E2"] Scenario.hqInput Scenario.w0
              {| message := "timeout" |} eq_refl Hne eq_refl Hff Hok)
    as (w1 & st' & w2 & E1 & _ & _ & E2 & Hnone & Ht).
  by exists w1, st', w2.
Defined.

End DialogFacts.

(** ** Registration: documents, the profile, the form *)

Module RegistrationFacts.
Import Supabase Client ClientFacts EffectFacts SupabaseClient SupabaseClientFacts.

(** *** The path of an uploaded document *)

Lemma last_cons_cons {A} (x y : A) (l : list A) : last (x :: y :: l) = last (y :: l).
Proof. reflexivity. Qed.

Lemma includes_dot_cons (c : ascii) (s : string) :
  Ascii.eqb c "." = false →
  Js.includes (String c s) "." = Js.includes s ".".
Proof.
  intros Hc. cbn [Js.includes Js.startsWith].
  by rewrite Ascii.eqb_sym, Hc.
Qed.

(** The pieces of a name between its dots: a name without a dot is its own
    only piece, otherwise the last piece is what follows the last dot. *)
Lemma split_last_piece (s : string) :
  match Js.split "." s with
  | [] => False
  | [a] => s = a ∧ Js.includes a "." = false
  | l =>
      ∃ stem ext,
        last l = Some ext ∧ s = stem +:+ "." +:+ ext ∧
        Js.includes ext "." = false
  end.
Proof.
  induction s as [|c s IH]; [done|]. cbn [Js.split].
  destruct (Ascii.eqb c ".") eqn:Hc.
  - apply Ascii.eqb_eq in Hc as ->.
    destruct (Js.split "." s) as [|a [|b l]]; [done| |].
    + destruct IH as [-> Hno]. by exists "", a.
    + destruct IH as (stem & ext & Hlast & -> & Hno).
      exists (String "." stem), ext. by rewrite last_cons_cons.
  - destruct (Js.split "." s) as [|a [|b l]]; [done| |].
    + destruct IH as [-> Hno]. split; [done|]. by rewrite includes_dot_cons.
    + destruct IH as (stem & ext & Hlast & -> & Hno).
      exists (String c stem), ext. by rewrite last_cons_cons in *.
Qed.

(** X23.  The extension that goes into the path of a document is the text
    after the last dot of the file name, and contains no dot; a name
    without a dot is taken whole as its extension. *)
Theorem fileExt_is_text_after_last_dot (file : File) :
  Js.includes (fileExt file) "." = false ∧
  (if Js.includes (file_name file) "."
   then ∃ stem, file_name file = stem +:+ "." +:+ fileExt file
   else fileExt file = file_name file).
Proof.
  unfold fileExt, Js.pop.
  pose proof (split_last_piece (file_name file)) as H.
  destruct (Js.split "." (file_name file)) as [|a [|b l]]; [done| |].
  - destruct H as [<- Hno]. cbn [last default]. by rewrite Hno.
  - destruct H as (stem & ext & -> & Hname & Hno). cbn [default].
    split; [exact Hno|].
    assert (Hdot : Js.includes (file_name file) "." = true).
    { apply JsFacts.includes_spec. exists stem, ext. by rewrite Hname. }
    rewrite Hdot. by exists stem.
Qed.

(** *** Uploading twice *)

Lemma string_app_inv_head (p a b : string) : p +:+ a = p +:+ b → a = b.
Proof.
  induction p as [|c p IH]; [done|].
  rewrite !JsFacts.app_cons. intros [= H]. by apply IH.
Qed.

Lemma filePath_ext (f1 f2 : File) (userId fileType : string) :
  filePath f1 userId fileType = filePath f2 userId fileType ↔
  fileExt f1 = fileExt f2.
Proof.
  unfold filePath. split; [|by intros ->].
  intros H. by do 5 apply string_app_inv_head in H.
Qed.

Lemma uploadFile_run (env : Env) (file : File) (userId fileType : string)
    (w : World) :
  ∃ w',
    uploadFile env file userId fileType w
    = (Returned
         match backend_error env
                 (StorageUpload (filePath file userId fileType) file) with
         | Some _ => None
         | None => Some (getPublicUrl env (filePath file userId fileType))
         end, w') ∧
    db w' = db w ∧
    requests w'
    = requests w ++ [StorageUpload (filePath file userId fileType) file] ∧
    storage w'
    = match backend_error env
              (StorageUpload (filePath file userId fileType) file) with
      | Some _ => storage w
      | None => <[filePath file userId fileType := file]> (storage w)
      end.
Proof.
  destruct (uploadIfProvided_run env (Some [file]) userId fileType w)
    as (w' & E & Hr & Hd & Hs).
  exists w'. cbn [uploadIfProvided] in E. rewrite E.
  unfold uploadedUrl, storedBy, uploadRequests in *. cbn [firstFile] in *.
  split; [|done].
  destruct (backend_error env _); [done|]. by rewrite getPublicUrl_populated.
Qed.

(** X24.  Uploads overwrite by path, and the path holds the extension.  Of
    two accepted uploads for the same user and the same document type, the
    second replaces the first when the two file names have the same
    extension (the bucket is as if only the second had been uploaded, so a
    repeated upload changes nothing more); with different extensions the
    first object stays in the bucket next to the second.  A refused upload
    stores nothing and yields no URL. *)
Theorem uploadFile_overwrites_same_extension_only (env : Env) (f1 f2 : File)
    (userId fileType : string) (w : World) :
  let p1 := filePath f1 userId fileType in
  let p2 := filePath f2 userId fileType in
  let w1 := (uploadFile env f1 userId fileType w).2 in
  let w2 := (uploadFile env f2 userId fileType w1).2 in
  match backend_error env (StorageUpload p1 f1),
        backend_error env (StorageUpload p2 f2) with
  | None, None =>
      storage w2 !! p2 = Some f2 ∧
      if decide (fileExt f1 = fileExt f2)
      then storage w2 = <[p2 := f2]> (storage w)
      else storage w2 !! p1 = Some f1
  | _, Some _ =>
      storage w2 = storage w1 ∧
      (uploadFile env f2 userId fileType w1).1 = Returned None
  | Some _, None =>
      storage w1 = storage w ∧ storage w2 = <[p2 := f2]> (storage w)
  end.
Proof.
  intros p1 p2 w1 w2.
  destruct (uploadFile_run env f1 userId fileType w) as (w1' & E1 & _ & _ & Hs1).
  assert (Hw1 : w1 = w1') by (subst w1; by rewrite E1). rewrite <- Hw1 in Hs1.
  destruct (uploadFile_run env f2 userId fileType w1) as (w2' & E2 & _ & _ & Hs2).
  assert (Hw2 : w2 = w2') by (subst w2; by rewrite E2). rewrite <- Hw2 in Hs2.
  fold p1 in Hs1. fold p2 in Hs2, E2.
  destruct (backend_error env (StorageUpload p1 f1)),
           (backend_error env (StorageUpload p2 f2)).
  - split; [done|]. by rewrite E2.
  - by rewrite Hs2, Hs1.
  - split; [done|]. by rewrite E2.
  - rewrite Hs2, Hs1. split; [apply lookup_insert_eq|].
    destruct (decide (fileExt f1 = fileExt f2)) as [Hext | Hext].
    + apply (filePath_ext f1 f2 userId fileType) in Hext. fold p1 p2 in Hext.
      rewrite Hext. apply insert_insert_eq.
    + rewrite lookup_insert_ne; [apply lookup_insert_eq|].
      intros Hp. apply Hext. apply (filePath_ext f1 f2 userId fileType).
      by symmetry.
Qed.

(** *** What a registration leaves alone *)

Lemma filePath_under_user (file : File) (userId fileType : string) :
  Js.startsWith (filePath file userId fileType) ("documents/" +:+ userId +:+ "/")
  = true.
Proof.
  apply JsFacts.startsWith_spec. unfold filePath.
  exists (fileType +:+ "." +:+ fileExt file).
  by rewrite !JsFacts.app_assoc.
Qed.

Lemma storedBy_elsewhere (env : Env) (userId fileType : string)
    (l : option (list File)) (s : gmap string File) (path : string) :
  Js.startsWith path ("documents/" +:+ userId +:+ "/") = false →
  storedBy env userId fileType l s !! path = s !! path.
Proof.
  intros Hpath. unfold storedBy. destruct (firstFile l) as [file|]; [|done].
  destruct (backend_error env _); [done|].
  apply lookup_insert_ne. intros <-.
  by rewrite filePath_under_user in Hpath.
Qed.

(** X25.  A registration writes under its own user id only.  Whatever the
    backend answers, [signUp] for a user that the identity layer created
    leaves the employees, the locations and the assignments as they are,
    changes no profile row other than the one with the id of the user, and
    changes no object of the bucket outside the folder of that user. *)
Theorem signUp_writes_under_own_user_id (env : Env) (email password : string)
    (md : UserMetadata) (files : option FileUploads) (w : World) (u : App.User) :
  user_of (data (auth_response env email password (Some (authMetadata md))))
    = Some u →
  let w' := (signUp env email password (Some md) files w).2 in
  employees (db w') = employees (db w) ∧
  geofence_locations (db w') = geofence_locations (db w) ∧
  employee_location_assignments (db w') = employee_location_assignments (db w) ∧
  (∀ id, id ≠ App.user_id u → profiles (db w') !! id = profiles (db w) !! id) ∧
  (∀ path,
     Js.startsWith path ("documents/" +:+ App.user_id u +:+ "/") = false →
     storage w' !! path = storage w !! path).
Proof.
  intros Hu w'.
  destruct (signUp_run_with_profile env email password md files w u Hu)
    as (w1 & E & _ & Hs & Hd).
  assert (Hw : w' = w1) by (subst w'; by rewrite E). rewrite Hw. clear Hw w'.
  assert (Hdb : db w1 = db w ∨
                db w1 = upsert_profile
                          (expectedRow env (App.user_id u) md files) (db w)).
  { destruct (backend_error env _); [left; apply Hd | by right]. }
  split; [by destruct Hdb as [-> | ->]|].
  split; [by destruct Hdb as [-> | ->]|].
  split; [by destruct Hdb as [-> | ->]|].
  split.
  - intros id Hid. destruct Hdb as [-> | ->]; [done|].
    unfold upsert_profile. cbn [profiles set_profiles].
    apply lookup_insert_ne. by intros <-.
  - intros path Hpath. rewrite Hs. by rewrite !storedBy_elsewhere.
Qed.

Lemma signUp_writes_under_own_user_id_witness :
  user_of (data (auth_response Scenario.env0 "ani@example.com" "s3cret!"
                   (Some (authMetadata Scenario.aniMetadata))))
    = Some Scenario.user1 ∧
  employee_location_assignments
    (db (signUp Scenario.env0 "ani@example.com" "s3cret!"
           (Some Scenario.aniMetadata) (Some Scenario.selfieOnly) Scenario.w0).2)
  = employee_location_assignments (db Scenario.w0) ∧
  storage (signUp Scenario.env0 "ani@example.com" "s3cret!"
             (Some Scenario.aniMetadata) (Some Scenario.selfieOnly) Scenario.w0).2
    !! "documents/U2/selfie.jpg"
  = None.
Proof.
  split; [reflexivity|].
  destruct (signUp_writes_under_own_user_id Scenario.env0 "ani@example.com"
              "s3cret!" Scenario.aniMetadata (Some Scenario.selfieOnly)
              Scenario.w0 Scenario.user1 eq_refl) as (_ & _ & Ha & _ & Hs).
  split; [exact Ha|]. rewrite (Hs "documents/U2/selfie.jpg" eq_refl).
  reflexivity.
Defined.

(** *** The registration form *)

Lemma signUp_result (env : Env) (email password : string)
    (md : UserMetadata) (files : option FileUploads) (w : World) :
  (signUp env email password (Some md) files w).1
  = Returned (auth_response env email password (Some (authMetadata md))).
Proof.
  destruct (user_of (data (auth_response env email password
                             (Some (authMetadata md))))) as [u|] eqn:Hu.
  - destruct (signUp_run_with_profile env email password md files w u Hu)
      as (w' & E & _). by rewrite E.
  - by rewrite (signUp_run_without_profile env email password (Some md) files w)
      by by left.
Qed.

Lemma preserves_callbacks_uploadIfProvided (env : Env) (l : option (list File))
    (userId fileType : string) :
  preserves callbacks (uploadIfProvided env l userId fileType).
Proof.
  intros w.
  unfold uploadIfProvided. destruct l as [[|file rest]|]; [done| |done].
  unfold uploadFile, storage_upload. rewrite run_bind.
  by destruct (backend_error env _).
Qed.

Lemma preserves_callbacks_signUp (env : Env) (email password : string)
    (metadata : option UserMetadata) (files : option FileUploads) :
  preserves callbacks (signUp env email password metadata files).
Proof.
  unfold signUp. apply preserves_try_catch.
  - apply preserves_bind; [by intros w|]. intros r.
    apply preserves_bind; [by apply preserves_modify|]. intros _.
    apply preserves_bind; [|intros; apply preserves_ret].
    destruct (user_of (data r)) as [user|]; [|apply preserves_ret].
    destruct metadata as [md|]; [|apply preserves_ret].
    apply preserves_bind.
    { destruct files as [f|]; [|apply preserves_ret].
      apply preserves_bind; [apply preserves_callbacks_uploadIfProvided|].
      intros ?. apply preserves_bind; [apply preserves_callbacks_uploadIfProvided|].
      intros ?. apply preserves_bind; [apply preserves_callbacks_uploadIfProvided|].
      intros ?. apply preserves_bind; [apply preserves_callbacks_uploadIfProvided|].
      intros ?. apply preserves_ret. }
    intros [[[selfieUrl ktpUrl] kkUrl] cvUrl].
    apply preserves_bind; [apply preserves_callbacks_query|].
    intros p. destruct (error p); [by apply preserves_modify | apply preserves_ret].
  - intros e. apply preserves_bind; [by apply preserves_modify|].
    intros _. apply preserves_ret.
Qed.

(** X26.  What the registration form tells the user follows the identity
    layer alone.  [onSubmit] clears the messages of an earlier attempt and
    always ends with the loading flag cleared.  When the identity layer
    reports an error, its message is shown and no redirect is started.
    When it reports none, the form shows the success message and starts the
    timer that leads to the login page, whether or not the documents were
    uploaded and the profile row was written. *)
Theorem onSubmit_follows_identity_layer (env : Env)
    (data : RegisterForm.FormValues) (st : RegisterForm.State) (w : World) :
  let r := auth_response env (RegisterForm.email data) (RegisterForm.password data)
             (Some (authMetadata (RegisterForm.metadataOf data))) in
  ∃ w',
    RegisterForm.onSubmit env data st w
    = (Returned
         match error r, Supabase.data r with
         | Some authError, _ =>
             {| RegisterForm.isLoading := false;
                RegisterForm.error := Some (message authError);
                RegisterForm.success := None |}
         | None, Some _ =>
             {| RegisterForm.isLoading := false;
                RegisterForm.error := None;
                RegisterForm.success := Some RegisterForm.registered |}
         | None, None =>
             {| RegisterForm.isLoading := false;
                RegisterForm.error := None;
                RegisterForm.success := None |}
         end, w') ∧
    callbacks w'
    = callbacks w
      ++ match error r, Supabase.data r with
         | None, Some _ => [RegisterForm.redirectToLogin]
         | _, _ => []
         end.
Proof.
  intros r. unfold RegisterForm.onSubmit.
  pose proof (signUp_result env (RegisterForm.email data)
                (RegisterForm.password data) (RegisterForm.metadataOf data)
                (Some (RegisterForm.filesOf data)) w) as Hres.
  pose proof (preserves_callbacks_signUp env (RegisterForm.email data)
                (RegisterForm.password data) (Some (RegisterForm.metadataOf data))
                (Some (RegisterForm.filesOf data)) w) as Hcb.
  fold r in Hres. rewrite run_bind. unfold try_catch. rewrite run_bind.
  destruct (signUp env _ _ _ _ w) as [o w1]. cbn [fst snd] in Hres, Hcb.
  subst o.
  destruct (error r) as [e|]; [|destruct (Supabase.data r)].
  - eexists. split; [reflexivity|]. by rewrite app_nil_r.
  - eexists. split; [reflexivity|]. cbn. by rewrite Hcb.
  - eexists. split; [reflexivity|]. by rewrite app_nil_r.
Qed.

Section Schema.
Variable isEmail : string → bool.

Lemma minLength_nil (n : nat) (field msg v : string) :
  RegisterForm.minLength n field msg v = [] ↔ (n ≤ Js.stringLength v)%nat.
Proof.
  unfold RegisterForm.minLength.
  destruct (Nat.leb_spec n (Js.stringLength v)); split; (done || lia).
Qed.

Lemma required_nil (field msg v : string) :
  RegisterForm.minLength 1 field msg v = [] ↔ RegisterForm.filled v.
Proof. apply minLength_nil. Qed.

(** The length is counted in code units: a password of three letters with
    an accent is too short, although it takes six bytes. *)
Example short_password :
  String.length (Js.bytes [0xC3; 0xA9; 0xC3; 0xA9; 0xC3; 0xA9]%N) = 6 ∧
  Js.stringLength (Js.bytes [0xC3; 0xA9; 0xC3; 0xA9; 0xC3; 0xA9]%N) = 3 ∧
  RegisterForm.minLength 6 "password" "Password must be at least 6 characters"
    (Js.bytes [0xC3; 0xA9; 0xC3; 0xA9; 0xC3; 0xA9]%N)
  = [ {| GeofenceLocationDialog.path := "password";
         GeofenceLocationDialog.issue := "Password must be at least 6 characters" |} ].
Proof. repeat split; reflexivity. Qed.

Lemma registration_issues_nil (input : RegisterForm.FormValues) :
  RegisterForm.fieldIssues isEmail input ++ RegisterForm.passwordsMatch input = []
  ↔ RegisterForm.acceptable isEmail input.
Proof.
  unfold RegisterForm.fieldIssues, RegisterForm.passwordsMatch,
    RegisterForm.acceptable.
  rewrite !app_nil, !required_nil, !minLength_nil.
  assert (He : (if isEmail (RegisterForm.email input) then []
                else [ {| GeofenceLocationDialog.path := "email";
                          GeofenceLocationDialog.issue := "Invalid email address" |} ])
               = [] ↔ isEmail (RegisterForm.email input) = true).
  { by destruct (isEmail _). }
  assert (Hp : (if String.eqb (RegisterForm.password input)
                     (RegisterForm.confirmPassword input)
                then []
                else [ {| GeofenceLocationDialog.path := "confirmPassword";
                          GeofenceLocationDialog.issue := "Passwords do not match" |} ])
               = [] ↔
               RegisterForm.confirmPassword input = RegisterForm.password input).
  { destruct (String.eqb_spec (RegisterForm.password input)
                (RegisterForm.confirmPassword input)); split; done. }
  rewrite He, Hp. split.
  - intros ((?&?&?&?&?&?&?&?&?&?&?)&?). done.
  - intros (?&?&?&?&?&?&?&?&?&?&Hc). rewrite Hc. done.
Qed.

(** X27.  The registration form accepts exactly the inputs with every
    required field filled in, an e-mail address of the right form, a
    password of at least six UTF-16 code units and a confirmation equal to
    the password; the alias and the four documents are optional.  What it
    accepts it passes on unchanged.  When every field is fine by itself and
    only the confirmation differs, the one issue is "Passwords do not
    match", reported at the confirmation. *)
Theorem formSchema_accepts_registration (input : RegisterForm.FormValues) :
  match RegisterForm.formSchema isEmail input with
  | inl data => data = input ∧ RegisterForm.acceptable isEmail input
  | inr issues =>
      issues ≠ [] ∧ ¬ RegisterForm.acceptable isEmail input ∧
      match RegisterForm.fieldIssues isEmail input with
      | [] =>
          RegisterForm.confirmPassword input ≠ RegisterForm.password input ∧
          issues = [ {| GeofenceLocationDialog.path := "confirmPassword";
                        GeofenceLocationDialog.issue := "Passwords do not match" |} ]
      | _ :: _ => True
      end
  end.
Proof.
  unfold RegisterForm.formSchema.
  destruct (RegisterForm.fieldIssues isEmail input
            ++ RegisterForm.passwordsMatch input) as [|i issues] eqn:E.
  - split; [done|]. by apply registration_issues_nil.
  - split; [done|]. split.
    + intros H. apply registration_issues_nil in H. congruence.
    + destruct (RegisterForm.fieldIssues isEmail input); [|done].
      simpl in E. unfold RegisterForm.passwordsMatch in E.
      destruct (String.eqb_spec (RegisterForm.password input)
                  (RegisterForm.confirmPassword input)); [done|].
      split; [congruence | by rewrite E].
Qed.

End Schema.

End RegistrationFacts.

(** ** Routing: following the redirects *)

Module RoutingFacts.
Import App AppFacts.

(** What a route can render. *)
Lemma AppRoutes_cases (tempo : bool) (auth : AuthContext) (pathname : string) :
  AppRoutes tempo auth pathname = Render LoginPage ∨
  AppRoutes tempo auth pathname = Render RegisterForm ∨
  (∃ page, AppRoutes tempo auth pathname = ProtectedRoute auth (Render page)) ∨
  AppRoutes tempo auth pathname = NoElement ∨
  AppRoutes tempo auth pathname = Navigate "/".
Proof.
  unfold AppRoutes.
  destruct (List.find _ (routes tempo auth)) as [r|] eqn:E; [|tauto].
  apply find_some in E as [Hin _].
  destruct tempo; simpl in Hin;
    repeat (destruct Hin as [<- | Hin]; [simpl; eauto 10|]); done.
Qed.

Lemma login_renders (tempo : bool) (auth : AuthContext) :
  AppRoutes tempo auth "/login" = Render LoginPage.
Proof. reflexivity. Qed.

Lemma home_is_guarded (tempo : bool) (auth : AuthContext) :
  AppRoutes tempo auth "/" = ProtectedRoute auth (Render Home).
Proof. reflexivity. Qed.

Lemma ProtectedRoute_cases (auth : AuthContext) (page : Page) :
  ProtectedRoute auth (Render page)
  = if isLoading auth then LoadingAuthentication
    else match user auth with
         | None => Navigate "/login"
         | Some _ => Render page
         end.
Proof. reflexivity. Qed.



(** X29.  Redirects end.  From every pathname at most two redirects are
    followed before something other than a redirect is on the screen (an
    unknown path leads to the home page, the home page without a user to the
    login page), and following further changes nothing. *)
Theorem follow_settles_after_two_redirects (tempo : bool) (auth : AuthContext)
    (pathname : string) :
  match follow 2 tempo auth pathname with
  | Navigate _ => False
  | _ => True
  end ∧
  ∀ n, follow (2 + n) tempo auth pathname = follow 2 tempo auth pathname.
Proof.
  assert (Hlogin : ∀ n, follow n tempo auth "/login" = Render LoginPage).
  { intros [|n]; reflexivity. }
  assert (Hhome : ∀ n,
    follow (S n) tempo auth "/"
    = if isLoading auth then LoadingAuthentication
      else match user auth with
           | None => Render LoginPage
           | Some _ => Render Home
           end).
  { intros n. cbn [follow]. rewrite home_is_guarded, ProtectedRoute_cases.
    destruct (isLoading auth); [done|]. destruct (user auth); [done|].
    apply Hlogin. }
  assert (Hstep : ∀ n,
    follow (S (S n)) tempo auth pathname
    = match AppRoutes tempo auth pathname with
      | Navigate to => follow (S n) tempo auth to
      | e => e
      end).
  { intros n. reflexivity. }
  change (∀ n, follow (2 + n) tempo auth pathname = follow 2 tempo auth pathname)
    with (∀ n, follow (S (S n)) tempo auth pathname = follow 2 tempo auth pathname).
  destruct (AppRoutes_cases tempo auth pathname)
    as [H | [H | [[page H] | [H | H]]]].
  - split; [by rewrite (Hstep 0), H|]. intros n. by rewrite (Hstep n), (Hstep 0), H.
  - split; [by rewrite (Hstep 0), H|]. intros n. by rewrite (Hstep n), (Hstep 0), H.
  - rewrite ProtectedRoute_cases in H. split.
    + rewrite (Hstep 0), H. destruct (isLoading auth); [done|].
      destruct (user auth); [done|]. by rewrite Hlogin.
    + intros n. rewrite (Hstep n), (Hstep 0), H. destruct (isLoading auth); [done|].
      destruct (user auth); [done|]. by rewrite !Hlogin.
  - split; [by rewrite (Hstep 0), H|]. intros n. by rewrite (Hstep n), (Hstep 0), H.
  - split.
    + rewrite (Hstep 0), H. rewrite (Hhome 0). destruct (isLoading auth); [done|].
      by destruct (user auth).
    + intros n. by rewrite (Hstep n), (Hstep 0), H, !Hhome.
Qed.

End RoutingFacts.

(** ** The table of locations after a listing *)

Module TableFacts.
Import Supabase Client ClientFacts LocationsPage LocationsPageFacts.
Import GeofenceLocationTable.

Lemma listed_row (env : Env) (d : Db) (r : LocationRow) :
  (loc_name (listed env d r), loc_address (listed env d r),
   assignedCell (listed env d r))
  = (row_name r, row_address r,
     match backend_error env (SelectAssignmentsOfLocation (row_id r)) with
     | Some _ => NoneCell
     | None => EmployeesCount (length (employees_assigned_to d (row_id r)))
     end).
Proof.
  unfold assignedCell.
  destruct (listed_assigned_employees env d r) as (_ & -> & -> & _ & ->).
  by destruct (backend_error env _).
Qed.

(** X30.  What the table shows once a listing is over.  It never stays on
    "Loading locations...".  After a listing that the backend answers it
    shows "No geofence locations found" for an empty table and otherwise
    one row per location, newest first, with the number of assigned
    employees: 0 for a location without assignments, and the word None only
    where the query for the assignments of that location failed.  After a
    listing that failed it shows what it showed before. *)
Theorem table_after_listing (env : Env) (st : State) (w : World) :
  ∃ st' w',
    fetchLocations env st w = (Returned st', w') ∧
    render (locations st') (isLoading st')
    = match backend_error env SelectLocations with
      | Some _ => render (locations st) false
      | None =>
          match select_locations (db w) with
          | [] => NoLocationsFound
          | rows =>
              Rows (map (λ r,
                      (row_name r, row_address r,
                       match backend_error env
                               (SelectAssignmentsOfLocation (row_id r)) with
                       | Some _ => NoneCell
                       | None =>
                           EmployeesCount
                             (length (employees_assigned_to (db w) (row_id r)))
                       end)) rows)
          end
      end.
Proof.
  destruct (backend_error env SelectLocations) as [e|] eqn:He.
  - destruct (fetchLocations_run_failed env st w e He) as (w' & E & _).
    by eexists _, w'.
  - destruct (fetchLocations_run_ok env st w He) as (w' & E & _).
    eexists _, w'. split; [exact E|].
    cbn [locations isLoading setIsLoading setLocations]. unfold render.
    destruct (select_locations (db w)) as [|r rows]; [done|].
    cbn [map]. f_equal. rewrite map_map. cbn [map].
    rewrite listed_row. f_equal. apply map_ext. intros r'. apply listed_row.
Qed.

End TableFacts.
